(** * Delta Green Administration System: command dispatcher and threshold
    state machines.

    A shallow embedding of [DAS-Delta-Green-Input-Script.js]
    (class [DeltaGreenInputProcessor]) and of
    [DAS-Delta-Green-Context-Script.js] (class [DeltaGreenContextManager]),
    followed by the properties of the specification that concern them.

    Conventions of the embedding.
    - JavaScript numbers are restricted to integers and modelled by [Z];
      [NaN], infinities and fractions are outside the model.
    - JavaScript strings are modelled by [string]; the character classes
      [\s], [trim] and [toUpperCase] are the ASCII ones.
    - [new Date()], [Date.now()] and [Math.random()] are oracles: the
      environment [Env] gives the value of the n-th reading and every state
      counts the readings made so far.
    - A method that mutates [this] is a function from the state before to an
      [outcome]: the value returned, or the exception raised, with the state
      after. *)

From Stdlib Require Import ZArith Ascii String List Lia.
From stdpp Require Import base option list gmap strings pretty.
Import ListNotations.
Open Scope string_scope.
Open Scope Z_scope.

(** ** JavaScript values, the environment, effects *)

Module JS.

(** The fragment of JavaScript values that the two classes store and return. *)
#[local] Set Warnings "-register-all".
Inductive value : Type :=
| VUndef : value
| VNull : value
| VBool : bool -> value
| VNum : Z -> value
| VStr : string -> value
| VArr : list value -> value
| VObj : list (string * value) -> value.

(** [ToBoolean] on the fragment. *)
Definition truthy (v : value) : bool :=
  match v with
  | VUndef | VNull => false
  | VBool b => b
  | VNum z => negb (z =? 0)
  | VStr s => negb (String.eqb s "")
  | VArr _ | VObj _ => true
  end.

(** [x || d] for an optional number: [undefined], [null] and [0] give [d]. *)
Definition numOr (x : option Z) (d : Z) : Z :=
  match x with
  | Some z => if z =? 0 then d else z
  | None => d
  end.

(** [x || d] for an optional string: [undefined] and the empty string give [d]. *)
Definition strOr (x : option string) (d : string) : string :=
  match x with
  | Some s => if String.eqb s "" then d else s
  | None => d
  end.

(** An optional string when it is truthy, that is, supplied and not the
    empty string. *)
Definition given (x : option string) : option string :=
  match x with
  | Some s => if String.eqb s "" then None else Some s
  | None => None
  end.

(** [x || d] for an optional value of any other kind. *)
Definition valOr (x : option value) (d : value) : value :=
  match x with
  | Some v => if truthy v then v else d
  | None => d
  end.

(** [Math.max(lo, Math.min(hi, x))], the clamp used throughout. *)
Definition clamp (lo hi x : Z) : Z := Z.max lo (Z.min hi x).

(** The oracles: the ISO-8601 text of the n-th reading of the clock, the
    identifier that [generateId] builds from the n-th reading of the clock
    and of the random generator, and the call sign that [generateCallsign]
    draws at the n-th reading. *)
Record Env : Type := mkEnv {
  isoAt : nat -> string;
  idAt : nat -> string;
  callsignAt : nat -> string
}.

(** Result of running a method on a state of type [S]: it returns a value,
    or raises an [Error] with the given message, each with the state left
    behind; [Unmodelled] marks a run that leaves the integer fragment (a
    number is expected and another kind of value is supplied). *)
Inductive outcome (S A : Type) : Type :=
| Returned : A -> S -> outcome S A
| Raised : string -> S -> outcome S A
| Unmodelled : outcome S A.
Arguments Returned {S A} _ _.
Arguments Raised {S A} _ _.
Arguments Unmodelled {S A}.

Definition stateOf {S A : Type} (o : outcome S A) : option S :=
  match o with
  | Returned _ s => Some s
  | Raised _ s => Some s
  | Unmodelled => None
  end.

Definition returned {S A : Type} (o : outcome S A) : option A :=
  match o with
  | Returned a _ => Some a
  | _ => None
  end.

Definition ret {S A : Type} (a : A) : S -> outcome S A :=
  fun s => Returned a s.

Definition bind {S A B : Type} (c : S -> outcome S A)
  (k : A -> S -> outcome S B) : S -> outcome S B :=
  fun s =>
    match c s with
    | Returned a s' => k a s'
    | Raised e s' => Raised e s'
    | Unmodelled => Unmodelled
    end.

Definition throw {S A : Type} (e : string) : S -> outcome S A :=
  fun s => Raised e s.

Definition get {S : Type} : S -> outcome S S :=
  fun s => Returned s s.

Definition modify {S : Type} (f : S -> S) : S -> outcome S unit :=
  fun s => Returned tt (f s).

(** ASCII [\s]: tab, line feed, vertical tab, form feed, carriage return,
    space. *)
Definition isSpace (c : ascii) : bool :=
  let n := nat_of_ascii c in
  ((9 <=? n)%nat && (n <=? 13)%nat) || (n =? 32)%nat.

Definition isQuote (c : ascii) : bool := (nat_of_ascii c =? 34)%nat.

(** The text made of one double quote. *)
Definition dq : string := String "034"%char EmptyString.

Definition upperChar (c : ascii) : ascii :=
  let n := nat_of_ascii c in
  if ((97 <=? n)%nat && (n <=? 122)%nat)%bool then ascii_of_nat (n - 32) else c.

(** [s.toUpperCase()] *)
Fixpoint toUpperCase (s : string) : string :=
  match s with
  | EmptyString => EmptyString
  | String c r => String (upperChar c) (toUpperCase r)
  end.

Fixpoint trimStart (s : string) : string :=
  match s with
  | EmptyString => EmptyString
  | String c r => if isSpace c then trimStart r else s
  end.

(** Drops the trailing white space: the text is kept up to its last
    character that is not white space. *)
Fixpoint trimEnd (s : string) : string :=
  match s with
  | EmptyString => EmptyString
  | String c r =>
      match trimEnd r with
      | EmptyString => if isSpace c then EmptyString else String c EmptyString
      | r' => String c r'
      end
  end.

(** [s.trim()] *)
Definition trim (s : string) : string := trimEnd (trimStart s).

(** [s.includes(sub)] *)
Fixpoint includes (s sub : string) : bool :=
  String.prefix sub s ||
  match s with
  | EmptyString => false
  | String _ r => includes r sub
  end.

(** [parts.join(sep)] *)
Definition join (sep : string) (parts : list string) : string :=
  String.concat sep parts.

(** [l.slice(-n)]: the last [n] elements, all of them when there are fewer. *)
Definition sliceLast {A : Type} (n : nat) (l : list A) : list A :=
  drop (length l - n) l.

End JS.

Import JS.

Notation "'let*' x ':=' c 'in' k" := (JS.bind c (fun x => k))
  (at level 10, x name, c at level 200, k at level 200, only parsing).

(** ** The command dispatcher: class [DeltaGreenInputProcessor] *)

Module Input.

(** One element of [actionLog]. *)
Record logEntry : Type := mkLogEntry {
  le_timestamp : string;
  le_command : string;
  le_args : list string;
  le_status : string
}.

(** The response envelope built by [formatResponse]. *)
Record response : Type := mkResponse {
  status : string;
  message : string;
  data : value;
  timestamp : string
}.

(** The fields of the processor other than [commandRegistry], which is
    passed separately; [threatLevel] is [None] when it holds [undefined];
    [ticks] counts the readings of the oracles. *)
Record state : Type := mkState {
  agentStates : gmap string value;
  actionLog : list logEntry;
  threatLevel : option string;
  ticks : nat
}.

Definition M (A : Type) : Type := state -> outcome state A.

(** A registered handler, applied to the spread argument list. *)
Definition handler : Type := list string -> M response.

(** The state made by the constructor. *)
Definition initial : state :=
  {| agentStates := ∅; actionLog := []; threatLevel := Some "NORMAL"; ticks := 0 |}.

Definition setAgentStates (f : gmap string value -> gmap string value) (st : state) : state :=
  {| agentStates := f (agentStates st); actionLog := actionLog st;
     threatLevel := threatLevel st; ticks := ticks st |}.

Definition setActionLog (f : list logEntry -> list logEntry) (st : state) : state :=
  {| agentStates := agentStates st; actionLog := f (actionLog st);
     threatLevel := threatLevel st; ticks := ticks st |}.

Definition setThreatLevel (l : option string) (st : state) : state :=
  {| agentStates := agentStates st; actionLog := actionLog st;
     threatLevel := l; ticks := ticks st |}.

Definition tick (st : state) : state :=
  {| agentStates := agentStates st; actionLog := actionLog st;
     threatLevel := threatLevel st; ticks := S (ticks st) |}.

Definition optStr (o : option string) : value :=
  match o with
  | Some s => VStr s
  | None => VUndef
  end.

Definition entryValue (e : logEntry) : value :=
  VObj [("timestamp", VStr (le_timestamp e)); ("command", VStr (le_command e));
        ("args", VArr (map VStr (le_args e))); ("status", VStr (le_status e))].

(** *** Tokenization

    The regular expression of [tokenizeInput] has two alternatives: a run of
    one or more characters other than white space and the double quote; and
    a double quote, a captured run of characters other than the double
    quote, and a double quote. *)

(** The longest prefix of characters other than white space and the quote,
    with what follows it: the first alternative matches when that prefix is
    not empty. *)
Fixpoint bareRun (s : string) : string * string :=
  match s with
  | EmptyString => (EmptyString, EmptyString)
  | String c r =>
      if isSpace c || isQuote c then (EmptyString, s)
      else let (w, r') := bareRun r in (String c w, r')
  end.

(** The longest prefix of characters other than the quote, with what
    follows it: the captured group of the second alternative. *)
Fixpoint untilQuote (s : string) : string * string :=
  match s with
  | EmptyString => (EmptyString, EmptyString)
  | String c r =>
      if isQuote c then (EmptyString, s)
      else let (w, r') := untilQuote r in (String c w, r')
  end.

(** What [regex.exec] returns: [match[0]], [match[1]] ([None] when the group
    did not take part) and the input from the new [lastIndex] on. *)
Record rmatch : Type := mkMatch {
  whole : string;
  group1 : option string;
  after : string
}.

(** A match that starts at the first character of [s]. *)
Definition matchHere (s : string) : option rmatch :=
  match bareRun s with
  | (String c w, r) => Some {| whole := String c w; group1 := None; after := r |}
  | (EmptyString, _) =>
      match s with
      | String q r =>
          if isQuote q then
            match untilQuote r with
            | (body, String q' r') =>
                Some {| whole := String q (body ++ String q' EmptyString);
                        group1 := Some body; after := r' |}
            | (_, EmptyString) => None
            end
          else None
      | EmptyString => None
      end
  end.

(** [regex.exec(input)] from the current [lastIndex]: the leftmost match. *)
Fixpoint exec (s : string) : option rmatch :=
  match matchHere s with
  | Some m => Some m
  | None =>
      match s with
      | EmptyString => None
      | String _ r => exec r
      end
  end.

(** [match[1] || match[0]] *)
Definition tokenOf (m : rmatch) : string :=
  match group1 m with
  | Some g => if String.eqb g "" then whole m else g
  | None => whole m
  end.

(** The [while] loop of [tokenizeInput]; every match takes at least one
    character, so [fuel] bounds the iterations by the length of the input. *)
Fixpoint tokenLoop (fuel : nat) (s : string) : list string :=
  match fuel with
  | O => []
  | S fuel' =>
      match exec s with
      | Some m => tokenOf m :: tokenLoop fuel' (after m)
      | None => []
      end
  end.

Definition tokenizeInput (input : string) : list string :=
  tokenLoop (S (String.length input)) input.

(** *** Handlers *)

Definition levels : gmap string string :=
  list_to_map [("CRITICAL", "CRITICAL"); ("HIGH", "ELEVATED");
               ("MEDIUM", "ELEVATED"); ("LOW", "NORMAL")].

Definition escalation : gmap string string :=
  list_to_map [("NORMAL", "ELEVATED"); ("ELEVATED", "CRITICAL");
               ("CRITICAL", "CRITICAL")].

Definition threatKeywords : list string :=
  ["ANOMALY"; "ENTITY"; "HOSTILE"; "UNKNOWN"].

Definition nl : string := String "010"%char EmptyString.

Definition commands : list (string * string) :=
  [("INVESTIGATE", "INVESTIGATE <target> [details...] - Initiate investigation directive");
   ("ENGAGE", "ENGAGE <agentId> <threat> [modifiers...] - Execute direct engagement");
   ("RETREAT", "RETREAT <agentId> [reason] - Order tactical withdrawal");
   ("CONTAIN", "CONTAIN <objectType> <severity> [measures...] - Activate containment");
   ("RESEARCH", "RESEARCH <subject> [parameters...] - Conduct research operation");
   ("STATUS", "STATUS [agentId] - Get operational status");
   ("DEBRIEF", "DEBRIEF <agentId> [observations...] - Record agent debrief");
   ("REPORT", "REPORT [type] [details...] - Generate operational report");
   ("ALERT", "ALERT <threatType> [location] - Issue threat alert");
   ("ESCALATE", "ESCALATE [reason] - Escalate threat level");
   ("SANITIZE", "SANITIZE <target> [methods...] - Initiate sanitization");
   ("HELP", "HELP [command] - Display help information");
   ("CONFIG", "CONFIG <setting> [value...] - Manage configuration")].

(** [calculateThreatLevel(severity)] *)
Definition calculateThreatLevel (severity : option string) : string :=
  strOr (s ← severity; levels !! toUpperCase s) "NORMAL".

(** [escalateThreatLevel()] *)
Definition escalateThreatLevel : M (option string) :=
  fun st =>
    let next := l ← threatLevel st; escalation !! l in
    Returned next (setThreatLevel next st).

(** [checkThreatLevel(threat)] *)
Definition checkThreatLevel (threat : string) : M unit :=
  if existsb (fun keyword => includes (toUpperCase threat) keyword) threatKeywords
  then modify (setThreatLevel (Some "ELEVATED"))
  else ret tt.

(** [generateHelpText(command)] *)
Definition generateHelpText (command : option string) : string :=
  match given command with
  | Some c => strOr (snd <$> find (fun kv => String.eqb (fst kv) (toUpperCase c)) commands)
                "Command not found"
  | None => join nl (map snd commands)
  end.

Section WithEnv.

Variable env : Env.

(** [new Date().toISOString()] *)
Definition isoNow : M string :=
  fun st => Returned (isoAt env (ticks st)) (tick st).

(** [generateId()] *)
Definition generateId : M string :=
  fun st => Returned (idAt env (ticks st)) (tick st).

(** [formatResponse(status, message, data = null)] *)
Definition formatResponse (status message : string) (data : value) : M response :=
  let* ts := isoNow in
  ret {| status := status; message := message; data := data; timestamp := ts |}.

Definition handleInvestigate : handler := fun args =>
  match given (args !! 0%nat) with
  | None => formatResponse "ERROR" "INVESTIGATE requires a target" VNull
  | Some target =>
      let details := drop 1 args in
      let* id := generateId in
      let* ts := isoNow in
      let investigation :=
        VObj [("id", VStr id); ("target", VStr target);
              ("details", VStr (join " " details)); ("status", VStr "ACTIVE");
              ("timestamp", VStr ts); ("findings", VArr [])] in
      let* _ := modify (setAgentStates (insert id investigation)) in
      formatResponse "SUCCESS" ("Investigation initiated: " ++ id)
        (VObj [("investigation", investigation)])
  end.

Definition handleEngage : handler := fun args =>
  match given (args !! 0%nat), given (args !! 1%nat) with
  | Some agentId, Some threat =>
      let modifiers := drop 2 args in
      let* ts := isoNow in
      let engagementLog :=
        VObj [("agentId", VStr agentId); ("threat", VStr threat);
              ("modifiers", VStr (join " " modifiers)); ("timestamp", VStr ts);
              ("outcome", VStr "PENDING")] in
      let* _ := checkThreatLevel threat in
      formatResponse "SUCCESS" "Engagement directive processed"
        (VObj [("engagement", engagementLog)])
  | _, _ =>
      formatResponse "ERROR" "ENGAGE requires agent ID and threat designation" VNull
  end.

Definition handleRetreat : handler := fun args =>
  match given (args !! 0%nat) with
  | None => formatResponse "ERROR" "RETREAT requires agent ID" VNull
  | Some agentId =>
      let reason := args !! 1%nat in
      let* ts := isoNow in
      let retreatOrder :=
        VObj [("agentId", VStr agentId);
              ("reason", VStr (strOr reason "Tactical withdrawal"));
              ("timestamp", VStr ts); ("status", VStr "EXECUTED")] in
      formatResponse "SUCCESS" "Retreat order processed"
        (VObj [("retreat", retreatOrder)])
  end.

Definition handleContain : handler := fun args =>
  match given (args !! 0%nat) with
  | None =>
      formatResponse "ERROR" "CONTAIN requires object type and severity level" VNull
  | Some objectType =>
      let severity := args !! 1%nat in
      let containmentMeasures := drop 2 args in
      let* id := generateId in
      let* ts := isoNow in
      let containment :=
        VObj [("id", VStr id); ("objectType", VStr objectType);
              ("severity", VStr (strOr severity "UNKNOWN"));
              ("measures", VStr (join " " containmentMeasures));
              ("status", VStr "INITIATED"); ("timestamp", VStr ts)] in
      let* _ := modify (setThreatLevel (Some (calculateThreatLevel severity))) in
      formatResponse "SUCCESS" "Containment protocol activated"
        (VObj [("containment", containment)])
  end.

Definition handleResearch : handler := fun args =>
  match given (args !! 0%nat) with
  | None => formatResponse "ERROR" "RESEARCH requires a subject" VNull
  | Some subject =>
      let parameters := drop 1 args in
      let* id := generateId in
      let* ts := isoNow in
      let research :=
        VObj [("id", VStr id); ("subject", VStr subject);
              ("parameters", VStr (join " " parameters));
              ("status", VStr "IN_PROGRESS"); ("timestamp", VStr ts);
              ("results", VNull)] in
      let* _ := modify (setAgentStates (insert id research)) in
      formatResponse "SUCCESS" "Research directive established"
        (VObj [("research", research)])
  end.

Definition handleStatus : handler := fun args =>
  let agentId := args !! 0%nat in
  let* ts := isoNow in
  let* st := get in
  let statusReport :=
    [("timestamp", VStr ts); ("threatLevel", optStr (threatLevel st));
     ("activeOperations", VNum (Z.of_nat (size (agentStates st))));
     ("recentActions", VArr (map entryValue (sliceLast 5 (actionLog st))))] in
  let agentStatus :=
    match a ← given agentId; agentStates st !! a with
    | Some agent => if truthy agent then [("agentStatus", agent)] else []
    | None => []
    end in
  formatResponse "SUCCESS" "Status report generated" (VObj (statusReport ++ agentStatus)%list).

Definition handleDebrief : handler := fun args =>
  match given (args !! 0%nat) with
  | None => formatResponse "ERROR" "DEBRIEF requires agent ID" VNull
  | Some agentId =>
      let observations := drop 1 args in
      let* ts := isoNow in
      let* id := generateId in
      let debrief :=
        VObj [("agentId", VStr agentId); ("timestamp", VStr ts);
              ("observations", VStr (join " " observations));
              ("mentalpStatus", VStr "PENDING_EVALUATION"); ("recordId", VStr id)] in
      formatResponse "SUCCESS" "Debrief recorded" (VObj [("debrief", debrief)])
  end.

Definition handleReport : handler := fun args =>
  let reportType := args !! 0%nat in
  let details := drop 1 args in
  let* ts := isoNow in
  let* id := generateId in
  let report :=
    VObj [("type", VStr (strOr reportType "GENERAL")); ("timestamp", VStr ts);
          ("details", VStr (join " " details));
          ("classification", VStr "DELTA_GREEN"); ("reportId", VStr id)] in
  formatResponse "SUCCESS" "Report generated" (VObj [("report", report)]).

Definition handleAlert : handler := fun args =>
  match given (args !! 0%nat) with
  | None => formatResponse "ERROR" "ALERT requires threat type" VNull
  | Some threatType =>
      let location := args !! 1%nat in
      let* id := generateId in
      let* ts := isoNow in
      let alert :=
        VObj [("id", VStr id); ("threatType", VStr threatType);
              ("location", VStr (strOr location "UNKNOWN"));
              ("timestamp", VStr ts); ("status", VStr "ISSUED")] in
      let* _ := modify (setThreatLevel (Some "ELEVATED")) in
      formatResponse "SUCCESS" "Alert issued to network" (VObj [("alert", alert)])
  end.

Definition handleEscalate : handler := fun args =>
  let reason := args !! 0%nat in
  let* st := get in
  let previousLevel := threatLevel st in
  let* newLevel := escalateThreatLevel in
  let* ts := isoNow in
  let escalation :=
    VObj [("previousLevel", optStr previousLevel); ("newLevel", optStr newLevel);
          ("reason", VStr (strOr reason "Unspecified")); ("timestamp", VStr ts)] in
  formatResponse "SUCCESS" "Threat level escalated" (VObj [("escalation", escalation)]).

Definition handleSanitize : handler := fun args =>
  match given (args !! 0%nat) with
  | None => formatResponse "ERROR" "SANITIZE requires a target" VNull
  | Some target =>
      let methods := drop 1 args in
      let* id := generateId in
      let* ts := isoNow in
      let sanitization :=
        VObj [("id", VStr id); ("target", VStr target);
              ("methods", VStr (join " " methods)); ("timestamp", VStr ts);
              ("status", VStr "PROCESSING")] in
      formatResponse "SUCCESS" "Sanitization operation initiated"
        (VObj [("sanitization", sanitization)])
  end.

Definition handleHelp : handler := fun args =>
  let helpText := generateHelpText (args !! 0%nat) in
  formatResponse "SUCCESS" "Help information" (VObj [("help", VStr helpText)]).

Definition handleConfig : handler := fun args =>
  match given (args !! 0%nat) with
  | None => formatResponse "ERROR" "CONFIG requires a setting name" VNull
  | Some setting =>
      let value := drop 1 args in
      let* ts := isoNow in
      let config :=
        VObj [("setting", VStr setting); ("value", VStr (join " " value));
              ("timestamp", VStr ts)] in
      formatResponse "SUCCESS" "Configuration updated" (VObj [("config", config)])
  end.

(** *** Registry, audit log and dispatch *)

(** [registerCommand(command, handler)] on the registry. *)
Definition registerCommand (command : string) (h : handler)
  (registry : gmap string handler) : gmap string handler :=
  <[toUpperCase command := h]> registry.

(** The registry after [initializeCommands()]. *)
Definition initializeCommands : gmap string handler :=
  registerCommand "CONFIG" handleConfig
  (registerCommand "HELP" handleHelp
  (registerCommand "SANITIZE" handleSanitize
  (registerCommand "ESCALATE" handleEscalate
  (registerCommand "ALERT" handleAlert
  (registerCommand "REPORT" handleReport
  (registerCommand "DEBRIEF" handleDebrief
  (registerCommand "STATUS" handleStatus
  (registerCommand "RESEARCH" handleResearch
  (registerCommand "CONTAIN" handleContain
  (registerCommand "RETREAT" handleRetreat
  (registerCommand "ENGAGE" handleEngage
  (registerCommand "INVESTIGATE" handleInvestigate ∅)))))))))))).

(** [logAction(command, args, result)] *)
Definition logAction (command : string) (args : list string) (result : response) : M unit :=
  let* ts := isoNow in
  let entry :=
    {| le_timestamp := ts; le_command := command; le_args := args;
       le_status := status result |} in
  let* _ := modify (setActionLog (fun log => (log ++ [entry])%list)) in
  let* st := get in
  if (100 <? length (actionLog st))%nat
  then modify (setActionLog (sliceLast 100))
  else ret tt.

(** [try { body } catch (error) { recover(error.message) }] *)
Definition tryCatch {A : Type} (body : M A) (recover : string -> M A) : M A :=
  fun st =>
    match body st with
    | Returned a st' => Returned a st'
    | Raised e st' => recover e st'
    | Unmodelled => Unmodelled
    end.

(** [processCommand(input)]. Reading [tokens[0].toUpperCase()] when [tokens]
    is empty raises a [TypeError] before the [try] block is entered, so the
    exception leaves [processCommand]. *)
Definition processCommand (registry : gmap string handler) (input : string) : M response :=
  let trimmedInput := trim input in
  if String.eqb trimmedInput "" then formatResponse "ERROR" "No command provided" VNull
  else
    match tokenizeInput trimmedInput with
    | [] => throw "Cannot read properties of undefined (reading 'toUpperCase')"
    | token0 :: args =>
        let command := toUpperCase token0 in
        match registry !! command with
        | None => formatResponse "ERROR" ("Unknown command: " ++ command) VNull
        | Some h =>
            tryCatch
              (let* result := h args in
               let* _ := logAction command args result in
               ret result)
              (fun error =>
                 formatResponse "ERROR" ("Command execution failed: " ++ error) VNull)
        end
    end.

(** A sequence of calls of [processCommand], each on the state left by the
    one before; an exception that leaves a call ends the sequence there. *)
Fixpoint processAll (registry : gmap string handler) (inputs : list string) : M (list response) :=
  match inputs with
  | [] => ret []
  | input :: rest =>
      let* r := processCommand registry input in
      let* rs := processAll registry rest in
      ret (r :: rs)
  end.

End WithEnv.

End Input.

(** ** The context manager: class [DeltaGreenContextManager] *)

Module Context.

(** One element of a tracker's [history]. *)
Record historyEntry : Type := mkHistoryEntry {
  h_timestamp : string;
  h_delta : Z;
  h_previous : Z;
  h_current : Z;
  h_reason : string
}.

(** One element of a tracker's [breakpoints]. *)
Record breakpoint : Type := mkBreakpoint {
  b_timestamp : string;
  b_type : string
}.

(** A value of the [sanityTracker] map. *)
Record tracker : Type := mkTracker {
  current : Z;
  max : Z;
  history : list historyEntry;
  breakpoints : list breakpoint
}.

(** The argument of [registerAgent]; an absent property is [None]. *)
Record agentInput : Type := mkAgentInput {
  in_id : option string;
  in_name : option string;
  in_role : option string;
  in_callsign : option string;
  in_sanity : option Z;
  in_maxSanity : option Z;
  in_skills : option value;
  in_status : option string;
  in_cover : option value;
  in_equipment : option value;
  in_connections : option value;
  in_notes : option string
}.

(** A value of the [teams] map. [members] holds the keys of the agent
    objects the team refers to. *)
Record team : Type := mkTeam {
  t_id : string;
  t_name : string;
  members : list string;
  objective : string;
  morale : Z;
  cohesion : Z;
  casualtyCount : Z;
  missionHistory : list value;
  formed : string;
  t_status : string;
  tactics : string
}.

(** The argument of [createTeam]. *)
Record teamInput : Type := mkTeamInput {
  ti_id : option string;
  ti_name : option string;
  ti_memberIds : option (list string);
  ti_objective : option string;
  ti_morale : option Z;
  ti_cohesion : option Z;
  ti_tactics : option string
}.

(** The second argument of [manageTeamDynamics]. *)
Record dynamics : Type := mkDynamics {
  d_morale : option Z;
  d_cohesion : option Z;
  d_casualty : option Z;
  d_tactics : option string
}.

(** The object returned by [manageTeamDynamics]. *)
Record dynamicsReport : Type := mkDynamicsReport {
  r_teamId : string;
  r_morale : Z;
  r_cohesion : Z;
  r_casualties : Z;
  r_status : string
}.

(** The argument of [createThreatAssessment]. *)
Record threatInput : Type := mkThreatInput {
  th_name : option string;
  th_type : option string;
  th_threat_level : option Z;
  th_classification : option string;
  th_attributes : option value;
  th_knownLocations : option value;
  th_capabilities : option value;
  th_weaknesses : option value;
  th_agents_aware : option value;
  th_containment_status : option string
}.

(** A value of the [threats] map. *)
Record threat : Type := mkThreat {
  x_id : string;
  x_name : string;
  x_type : string;
  threatLevel : Z;
  classification : string;
  attributes : value;
  discovered : string;
  lastSeen : string;
  knownLocations : value;
  capabilities : value;
  weaknesses : value;
  agents_aware : value;
  x_status : string;
  containment_status : string;
  response_team : value
}.

(** The stores that the methods below read or write. An agent is an object
    whose properties are looked up and assigned by name. *)
Record state : Type := mkState {
  agents : gmap string (gmap string value);
  teams : gmap string team;
  threats : gmap string threat;
  sanityTracker : gmap string tracker;
  ticks : nat
}.

Definition M (A : Type) : Type := state -> outcome state A.

(** The stores after the constructor, called without initial agents. *)
Definition initial : state :=
  {| agents := ∅; teams := ∅; threats := ∅; sanityTracker := ∅; ticks := 0 |}.

Definition setAgents (f : gmap string (gmap string value) -> gmap string (gmap string value))
  (st : state) : state :=
  {| agents := f (agents st); teams := teams st; threats := threats st;
     sanityTracker := sanityTracker st; ticks := ticks st |}.

Definition setTeams (f : gmap string team -> gmap string team) (st : state) : state :=
  {| agents := agents st; teams := f (teams st); threats := threats st;
     sanityTracker := sanityTracker st; ticks := ticks st |}.

Definition setThreats (f : gmap string threat -> gmap string threat) (st : state) : state :=
  {| agents := agents st; teams := teams st; threats := f (threats st);
     sanityTracker := sanityTracker st; ticks := ticks st |}.

Definition setSanityTracker (f : gmap string tracker -> gmap string tracker)
  (st : state) : state :=
  {| agents := agents st; teams := teams st; threats := threats st;
     sanityTracker := f (sanityTracker st); ticks := ticks st |}.

Definition tick (st : state) : state :=
  {| agents := agents st; teams := teams st; threats := threats st;
     sanityTracker := sanityTracker st; ticks := S (ticks st) |}.

(** [agent[key] = v] on the agent object stored under [agentId]. *)
Definition assignAgent (agentId key : string) (v : value) : M unit :=
  modify (setAgents (alter (insert key v) agentId)).

(** [current < max * 0.25] on integers: a quarter of an integer is exact, so
    the comparison is that of [4 * current] with [max]. *)
Definition belowQuarter (current max : Z) : bool := 4 * current <? max.

Definition pushHistory (e : historyEntry) (t : tracker) : tracker :=
  {| current := current t; max := max t; history := (history t ++ [e])%list;
     breakpoints := breakpoints t |}.

Definition pushBreakpoint (b : breakpoint) (t : tracker) : tracker :=
  {| current := current t; max := max t; history := history t;
     breakpoints := (breakpoints t ++ [b])%list |}.

Definition setCurrent (c : Z) (t : tracker) : tracker :=
  {| current := c; max := max t; history := history t;
     breakpoints := breakpoints t |}.

Section WithEnv.

Variable env : Env.

(** [new Date().toISOString()] *)
Definition isoNow : M string :=
  fun st => Returned (isoAt env (ticks st)) (tick st).

(** [generateCallsign()] *)
Definition generateCallsign : M string :=
  fun st => Returned (callsignAt env (ticks st)) (tick st).

(** [registerAgent(agent)] *)
Definition registerAgent (agent : agentInput) : M (gmap string value) :=
  let* st := get in
  let id := strOr (in_id agent) ("AGENT-" ++ pretty (size (agents st) + 1)%nat) in
  let* callsign :=
    match in_callsign agent with
    | Some c => if String.eqb c "" then generateCallsign else ret c
    | None => generateCallsign
    end in
  let sanity := numOr (in_sanity agent) 60 in
  let maxSanity := numOr (in_maxSanity agent) 60 in
  let* joined := isoNow in
  let agentData : gmap string value :=
    list_to_map
      [("id", VStr id);
       ("name", VStr (strOr (in_name agent) "Unknown Agent"));
       ("role", VStr (strOr (in_role agent) "Operative"));
       ("callsign", VStr callsign);
       ("sanity", VNum sanity);
       ("maxSanity", VNum maxSanity);
       ("skills", valOr (in_skills agent) (VObj []));
       ("status", VStr (strOr (in_status agent) "active"));
       ("cover", valOr (in_cover agent)
                   (VObj [("identity", VStr "unknown"); ("occupation", VStr "civilian")]));
       ("equipment", valOr (in_equipment agent) (VArr []));
       ("connections", valOr (in_connections agent) (VArr []));
       ("notes", VStr (strOr (in_notes agent) ""));
       ("joinedCampaign", VStr joined);
       ("lastAction", VNull);
       ("stressLevel", VNum 0)] in
  let* _ := modify (setAgents (insert id agentData)) in
  let* _ := modify (setSanityTracker (insert id
              {| current := sanity; max := maxSanity; history := []; breakpoints := [] |})) in
  ret agentData.

(** [modifySanity(agentId, delta)]. The tracker and the agent are objects
    held by the two maps, so every assignment is made in place under
    [agentId]. *)
Definition modifySanity (agentId : string) (delta : Z) : M tracker :=
  let* st := get in
  match sanityTracker st !! agentId, agents st !! agentId with
  | Some tracker0, Some _ =>
      let previousSanity := current tracker0 in
      let newCurrent := clamp 0 (max tracker0) (current tracker0 + delta) in
      let* _ := modify (setSanityTracker (alter (setCurrent newCurrent) agentId)) in
      let* ts := isoNow in
      let* _ := modify (setSanityTracker (alter (pushHistory
                  {| h_timestamp := ts; h_delta := delta; h_previous := previousSanity;
                     h_current := newCurrent; h_reason := "" |}) agentId)) in
      let* _ :=
        if newCurrent =? 0 then
          let* ts' := isoNow in
          let* _ := modify (setSanityTracker (alter (pushBreakpoint
                      {| b_timestamp := ts'; b_type := "complete_break" |}) agentId)) in
          assignAgent agentId "status" (VStr "incapacitated")
        else if belowQuarter newCurrent (max tracker0) then
          let* ts' := isoNow in
          modify (setSanityTracker (alter (pushBreakpoint
            {| b_timestamp := ts'; b_type := "critical" |}) agentId))
        else ret tt in
      let* _ := assignAgent agentId "sanity" (VNum newCurrent) in
      let* st' := get in
      match sanityTracker st' !! agentId with
      | Some tracker' => ret tracker'
      | None => ret tracker0
      end
  | _, _ => throw ("Unable to modify sanity for agent " ++ agentId)
  end.

(** The body of the [forEach] of [updateAgentStatus] for one key of
    [statusUpdate]. *)
Definition applyUpdate (agentId : string) (kv : string * value) : M unit :=
  let (key, v) := kv in
  if String.eqb key "sanity" then
    match v with
    | VNum delta => let* _ := modifySanity agentId delta in ret tt
    | _ => fun _ => Unmodelled
    end
  else if String.eqb key "status" then assignAgent agentId "status" v
  else if String.eqb key "stressLevel" then
    match v with
    | VNum level => assignAgent agentId "stressLevel" (VNum (clamp 0 100 level))
    | _ => fun _ => Unmodelled
    end
  else
    let* st := get in
    match agents st !! agentId with
    | Some agent =>
        match agent !! key with
        | Some _ => assignAgent agentId key v
        | None => ret tt
        end
    | None => ret tt
    end.

Fixpoint forEach {A : Type} (f : A -> M unit) (l : list A) : M unit :=
  match l with
  | [] => ret tt
  | x :: rest => let* _ := f x in forEach f rest
  end.

(** [updateAgentStatus(agentId, statusUpdate)]; [statusUpdate] lists the own
    properties of the update object in the order of [Object.keys]. *)
Definition updateAgentStatus (agentId : string) (statusUpdate : list (string * value))
  : M (gmap string value) :=
  let* st := get in
  match agents st !! agentId with
  | None => throw ("Agent " ++ agentId ++ " not found in registry")
  | Some agent0 =>
      let* _ := forEach (applyUpdate agentId) statusUpdate in
      let* ts := isoNow in
      let* _ := assignAgent agentId "lastAction" (VStr ts) in
      let* st' := get in
      match agents st' !! agentId with
      | Some agent' => ret agent'
      | None => ret agent0
      end
  end.

(** [createTeam(team)] *)
Definition createTeam (input : teamInput) : M team :=
  let* st := get in
  let id := strOr (ti_id input) ("TEAM-" ++ pretty (size (teams st) + 1)%nat) in
  let found :=
    match ti_memberIds input with
    | Some ids => filter (fun i => is_Some (agents st !! i)) ids
    | None => []
    end in
  let* ts := isoNow in
  let teamData :=
    {| t_id := id;
       t_name := strOr (ti_name input) "Unnamed Team";
       members := found;
       objective := strOr (ti_objective input) "";
       morale := numOr (ti_morale input) 75;
       cohesion := numOr (ti_cohesion input) 80;
       casualtyCount := 0;
       missionHistory := [];
       formed := ts;
       t_status := "active";
       tactics := strOr (ti_tactics input) "adaptive" |} in
  let* _ := modify (setTeams (insert id teamData)) in
  ret teamData.

(** The assignments that [manageTeamDynamics] makes to the team object. *)
Definition applyDynamics (d : dynamics) (t : team) : team :=
  let morale1 :=
    match d_morale d with
    | Some m => clamp 0 100 m
    | None => morale t
    end in
  let cohesion1 :=
    match d_cohesion d with
    | Some c => clamp 0 100 c
    | None => cohesion t
    end in
  let casualties1 :=
    match d_casualty d with
    | Some c => if c =? 0 then casualtyCount t else casualtyCount t + c
    | None => casualtyCount t
    end in
  let tactics1 :=
    match given (d_tactics d) with
    | Some x => x
    | None => tactics t
    end in
  let morale2 :=
    if 0 <? casualties1 then
      let moralePenalty := Z.min 30 (casualties1 * 5) in
      Z.max 0 (morale1 - moralePenalty)
    else morale1 in
  {| t_id := t_id t; t_name := t_name t; members := members t;
     objective := objective t; morale := morale2; cohesion := cohesion1;
     casualtyCount := casualties1; missionHistory := missionHistory t;
     formed := formed t; t_status := t_status t; tactics := tactics1 |}.

(** [manageTeamDynamics(teamId, dynamics)] *)
Definition manageTeamDynamics (teamId : string) (d : dynamics) : M dynamicsReport :=
  let* st := get in
  match teams st !! teamId with
  | None => throw ("Team " ++ teamId ++ " not found")
  | Some team0 =>
      let team1 := applyDynamics d team0 in
      let* _ := modify (setTeams (insert teamId team1)) in
      ret {| r_teamId := t_id team1; r_morale := morale team1;
             r_cohesion := cohesion team1; r_casualties := casualtyCount team1;
             r_status := if 50 <? morale team1 then "operational" else "compromised" |}
  end.

(** [createThreatAssessment(threat)] *)
Definition createThreatAssessment (input : threatInput) : M threat :=
  let* st := get in
  let id := "THREAT-" ++ pretty (size (threats st) + 1)%nat in
  let* ts1 := isoNow in
  let* ts2 := isoNow in
  let threatData :=
    {| x_id := id;
       x_name := strOr (th_name input) "Unknown Threat";
       x_type := strOr (th_type input) "anomalous";
       threatLevel := clamp 1 10 (numOr (th_threat_level input) 5);
       classification := strOr (th_classification input) "DELTA GREEN";
       attributes := valOr (th_attributes input) (VArr []);
       discovered := ts1;
       lastSeen := ts2;
       knownLocations := valOr (th_knownLocations input) (VArr []);
       capabilities := valOr (th_capabilities input) (VArr []);
       weaknesses := valOr (th_weaknesses input) (VArr []);
       agents_aware := valOr (th_agents_aware input) (VArr []);
       x_status := "active";
       containment_status := strOr (th_containment_status input) "uncontained";
       response_team := VNull |} in
  let* _ := modify (setThreats (insert id threatData)) in
  ret threatData.

End WithEnv.

End Context.

(** ** Sample data *)

Module Sample.

(** An environment whose n-th readings are numbered. *)
Definition env : Env :=
  {| isoAt := fun n => "2025-12-20T00:00:00." ++ pretty n ++ "Z";
     idAt := fun n => "DG-" ++ pretty n;
     callsignAt := fun n => "SilentShadow-" ++ pretty n |}.

(** [{ id: 'A', sanity: 70, maxSanity: 70 }] *)
Definition agentA : Context.agentInput :=
  Context.mkAgentInput (Some "A") None None None (Some 70) (Some 70)
    None None None None None None.

(** [{ id: 'A', maxSanity: -5 }] *)
Definition agentNegativeMax : Context.agentInput :=
  Context.mkAgentInput (Some "A") None None None None (Some (-5))
    None None None None None None.

Definition noTeam : Context.teamInput :=
  Context.mkTeamInput None None None None None None None.

(** [{ casualty: c }] *)
Definition casualty (c : Z) : Context.dynamics :=
  Context.mkDynamics None None (Some c) None.

(** [{ threat_level: l }] *)
Definition threatOfLevel (l : option Z) : Context.threatInput :=
  Context.mkThreatInput None None l None None None None None None None.

(** The state reached from a given one by a method, when it returns. *)
Definition after {S A : Type} (m : S -> outcome S A) (st : S) : S :=
  match m st with
  | Returned _ st' => st'
  | Raised _ st' => st'
  | Unmodelled => st
  end.

(** A manager with the one team made by [createTeam({})]. *)
Definition oneTeam : Context.state :=
  after (Context.createTeam env noTeam) Context.initial.

(** A manager with agent A registered at sanity 70 of 70. *)
Definition oneAgent : Context.state :=
  after (Context.registerAgent env agentA) Context.initial.

(** A manager with agent A registered with a negative maximum. *)
Definition negativeMax : Context.state :=
  after (Context.registerAgent env agentNegativeMax) Context.initial.

(** Agent A after losing 75 points of sanity. *)
Definition brokenAgent : Context.state :=
  after (Context.modifySanity env "A" (-75)) oneAgent.

End Sample.

(** ** Notions used to state the properties *)

(** The casualty delta that a call adds: nothing is added when the property
    is absent. *)
Definition casualtyDelta (d : Context.dynamics) : Z :=
  default 0 (Context.d_casualty d).

(** A sequence of calls of [manageTeamDynamics] on one team. *)
Fixpoint manageAll (teamId : string) (ds : list Context.dynamics)
  : Context.M (list Context.dynamicsReport) :=
  match ds with
  | [] => ret []
  | d :: rest =>
      let* r := Context.manageTeamDynamics teamId d in
      let* rs := manageAll teamId rest in
      ret (r :: rs)
  end.

(** Each element is at least the one before it, starting from [x]. *)
Fixpoint nondecreasingFrom (x : Z) (l : list Z) : Prop :=
  match l with
  | [] => True
  | y :: rest => x <= y /\ nondecreasingFrom y rest
  end.

(** Every tracker of [m] is still in [m'], with its history and its
    breakpoints kept as they were and possibly followed by new entries. *)
Definition grows (m m' : gmap string Context.tracker) : Prop :=
  forall id t, m !! id = Some t ->
    exists t', m' !! id = Some t' /\
      Context.history t `prefix_of` Context.history t' /\
      Context.breakpoints t `prefix_of` Context.breakpoints t'.

(** The number of leading arguments that the handler of a command tests
    before doing anything else; [None] for the commands that require none
    (STATUS, REPORT, ESCALATE, HELP) and for unregistered names. *)
Definition required (command : string) : option nat :=
  if String.eqb command "INVESTIGATE" then Some 1%nat
  else if String.eqb command "ENGAGE" then Some 2%nat
  else if String.eqb command "RETREAT" then Some 1%nat
  else if String.eqb command "CONTAIN" then Some 1%nat
  else if String.eqb command "RESEARCH" then Some 1%nat
  else if String.eqb command "DEBRIEF" then Some 1%nat
  else if String.eqb command "ALERT" then Some 1%nat
  else if String.eqb command "SANITIZE" then Some 1%nat
  else if String.eqb command "CONFIG" then Some 1%nat
  else None.

(** A handler is well behaved when, on every argument list and state, it
    returns an envelope whose status is SUCCESS or ERROR and leaves the audit
    log alone. *)
Definition wellBehaved (h : Input.handler) : Prop :=
  forall args st, exists r st',
    h args st = Returned r st' /\
    Input.actionLog st' = Input.actionLog st /\
    (Input.status r = "SUCCESS" \/ Input.status r = "ERROR").

(** The input names a handler of the registry. *)
Definition accepted (registry : gmap string Input.handler) (input : string) : Prop :=
  exists t0 args h,
    Input.tokenizeInput (trim input) = t0 :: args /\
    registry !! toUpperCase t0 = Some h.

(** The audit entry [e] is the one of the dispatch of [input] that
    returned [r]. *)
Definition records (input : string) (r : Input.response) (e : Input.logEntry) : Prop :=
  exists t0 args,
    Input.tokenizeInput (trim input) = t0 :: args /\
    Input.le_command e = toUpperCase t0 /\
    Input.le_args e = args /\
    Input.le_status e = Input.status r.

(** A method keeps the trackers when, however it ends, the trackers of the
    state it leaves extend those of the state it started from. *)
Definition keeps {A : Type} (m : Context.M A) : Prop :=
  forall st st', stateOf (m st) = Some st' ->
    grows (Context.sanityTracker st) (Context.sanityTracker st').

(** The agent object and the tracker of A in [Sample.oneAgent]. *)
Definition agentAObject : gmap string value :=
  default ∅ (Context.agents Sample.oneAgent !! "A").

Definition agentATracker : Context.tracker :=
  {| Context.current := 70; Context.max := 70;
     Context.history := []; Context.breakpoints := [] |}.

(** ** The campaign stores of the context manager *)

(** The stores of [DeltaGreenContextManager] that the methods above leave
    alone, and the methods that list, summarise and reset the campaign. *)
Module Campaign.

(** An element of the narrative. *)
Record element : Type := mkElement {
  e_id : string;
  e_type : string;
  content : string;
  triggers : value;
  intensity : Z;
  e_timestamp : string;
  delivered : bool;
  affected_agents : value;
  mood : string;
  consequences : value
}.

(** The argument of [injectNarrative]; an absent property is [None]. *)
Record narrativeInput : Type := mkNarrativeInput {
  n_type : option string;
  n_content : option string;
  n_triggers : option value;
  n_intensity : option Z;
  n_affected_agents : option value;
  n_mood : option string;
  n_consequences : option value
}.

(** [this.narrative] *)
Record narrativeStore : Type := mkNarrative {
  scenes : list element;
  atmosphere : list element;
  clues : list element;
  revelations : list element
}.

(** What [getNarrativeState] returns. *)
Record narrativeState : Type := mkNarrativeState {
  s_scenes : nat;
  s_atmosphere : nat;
  s_clues : nat;
  s_revelations : nat;
  recentScene : option element;
  pendingNarrative : list element
}.

(** [mission.parameters] *)
Record parameters : Type := mkParameters {
  priority : string;
  timeframe : string;
  rules_of_engagement : string;
  authorized_force : string;
  collateral_sensitivity : string
}.

(** [mission.intelligence] *)
Record intelligence : Type := mkIntelligence {
  enemyForces : value;
  supportingAssets : value;
  localIntelligence : value
}.

(** A value of the [missions] map. *)
Record mission : Type := mkMission {
  m_id : string;
  title : string;
  objective : string;
  location : string;
  targets : value;
  m_parameters : parameters;
  briefingDate : string;
  m_status : string;
  assignedTeams : value;
  m_intelligence : intelligence;
  estimatedCasualties : value;
  successCriteria : value;
  failureConsequences : value
}.

(** [briefing.parameters], when the briefing has the property. *)
Record parametersInput : Type := mkParametersInput {
  p_priority : option string;
  p_timeframe : option string;
  p_rules_of_engagement : option string;
  p_authorized_force : option string;
  p_collateral_sensitivity : option string
}.

(** [briefing.intelligence], when the briefing has the property. *)
Record intelligenceInput : Type := mkIntelligenceInput {
  i_enemyForces : option value;
  i_supportingAssets : option value;
  i_localIntelligence : option value
}.

(** The argument of [generateMissionBriefing]; an absent property is
    [None]. *)
Record briefing : Type := mkBriefing {
  b_title : option string;
  b_objective : option string;
  b_location : option string;
  b_targets : option value;
  b_parameters : option parametersInput;
  b_assignedTeams : option value;
  b_intelligence : option intelligenceInput;
  b_estimatedCasualties : option value;
  b_successCriteria : option value;
  b_failureConsequences : option value
}.

(** An element of [missionLog]. *)
Record logged : Type := mkLogged {
  missionId : string;
  l_timestamp : string
}.

(** The argument of [resetCampaign]: each flag tells whether the property
    is strictly [true]. *)
Record resetConfig : Type := mkResetConfig {
  preserveAgents : bool;
  preserveTeams : bool;
  resetWorldState : bool
}.

(** The manager: the stores of [Context.state]; the keys of the [threats]
    Map in the order in which they were inserted, which is the order in
    which [forEach] walks the Map; the [missions] Map as the list of its
    entries in that order; the narrative, the world state and the mission
    log. *)
Record state : Type := mkState {
  core : Context.state;
  threatOrder : list string;
  missions : list (string * mission);
  narrative : narrativeStore;
  worldState : value;
  missionLog : list logged
}.

Definition M (A : Type) : Type := state -> outcome state A.

Definition noNarrative : narrativeStore :=
  {| scenes := []; atmosphere := []; clues := []; revelations := [] |}.

(** The manager after the constructor, called without configuration. *)
Definition initial : state :=
  {| core := Context.initial; threatOrder := []; missions := [];
     narrative := noNarrative; worldState := VObj []; missionLog := [] |}.

Definition setCore (f : Context.state -> Context.state) (st : state) : state :=
  {| core := f (core st); threatOrder := threatOrder st; missions := missions st;
     narrative := narrative st; worldState := worldState st;
     missionLog := missionLog st |}.

Definition setThreatOrder (f : list string -> list string) (st : state) : state :=
  {| core := core st; threatOrder := f (threatOrder st); missions := missions st;
     narrative := narrative st; worldState := worldState st;
     missionLog := missionLog st |}.

Definition setMissions (f : list (string * mission) -> list (string * mission))
  (st : state) : state :=
  {| core := core st; threatOrder := threatOrder st; missions := f (missions st);
     narrative := narrative st; worldState := worldState st;
     missionLog := missionLog st |}.

Definition setNarrative (f : narrativeStore -> narrativeStore) (st : state) : state :=
  {| core := core st; threatOrder := threatOrder st; missions := missions st;
     narrative := f (narrative st); worldState := worldState st;
     missionLog := missionLog st |}.

Definition setWorldState (f : value -> value) (st : state) : state :=
  {| core := core st; threatOrder := threatOrder st; missions := missions st;
     narrative := narrative st; worldState := f (worldState st);
     missionLog := missionLog st |}.

Definition setMissionLog (f : list logged -> list logged) (st : state) : state :=
  {| core := core st; threatOrder := threatOrder st; missions := missions st;
     narrative := narrative st; worldState := worldState st;
     missionLog := f (missionLog st) |}.

(** A method of the stores of [Context.state], run on the manager. *)
Definition onCore {A : Type} (m : Context.M A) : M A :=
  fun st =>
    match m (core st) with
    | Returned a c => Returned a (setCore (fun _ => c) st)
    | Raised e c => Raised e (setCore (fun _ => c) st)
    | Unmodelled => Unmodelled
    end.

(** [Map.prototype.set] seen from the order of the keys: a new key goes to
    the end, a key of the Map keeps its place. *)
Definition noteKey (k : string) (order : list string) : list string :=
  if existsb (String.eqb k) order then order else (order ++ [k])%list.

(** [Map.prototype.set] on the entries of a Map: the value of a key of the
    Map is replaced where it is, a new key goes to the end. *)
Definition mapSet {V : Type} (k : string) (v : V) (m : list (string * V))
  : list (string * V) :=
  if existsb (fun kv => String.eqb (fst kv) k) m
  then map (fun kv => if String.eqb (fst kv) k then (k, v) else kv) m
  else (m ++ [(k, v)])%list.

(** [getCurrentMission()]: the last active mission that [forEach] meets. *)
Definition getCurrentMission (st : state) : option mission :=
  last (List.filter (fun m => String.eqb (m_status m) "active") (snd <$> missions st)).

(** [narrative.X.push(element)] for the category of the element; an element
    of another type is pushed nowhere. *)
Definition file (e : element) (n : narrativeStore) : narrativeStore :=
  if String.eqb (e_type e) "scene" then
    {| scenes := (scenes n ++ [e])%list; atmosphere := atmosphere n;
       clues := clues n; revelations := revelations n |}
  else if String.eqb (e_type e) "atmosphere" then
    {| scenes := scenes n; atmosphere := (atmosphere n ++ [e])%list;
       clues := clues n; revelations := revelations n |}
  else if String.eqb (e_type e) "clue" then
    {| scenes := scenes n; atmosphere := atmosphere n;
       clues := (clues n ++ [e])%list; revelations := revelations n |}
  else if String.eqb (e_type e) "revelation" then
    {| scenes := scenes n; atmosphere := atmosphere n;
       clues := clues n; revelations := (revelations n ++ [e])%list |}
  else n.

(** [getNarrativeState()] *)
Definition getNarrativeState (st : state) : narrativeState :=
  let n := narrative st in
  {| s_scenes := length (scenes n);
     s_atmosphere := length (atmosphere n);
     s_clues := length (clues n);
     s_revelations := length (revelations n);
     recentScene := last (scenes n);
     pendingNarrative :=
       List.filter (fun e => negb (delivered e))
         (scenes n ++ atmosphere n ++ clues n ++ revelations n)%list |}.

(** [Array.from(this.threats.values())], in the order of the Map. *)
Definition threatValues (st : state) : list Context.threat :=
  omap (fun k => Context.threats (core st) !! k) (threatOrder st).

(** The test of [getActiveThreats] on one threat: [minThreatLevel] is
    [None] when the filter has no such property, and 0 is falsy. *)
Definition listed (minThreatLevel : option Z) (t : Context.threat) : bool :=
  String.eqb (Context.x_status t) "active" &&
  negb match minThreatLevel with
       | Some m => negb (m =? 0) && (Context.threatLevel t <? m)
       | None => false
       end.

(** [sort((a, b) => b.threatLevel - a.threatLevel)]: the sort is stable, so
    a threat goes before the threats of its level that come after it. *)
Fixpoint insertByLevel (t : Context.threat) (l : list Context.threat)
  : list Context.threat :=
  match l with
  | [] => [t]
  | u :: l' =>
      if Context.threatLevel u <=? Context.threatLevel t then t :: l
      else u :: insertByLevel t l'
  end.

Definition sortByLevel (l : list Context.threat) : list Context.threat :=
  foldr insertByLevel [] l.

(** [getActiveThreats(filter)] *)
Definition getActiveThreats (minThreatLevel : option Z) (st : state)
  : list Context.threat :=
  sortByLevel (List.filter (listed minThreatLevel) (threatValues st)).

(** [Math.round(total / n)] for an integer [total] and a count [n] of at
    least one: the nearest integer, a half going up. *)
Definition roundDiv (total n : Z) : Z := (2 * total + n) / (2 * n).

(** [calculateThreatLevel()] *)
Definition calculateThreatLevel (st : state) : Z :=
  let activeThreats := getActiveThreats None st in
  match activeThreats with
  | [] => 0
  | _ =>
      roundDiv (foldl (fun sum t => sum + Context.threatLevel t) 0 activeThreats)
        (Z.of_nat (length activeThreats))
  end.

(** [agent.sanity] when it is a number. *)
Definition sanityOf (a : gmap string value) : option Z :=
  match a !! "sanity" with
  | Some (VNum n) => Some n
  | _ => None
  end.

(** [calculateAverageSanity()]. The total is a sum of integers, the same in
    whatever order the agents are walked; the result is [None] when the
    [sanity] of an agent is not a number. *)
Definition calculateAverageSanity (st : state) : option Z :=
  let agents := Context.agents (core st) in
  if decide (size agents = 0%nat) then Some 0
  else
    total ← foldl (fun sum a => s ← sum; n ← sanityOf a; Some (s + n)) (Some 0)
              (snd <$> map_to_list agents);
    Some (roundDiv total (Z.of_nat (size agents))).

(** [resetCampaign(config)] *)
Definition resetCampaign (config : resetConfig) : M unit :=
  let* _ :=
    if preserveAgents config then ret tt
    else
      let* _ := modify (setCore (Context.setAgents (fun _ => ∅))) in
      modify (setCore (Context.setSanityTracker (fun _ => ∅))) in
  let* _ :=
    if preserveTeams config then ret tt
    else modify (setCore (Context.setTeams (fun _ => ∅))) in
  let* _ := modify (setMissions (fun _ => [])) in
  let* _ := modify (setCore (Context.setThreats (fun _ => ∅))) in
  let* _ := modify (setThreatOrder (fun _ => [])) in
  let* _ := modify (setNarrative (fun _ => noNarrative)) in
  let* _ := modify (setMissionLog (fun _ => [])) in
  if resetWorldState config then modify (setWorldState (fun _ => VObj []))
  else ret tt.

Section WithEnv.

Variable env : Env.

(** The n-th reading of [Date.now()]. *)
Variable nowAt : nat -> Z.

(** [Date.now()] *)
Definition dateNow : M Z :=
  fun st => Returned (nowAt (Context.ticks (core st))) (setCore Context.tick st).

(** [createThreatAssessment(threat)], with the place of the new key in the
    order of the Map. *)
Definition createThreatAssessment (input : Context.threatInput) : M Context.threat :=
  let* threatData := onCore (Context.createThreatAssessment env input) in
  let* _ := modify (setThreatOrder (noteKey (Context.x_id threatData))) in
  ret threatData.

(** [generateMissionBriefing(briefing)] *)
Definition generateMissionBriefing (b : briefing) : M mission :=
  let* st := get in
  let* now := dateNow in
  let* date := onCore (Context.isoNow env) in
  let mission :=
    {| m_id := "MISSION-" ++ pretty (length (missions st) + 1)%nat ++ "-" ++ pretty now;
       title := strOr (b_title b) "Classified Operation";
       objective := strOr (b_objective b) "Unknown";
       location := strOr (b_location b) "Classified";
       targets := valOr (b_targets b) (VArr []);
       m_parameters :=
         {| priority := strOr (b_parameters b ≫= p_priority) "high";
            timeframe := strOr (b_parameters b ≫= p_timeframe) "72 hours";
            rules_of_engagement := strOr (b_parameters b ≫= p_rules_of_engagement) "green";
            authorized_force := strOr (b_parameters b ≫= p_authorized_force) "lethal";
            collateral_sensitivity :=
              strOr (b_parameters b ≫= p_collateral_sensitivity) "high" |};
       briefingDate := date;
       m_status := "active";
       assignedTeams := valOr (b_assignedTeams b) (VArr []);
       m_intelligence :=
         {| enemyForces := valOr (b_intelligence b ≫= i_enemyForces) (VArr []);
            supportingAssets := valOr (b_intelligence b ≫= i_supportingAssets) (VArr []);
            localIntelligence :=
              valOr (b_intelligence b ≫= i_localIntelligence) (VArr []) |};
       estimatedCasualties := valOr (b_estimatedCasualties b) (VStr "unknown");
       successCriteria := valOr (b_successCriteria b) (VArr []);
       failureConsequences := valOr (b_failureConsequences b) (VArr []) |} in
  let* _ := modify (setMissions (mapSet (m_id mission) mission)) in
  let* logDate := onCore (Context.isoNow env) in
  let* _ := modify (setMissionLog
              (fun l => (l ++ [{| missionId := m_id mission; l_timestamp := logDate |}])%list)) in
  ret mission.

(** [generateMissionBriefing] called on each element of a list in turn. *)
Fixpoint briefAll (bs : list briefing) : M (list mission) :=
  match bs with
  | [] => ret []
  | b :: rest =>
      let* m := generateMissionBriefing b in
      let* ms := briefAll rest in
      ret (m :: ms)
  end.

(** [injectNarrative(narrative)] *)
Definition injectNarrative (n : narrativeInput) : M element :=
  let* now := dateNow in
  let* ts := onCore (Context.isoNow env) in
  let narrativeElement :=
    {| e_id := "NARRATIVE-" ++ pretty now;
       e_type := strOr (n_type n) "scene";
       content := strOr (n_content n) "";
       triggers := valOr (n_triggers n) (VArr []);
       intensity := clamp 1 10 (numOr (n_intensity n) 5);
       e_timestamp := ts;
       delivered := false;
       affected_agents := valOr (n_affected_agents n) (VArr []);
       mood := strOr (n_mood n) "tense";
       consequences := valOr (n_consequences n) (VArr []) |} in
  let* _ := modify (setNarrative (file narrativeElement)) in
  ret narrativeElement.

(** [injectNarrative] called on each element of a list in turn. *)
Fixpoint injectAll (ns : list narrativeInput) : M (list element) :=
  match ns with
  | [] => ret []
  | n :: rest =>
      let* e := injectNarrative n in
      let* es := injectAll rest in
      ret (e :: es)
  end.

(** [createThreatAssessment] called on each element of a list in turn. *)
Fixpoint assessAll (inputs : list Context.threatInput) : M (list Context.threat) :=
  match inputs with
  | [] => ret []
  | input :: rest =>
      let* t := createThreatAssessment input in
      let* ts := assessAll rest in
      ret (t :: ts)
  end.

End WithEnv.

End Campaign.

(** ** Further notions: invariants of the context manager *)

(** Agents and trackers go by pairs: the two maps have the same identifiers,
    and the [sanity] property of an agent is the [current] of its tracker. *)
Definition paired (st : Context.state) : Prop :=
  dom (Context.agents st) = dom (Context.sanityTracker st) /\
  forall id t, Context.sanityTracker st !! id = Some t ->
    exists a, Context.agents st !! id = Some a /\
      a !! "sanity" = Some (VNum (Context.current t)).

(** The [stressLevel] of every agent is a number from 0 to 100. *)
Definition stressBounded (st : Context.state) : Prop :=
  forall id a, Context.agents st !! id = Some a ->
    exists z, a !! "stressLevel" = Some (VNum z) /\ 0 <= z <= 100.

(** The properties that the methods assign to without testing for them. *)
Definition hasCoreProperties (a : gmap string value) : Prop :=
  is_Some (a !! "sanity") /\ is_Some (a !! "status") /\
  is_Some (a !! "stressLevel") /\ is_Some (a !! "lastAction").

(** Every agent object of [st] that has the core properties is still there
    in [st'], with the same set of property names. *)
Definition sameShape (st st' : Context.state) : Prop :=
  forall id a, Context.agents st !! id = Some a -> hasCoreProperties a ->
    exists a', Context.agents st' !! id = Some a' /\ dom a' = dom a.

(** A history is an audit trail of a tracker: every entry is the clamp of
    its own previous value and delta, every entry starts where the one
    before it ended, and the last entry ends at the current value. *)
Definition audited (t : Context.tracker) : Prop :=
  (forall e, e ∈ Context.history t ->
     Context.h_current e
     = clamp 0 (Context.max t) (Context.h_previous e + Context.h_delta e)) /\
  (forall i e1 e2,
     Context.history t !! i = Some e1 -> Context.history t !! S i = Some e2 ->
     Context.h_previous e2 = Context.h_current e1) /\
  (forall e, last (Context.history t) = Some e ->
     Context.h_current e = Context.current t).

Definition allAudited (st : Context.state) : Prop :=
  forall id t, Context.sanityTracker st !! id = Some t -> audited t.

(** A method maintains [P] when every state it can leave satisfies [P] if
    the state it started from does. *)
Definition maintains {A : Type} (P : Context.state -> Prop) (m : Context.M A) : Prop :=
  forall st st', P st -> stateOf (m st) = Some st' -> P st'.

(** A method respects the relation [R] when it relates the state it starts
    from to every state it can leave. *)
Definition respects {A : Type} (R : Context.state -> Context.state -> Prop)
  (m : Context.M A) : Prop :=
  forall st st', stateOf (m st) = Some st' -> R st st'.

(** The key under which the n-th threat is stored. *)
Definition threatKey (n : nat) : string := "THREAT-" ++ pretty n.

(** The keys of the threats are those of the first threats created, without
    a gap. *)
Definition threatsNumbered (st : Context.state) : Prop :=
  forall k, is_Some (Context.threats st !! k) <->
    exists n, (1 <= n <= size (Context.threats st))%nat /\ k = threatKey n.

(** ** Further notions: the command dispatcher *)

(** The threat level is one of the three levels. *)
Definition knownLevel (st : Input.state) : Prop :=
  Input.threatLevel st = Some "NORMAL" \/
  Input.threatLevel st = Some "ELEVATED" \/
  Input.threatLevel st = Some "CRITICAL".

(** A handler never leaves the three levels. *)
Definition levelSafe (h : Input.handler) : Prop :=
  forall args st st', knownLevel st -> stateOf (h args st) = Some st' -> knownLevel st'.

(** A handler that changes neither the records nor the threat level. *)
Definition readOnly (h : Input.handler) : Prop :=
  forall args st, exists r st',
    h args st = Returned r st' /\
    Input.agentStates st' = Input.agentStates st /\
    Input.threatLevel st' = Input.threatLevel st.

(** A word: a text that is not empty and holds neither white space nor a
    double quote. *)
Definition isWord (w : string) : Prop :=
  w <> "" /\
  forallb (fun c => negb (isSpace c || isQuote c)) (list_ascii_of_string w) = true.

(** The update object without any property. *)
Definition noDynamics : Context.dynamics := Context.mkDynamics None None None None.

(** ** Further notions: the campaign stores *)

(** No element of the narrative is marked as delivered. *)
Definition undelivered (st : Campaign.state) : Prop :=
  Forall (fun e => Campaign.delivered e = false)
    (Campaign.scenes (Campaign.narrative st) ++ Campaign.atmosphere (Campaign.narrative st) ++
     Campaign.clues (Campaign.narrative st) ++ Campaign.revelations (Campaign.narrative st))%list.

(** The elements of one type. *)
Definition ofType (c : string) (es : list Campaign.element) : list Campaign.element :=
  List.filter (fun e => String.eqb (Campaign.e_type e) c) es.

(** The four types that the narrative files. *)
Definition categories : list string := ["scene"; "atmosphere"; "clue"; "revelation"].

(** The order of the keys goes with the [threats] Map: it names every key
    of the Map once, and nothing else. *)
Definition ordered (st : Campaign.state) : Prop :=
  NoDup (Campaign.threatOrder st) /\
  forall k, k ∈ Campaign.threatOrder st <->
    is_Some (Context.threats (Campaign.core st) !! k).

(** Every threat is active, at a level from 1 to 10. *)
Definition assessed (st : Campaign.state) : Prop :=
  forall k t, Context.threats (Campaign.core st) !! k = Some t ->
    Context.x_status t = "active" /\ 1 <= Context.threatLevel t <= 10.

(** The threats of a manager that has stored them by
    [createThreatAssessment] only. *)
Definition tracked (st : Campaign.state) : Prop :=
  ordered st /\ threatsNumbered (Campaign.core st) /\ assessed st.

(** Every threat is at least as high as the threats after it. *)
Fixpoint descending (l : list Context.threat) : Prop :=
  match l with
  | [] => True
  | t :: l' =>
      Forall (fun u => Context.threatLevel u <= Context.threatLevel t) l' /\ descending l'
  end.

(** The threats of one level. *)
Definition atLevel (lvl : Z) (l : list Context.threat) : list Context.threat :=
  List.filter (fun t => Context.threatLevel t =? lvl) l.

(** The sum of the levels. *)
Definition totalLevel (l : list Context.threat) : Z :=
  foldr (fun t sum => Context.threatLevel t + sum) 0 l.

(** The key of the n-th mission of a campaign, briefed at the reading [now]
    of the clock. *)
Definition missionKey (n : nat) (now : Z) : string :=
  "MISSION-" ++ pretty n ++ "-" ++ pretty now.

(** The missions are those briefed, in order: the n-th entry is an active
    mission, stored under its own identifier, a key of number n. *)
Definition briefed (st : Campaign.state) : Prop :=
  forall i k m, Campaign.missions st !! i = Some (k, m) ->
    Campaign.m_id m = k /\ Campaign.m_status m = "active" /\
    exists now, k = missionKey (S i) now.

(** A text without the dash. *)
Definition noDash (s : string) : Prop :=
  forallb (fun c => negb (Ascii.eqb c "-")) (list_ascii_of_string s) = true.

(** [{ type: c }] *)
Definition narrativeOfType (c : string) : Campaign.narrativeInput :=
  Campaign.mkNarrativeInput (Some c) None None None None None None.

(** [{}] as a briefing. *)
Definition noBriefing : Campaign.briefing :=
  Campaign.mkBriefing None None None None None None None None None None.

(** [{ id: 'B' }] *)
Definition agentB : Context.agentInput :=
  Context.mkAgentInput (Some "B") None None None None None
    None None None None None None.

(** A manager with the given agents, teams and threats and nothing else. *)
Definition campaignOf (c : Context.state) : Campaign.state :=
  Campaign.setCore (fun _ => c) Campaign.initial.

(** A manager after the assessment of a threat of the default level and of
    a threat of level 8. *)
Definition twoThreats : Campaign.state :=
  Sample.after
    (Campaign.assessAll Sample.env [Sample.threatOfLevel None; Sample.threatOfLevel (Some 8)])
    Campaign.initial.

(** ** Properties of the context manager *)

Ltac run := unfold JS.bind, JS.get, JS.modify, JS.ret, JS.throw in *; simpl in *.

Lemma clamp_bounds (lo hi x : Z) : lo <= hi -> lo <= clamp lo hi x <= hi.
Proof. unfold clamp. lia. Qed.

Lemma clamp_lower (lo hi x : Z) : lo <= clamp lo hi x.
Proof. unfold clamp. lia. Qed.

Section ThreatAssessment.

Variable env : Env.

Lemma createThreatAssessment_returns (input : Context.threatInput) (st : Context.state) :
  exists t st',
    Context.createThreatAssessment env input st = Returned t st' /\
    Context.threats st' !! Context.x_id t = Some t /\
    Context.threatLevel t = clamp 1 10 (numOr (Context.th_threat_level input) 5).
Proof.
  unfold Context.createThreatAssessment. run.
  eexists _, _. split; [reflexivity|]. simpl. split; [|reflexivity].
  apply lookup_insert_eq.
Qed.

(** C10. The level stored by [createThreatAssessment] always lies in
    [1,10]; an absent level and the level 0 both give the default 5, since
    the default is taken before the clamp; every other level [l] gives
    [clamp(l, 1, 10)], that is [max(1, min(10, l))]: 1 for a level below 1,
    the level itself from 1 to 10, and 10 for a level above 10. *)
Theorem createThreatAssessment_level (input : Context.threatInput) (st : Context.state) :
  exists t st',
    Context.createThreatAssessment env input st = Returned t st' /\
    Context.threats st' !! Context.x_id t = Some t /\
    1 <= Context.threatLevel t <= 10 /\
    (Context.th_threat_level input = None -> Context.threatLevel t = 5) /\
    (Context.th_threat_level input = Some 0 -> Context.threatLevel t = 5) /\
    (forall l, Context.th_threat_level input = Some l -> l <> 0 ->
       Context.threatLevel t = clamp 1 10 l) /\
    (forall l, Context.th_threat_level input = Some l -> l <> 0 ->
       Context.threatLevel t = Z.max 1 (Z.min 10 l) /\
       (l < 1 -> Context.threatLevel t = 1) /\
       (1 <= l <= 10 -> Context.threatLevel t = l) /\
       (10 < l -> Context.threatLevel t = 10)).
Proof.
  destruct (createThreatAssessment_returns input st) as (t & st' & Hrun & Hin & Hlvl).
  assert (Htruthy : forall l, Context.th_threat_level input = Some l -> l <> 0 ->
            Context.threatLevel t = Z.max 1 (Z.min 10 l)).
  { intros l H Hl. rewrite Hlvl, H. unfold numOr, clamp.
    destruct (Z.eqb_spec l 0); [contradiction | reflexivity]. }
  exists t, st'. split; [exact Hrun|]. split; [exact Hin|].
  split; [rewrite Hlvl; apply clamp_bounds; lia|].
  split; [intros H; rewrite Hlvl, H; reflexivity|].
  split; [intros H; rewrite Hlvl, H; reflexivity|].
  split.
  - intros l H Hl. rewrite (Htruthy l H Hl). reflexivity.
  - intros l H Hl. pose proof (Htruthy l H Hl) as Hlevel.
    split; [exact Hlevel|]. repeat split; intros; lia.
Qed.

End ThreatAssessment.

(** Threats created on an empty manager with the levels 0, -3, 7 and 15 are
    stored at the levels 5, 1, 7 and 10. *)
Lemma createThreatAssessment_level_witness :
  Forall2
    (fun asked stored =>
       exists t st',
         Context.createThreatAssessment Sample.env (Sample.threatOfLevel (Some asked))
           Context.initial = Returned t st' /\
         Context.threatLevel t = stored)
    [0; -3; 7; 15] [5; 1; 7; 10].
Proof.
  assert (Hlevel : forall asked stored,
            (asked = 0 -> stored = 5) ->
            (asked <> 0 -> Z.max 1 (Z.min 10 asked) = stored) ->
            exists t st',
              Context.createThreatAssessment Sample.env (Sample.threatOfLevel (Some asked))
                Context.initial = Returned t st' /\
              Context.threatLevel t = stored).
  { intros asked stored Hzero Hother.
    destruct (createThreatAssessment_level Sample.env (Sample.threatOfLevel (Some asked))
                Context.initial) as (t & st' & Hrun & _ & _ & _ & Hdefault & _ & Hclamp).
    exists t, st'. split; [exact Hrun|].
    destruct (Z.eq_dec asked 0) as [->|Hne].
    - rewrite (Hzero eq_refl). exact (Hdefault eq_refl).
    - destruct (Hclamp asked eq_refl Hne) as (-> & _). exact (Hother Hne). }
  repeat constructor; apply Hlevel; intros; first [reflexivity | lia].
Defined.

Section TeamDynamics.

(** What [manageTeamDynamics] does on a team that exists: the team object
    receives the assignments of [applyDynamics] and the report reads it. *)
Lemma manageTeamDynamics_found (st : Context.state) (teamId : string)
  (d : Context.dynamics) (t : Context.team) :
  Context.teams st !! teamId = Some t ->
  Context.manageTeamDynamics teamId d st =
    Returned
      {| Context.r_teamId := Context.t_id t;
         Context.r_morale := Context.morale (Context.applyDynamics d t);
         Context.r_cohesion := Context.cohesion (Context.applyDynamics d t);
         Context.r_casualties := Context.casualtyCount (Context.applyDynamics d t);
         Context.r_status :=
           if 50 <? Context.morale (Context.applyDynamics d t)
           then "operational" else "compromised" |}
      (Context.setTeams (insert teamId (Context.applyDynamics d t)) st).
Proof.
  intros Hteam. unfold Context.manageTeamDynamics. run. rewrite Hteam. reflexivity.
Qed.

Lemma applyDynamics_casualties (d : Context.dynamics) (t : Context.team) :
  Context.casualtyCount (Context.applyDynamics d t)
  = Context.casualtyCount t + casualtyDelta d.
Proof.
  unfold Context.applyDynamics, casualtyDelta. simpl.
  destruct (Context.d_casualty d) as [c|]; simpl; [|lia].
  destruct (Z.eqb_spec c 0); lia.
Qed.

(** C7. On a team that exists, [manageTeamDynamics] first takes the supplied
    morale and cohesion clamped to [0,100] (0 for a value below 0, the value
    itself from 0 to 100, 100 for a value above 100; the old value when none
    is supplied), adds the casualty delta, and then, when the cumulative
    casualty count is positive, subtracts [min(30, casualtyCount * 5)] from
    morale, not below 0, on every call; the reported status is operational
    exactly when the resulting morale exceeds 50 and compromised otherwise.
    Two calls that each add one casualty to a team without casualties
    subtract 5 and then 10. *)
Theorem manageTeamDynamics_penalty (st : Context.state) (teamId : string)
  (d : Context.dynamics) (t : Context.team) :
  Context.teams st !! teamId = Some t ->
  exists rep st' t',
    Context.manageTeamDynamics teamId d st = Returned rep st' /\
    Context.teams st' !! teamId = Some t' /\
    let morale1 := from_option (clamp 0 100) (Context.morale t) (Context.d_morale d) in
    let count := Context.casualtyCount t + casualtyDelta d in
    Context.cohesion t'
      = from_option (clamp 0 100) (Context.cohesion t) (Context.d_cohesion d) /\
    Context.casualtyCount t' = count /\
    (0 < count -> Context.morale t' = Z.max 0 (morale1 - Z.min 30 (count * 5))) /\
    (count <= 0 -> Context.morale t' = morale1) /\
    Context.r_morale rep = Context.morale t' /\
    Context.r_casualties rep = count /\
    (Context.r_status rep = "operational" <-> 50 < Context.morale t') /\
    (Context.r_status rep = "compromised" <-> Context.morale t' <= 50) /\
    (Context.casualtyCount t = 0 ->
     exists r1 r2 st2,
       (let* r1 := Context.manageTeamDynamics teamId (Sample.casualty 1) in
        let* r2 := Context.manageTeamDynamics teamId (Sample.casualty 1) in
        ret (r1, r2)) st = Returned (r1, r2) st2 /\
       Context.r_casualties r1 = 1 /\
       Context.r_morale r1 = Z.max 0 (Context.morale t - 5) /\
       Context.r_casualties r2 = 2 /\
       Context.r_morale r2 = Z.max 0 (Context.r_morale r1 - Z.min 30 (2 * 5)) /\
       Context.r_morale r2 = Z.max 0 (Context.r_morale r1 - 10)) /\
    (forall m, Context.d_morale d = Some m ->
       morale1 = Z.max 0 (Z.min 100 m) /\ 0 <= morale1 <= 100 /\
       (m < 0 -> morale1 = 0) /\ (0 <= m <= 100 -> morale1 = m) /\
       (100 < m -> morale1 = 100)) /\
    (Context.d_morale d = None -> morale1 = Context.morale t) /\
    (forall c, Context.d_cohesion d = Some c ->
       Context.cohesion t' = Z.max 0 (Z.min 100 c) /\ 0 <= Context.cohesion t' <= 100 /\
       (c < 0 -> Context.cohesion t' = 0) /\ (0 <= c <= 100 -> Context.cohesion t' = c) /\
       (100 < c -> Context.cohesion t' = 100)) /\
    (Context.d_cohesion d = None -> Context.cohesion t' = Context.cohesion t) /\
    Context.r_cohesion rep = Context.cohesion t'.
Proof.
  intros Hteam.
  eexists _, _, (Context.applyDynamics d t).
  split; [apply (manageTeamDynamics_found st teamId d t Hteam)|].
  split; [simpl; apply lookup_insert_eq|].
  pose proof (applyDynamics_casualties d t) as Hcount.
  assert (Hcohesion : Context.cohesion (Context.applyDynamics d t)
            = from_option (clamp 0 100) (Context.cohesion t) (Context.d_cohesion d)).
  { unfold Context.applyDynamics. simpl. destruct (Context.d_cohesion d); reflexivity. }
  cbv zeta. split; [exact Hcohesion|]. split; [exact Hcount|].
  assert (Hmorale : Context.morale (Context.applyDynamics d t) =
    if 0 <? Context.casualtyCount t + casualtyDelta d
    then Z.max 0 (from_option (clamp 0 100) (Context.morale t) (Context.d_morale d)
                  - Z.min 30 ((Context.casualtyCount t + casualtyDelta d) * 5))
    else from_option (clamp 0 100) (Context.morale t) (Context.d_morale d)).
  { rewrite <- Hcount. unfold Context.applyDynamics at 1. simpl.
    destruct (Context.d_morale d); reflexivity. }
  split; [intros Hpos; rewrite Hmorale; destruct (Z.ltb_spec 0
    (Context.casualtyCount t + casualtyDelta d)); [reflexivity | lia]|].
  split; [intros Hnone; rewrite Hmorale; destruct (Z.ltb_spec 0
    (Context.casualtyCount t + casualtyDelta d)); [lia | reflexivity]|].
  split; [reflexivity|]. split; [exact Hcount|].
  cbn [Context.r_status].
  split; [|split; [|split]].
  - destruct (Z.ltb_spec 50 (Context.morale (Context.applyDynamics d t)));
      split; intros Hx; first [reflexivity | lia | discriminate Hx].
  - destruct (Z.ltb_spec 50 (Context.morale (Context.applyDynamics d t)));
      split; intros Hx; first [reflexivity | lia | discriminate Hx].
  - intros Hzero.
    unfold JS.bind at 1.
    rewrite (manageTeamDynamics_found st teamId (Sample.casualty 1) t Hteam).
    unfold JS.bind at 1.
    rewrite (manageTeamDynamics_found _ teamId (Sample.casualty 1)
               (Context.applyDynamics (Sample.casualty 1) t))
      by (simpl; apply lookup_insert_eq).
    eexists _, _, _. split; [reflexivity|].
    unfold Context.applyDynamics. simpl. rewrite Hzero. simpl.
    repeat split; reflexivity.
  - rewrite Hcohesion.
    split; [intros m ->; unfold clamp; cbn [from_option]; repeat split; intros; lia|].
    split; [intros ->; reflexivity|].
    split; [intros c ->; unfold clamp; cbn [from_option]; repeat split; intros; lia|].
    split; [intros ->; reflexivity|]. reflexivity.
Qed.

End TeamDynamics.

(** The team of [createTeam({})], morale 75 and cohesion 80, given the morale
    250, the cohesion -5 and two casualties: morale 100 less 10, cohesion 0. *)
Lemma manageTeamDynamics_penalty_witness :
  exists rep st',
    Context.manageTeamDynamics "TEAM-1"
      (Context.mkDynamics (Some 250) (Some (-5)) (Some 2) None) Sample.oneTeam
      = Returned rep st' /\
    Context.r_morale rep = 90 /\ Context.r_cohesion rep = 0 /\
    Context.r_casualties rep = 2 /\ Context.r_status rep = "operational".
Proof.
  destruct (manageTeamDynamics_penalty Sample.oneTeam "TEAM-1"
              (Context.mkDynamics (Some 250) (Some (-5)) (Some 2) None)
              (Context.mkTeam "TEAM-1" "Unnamed Team" [] "" 75 80 0 []
                 (isoAt Sample.env 0) "active" "adaptive") eq_refl)
    as (rep & st' & t' & Hrun & _ & _ & _ & Hpen & _ & Hrep & Hcas & Hop & _ & _ &
        Hsupplied & _ & Hcoh & _ & Hrcoh).
  exists rep, st'. split; [exact Hrun|].
  destruct (Hsupplied 250 eq_refl) as (_ & _ & _ & _ & Hhigh).
  destruct (Hcoh (-5) eq_refl) as (_ & _ & Hlow & _).
  assert (Hm : Context.r_morale rep = 90).
  { rewrite Hrep, Hpen by (vm_compute; reflexivity).
    rewrite Hhigh by lia. reflexivity. }
  split; [exact Hm|].
  split; [rewrite Hrcoh; apply Hlow; lia|].
  split; [rewrite Hcas; reflexivity|].
  apply Hop. rewrite <- Hrep, Hm. reflexivity.
Defined.

Section Sanity.

Variable env : Env.

(** C1, as amended. On a registered agent, [modifySanity(agentId, delta)]
    sets the tracker's current to [clamp(current + delta, 0, max)] and
    appends exactly one history entry, whatever [delta] is; when the new
    current is 0 it appends exactly one [complete_break] breakpoint and sets
    the agent's status to [incapacitated]; otherwise, when the new current
    is below a quarter of max, it appends exactly one [critical] breakpoint
    and leaves the status unchanged. The new current is never negative, and
    it is at most max whenever max is not negative. *)
Theorem modifySanity_clamps (st : Context.state) (agentId : string) (delta : Z)
  (t : Context.tracker) (a : gmap string value) :
  Context.sanityTracker st !! agentId = Some t ->
  Context.agents st !! agentId = Some a ->
  exists t' st' a' e,
    Context.modifySanity env agentId delta st = Returned t' st' /\
    Context.sanityTracker st' !! agentId = Some t' /\
    Context.agents st' !! agentId = Some a' /\
    Context.current t' = clamp 0 (Context.max t) (Context.current t + delta) /\
    Context.max t' = Context.max t /\
    Context.history t' = (Context.history t ++ [e])%list /\
    Context.h_delta e = delta /\
    Context.h_previous e = Context.current t /\
    Context.h_current e = Context.current t' /\
    a' !! "sanity" = Some (VNum (Context.current t')) /\
    (Context.current t' = 0 ->
       (exists b, Context.breakpoints t' = (Context.breakpoints t ++ [b])%list /\
                  Context.b_type b = "complete_break") /\
       a' !! "status" = Some (VStr "incapacitated")) /\
    (Context.current t' <> 0 -> 4 * Context.current t' < Context.max t ->
       (exists b, Context.breakpoints t' = (Context.breakpoints t ++ [b])%list /\
                  Context.b_type b = "critical") /\
       a' !! "status" = a !! "status") /\
    (Context.current t' <> 0 -> Context.max t <= 4 * Context.current t' ->
       Context.breakpoints t' = Context.breakpoints t /\
       a' !! "status" = a !! "status") /\
    0 <= Context.current t' /\
    (0 <= Context.max t -> Context.current t' <= Context.max t).
Proof.
  intros Ht Ha. unfold Context.modifySanity. unfold JS.bind at 1. unfold JS.get at 1.
  rewrite Ht, Ha.
  unfold Context.assignAgent, Context.isoNow. run.
  set (c := clamp 0 (Context.max t) (Context.current t + delta)).
  assert (Hc0 : 0 <= c) by apply clamp_lower.
  assert (Hc1 : 0 <= Context.max t -> c <= Context.max t)
    by (intros Hmax; apply clamp_bounds; exact Hmax).
  destruct (Z.eqb_spec c 0) as [Hzero|Hnz];
    [|unfold Context.belowQuarter; destruct (Z.ltb_spec (4 * c) (Context.max t)) as [Hlow|Hhigh]];
    simpl; rewrite !lookup_alter_eq, Ht; simpl.
  all: eexists _, _, _, _; split; [reflexivity|]; simpl.
  all: split; [rewrite !lookup_alter_eq, Ht; reflexivity|].
  all: split; [rewrite !lookup_alter_eq, Ha; reflexivity|].
  all: repeat (split; [first [reflexivity | apply lookup_insert_eq]|]).
  - split; [intros _; split; [eexists; split; reflexivity|]|].
    { rewrite lookup_insert_ne by discriminate. apply lookup_insert_eq. }
    split; [intros Hx; contradiction|]. split; [intros Hx; contradiction|].
    split; assumption.
  - split; [intros Hx; contradiction|].
    split; [intros _ _; split; [eexists; split; reflexivity|]|].
    { rewrite lookup_insert_ne by discriminate. reflexivity. }
    split; [intros _ Hx; lia|]. split; assumption.
  - split; [intros Hx; contradiction|].
    split; [intros _ Hx; lia|].
    split; [intros _ _; split; [reflexivity|]|].
    { rewrite lookup_insert_ne by discriminate. reflexivity. }
    split; assumption.
Qed.

End Sanity.

(** Agent A, at sanity 70 of 70, loses 75 points: current 0 and status
    incapacitated. *)
Lemma modifySanity_clamps_witness :
  exists t' st',
    Context.modifySanity Sample.env "A" (-75) Sample.oneAgent = Returned t' st' /\
    Context.current t' = 0 /\
    Context.agents st' !! "A" ≫= (.!! "status") = Some (VStr "incapacitated").
Proof.
  destruct (modifySanity_clamps Sample.env Sample.oneAgent "A" (-75)
              agentATracker agentAObject)
    as (t' & st' & a' & e & Hrun & _ & Ha' & Hcur & _ & _ & _ & _ & _ & _ & Hbreak & _).
  - vm_compute. reflexivity.
  - vm_compute. reflexivity.
  - exists t', st'. split; [exact Hrun|]. split; [exact Hcur|].
    rewrite Ha'. simpl. apply Hbreak. exact Hcur.
Defined.

(** C1 as stated fails when max is negative: an agent registered with
    [maxSanity: -5] is left by [modifySanity] with current 0, above max. *)
Lemma modifySanity_above_negative_max :
  exists t st',
    Context.modifySanity Sample.env "A" 0 Sample.negativeMax = Returned t st' /\
    Context.current t = 0 /\ Context.max t = -5 /\
    ~ (0 <= Context.current t <= Context.max t).
Proof.
  eexists _, _. split; [vm_compute; reflexivity|].
  simpl. repeat split. lia.
Qed.

Section Casualties.

Lemma manageAll_monotone (teamId : string) (ds : list Context.dynamics) :
  forall (st : Context.state) (t : Context.team),
    Context.teams st !! teamId = Some t ->
    Forall (fun d => 0 <= casualtyDelta d) ds ->
    exists reps st' t',
      manageAll teamId ds st = Returned reps st' /\
      Context.teams st' !! teamId = Some t' /\
      length reps = length ds /\
      Context.casualtyCount t <= Context.casualtyCount t' /\
      nondecreasingFrom (Context.casualtyCount t) (map Context.r_casualties reps) /\
      (0 <= Context.casualtyCount t ->
         Forall (fun c => 0 <= c) (map Context.r_casualties reps)).
Proof.
  induction ds as [|d ds IH]; intros st t Hteam Hall.
  - exists [], st, t. simpl. repeat split; [assumption | lia | constructor].
  - inversion Hall as [|? ? Hd Hds]; subst.
    simpl. unfold JS.bind at 1.
    rewrite (manageTeamDynamics_found st teamId d t Hteam).
    pose proof (applyDynamics_casualties d t) as Hcount.
    destruct (IH (Context.setTeams (insert teamId (Context.applyDynamics d t)) st)
                 (Context.applyDynamics d t))
      as (reps & st' & t' & Hrun & Hteam' & Hlen & Hle & Hsorted & Hpos);
      [simpl; apply lookup_insert_eq | assumption |].
    unfold JS.bind at 1. rewrite Hrun. unfold JS.ret.
    eexists _, st', t'. split; [reflexivity|]. split; [assumption|].
    cbn [map length nondecreasingFrom Context.r_casualties].
    split; [congruence|]. split; [lia|].
    split; [split; [lia | assumption]|].
    intros H0. constructor; [lia|]. apply Hpos. lia.
Qed.

(** C8, as amended. As long as every casualty delta supplied is absent or
    not negative, a sequence of [manageTeamDynamics] calls on a team never
    lowers its casualtyCount: the count after each call is at least the
    count before it, and it stays non-negative when it starts so, as it
    does after [createTeam]. *)
Theorem casualtyCount_monotone (teamId : string) (ds : list Context.dynamics)
  (st : Context.state) (t : Context.team) :
  Context.teams st !! teamId = Some t ->
  0 <= Context.casualtyCount t ->
  Forall (fun d => 0 <= casualtyDelta d) ds ->
  exists reps st' t',
    manageAll teamId ds st = Returned reps st' /\
    Context.teams st' !! teamId = Some t' /\
    length reps = length ds /\
    nondecreasingFrom (Context.casualtyCount t) (map Context.r_casualties reps) /\
    Forall (fun c => 0 <= c) (map Context.r_casualties reps) /\
    Context.casualtyCount t <= Context.casualtyCount t' /\
    0 <= Context.casualtyCount t'.
Proof.
  intros Hteam Hpos Hall.
  destruct (manageAll_monotone teamId ds st t Hteam Hall)
    as (reps & st' & t' & Hrun & Hteam' & Hlen & Hle & Hsorted & Hnn).
  exists reps, st', t'. repeat split; try assumption; [apply Hnn; assumption | lia].
Qed.

End Casualties.

(** Three calls adding 1, 0 and 2 casualties to a fresh team. *)
Lemma casualtyCount_monotone_witness :
  exists reps st',
    manageAll "TEAM-1" [Sample.casualty 1; Sample.casualty 0; Sample.casualty 2]
      Sample.oneTeam = Returned reps st' /\
    nondecreasingFrom 0 (map Context.r_casualties reps).
Proof.
  destruct (casualtyCount_monotone "TEAM-1"
              [Sample.casualty 1; Sample.casualty 0; Sample.casualty 2]
              Sample.oneTeam
              (Context.mkTeam "TEAM-1" "Unnamed Team" [] "" 75 80 0 []
                 (isoAt Sample.env 0) "active" "adaptive"))
    as (reps & st' & t' & Hrun & _ & _ & Hsorted & _).
  - reflexivity.
  - simpl. lia.
  - repeat constructor; vm_compute; discriminate.
  - exists reps, st'. split; [exact Hrun | exact Hsorted].
Defined.

(** C8 as stated fails: a negative casualty delta is added like any other,
    so the count of a fresh team goes from 0 to -1. *)
Lemma casualtyCount_decreases :
  Context.casualtyCount <$> Context.teams Sample.oneTeam !! "TEAM-1" = Some 0 /\
  Context.casualtyCount <$>
    Context.teams
      (Sample.after (Context.manageTeamDynamics "TEAM-1" (Sample.casualty (-1)))
         Sample.oneTeam) !! "TEAM-1" = Some (-1) /\
  Context.r_casualties <$>
    returned (Context.manageTeamDynamics "TEAM-1" (Sample.casualty (-1)) Sample.oneTeam)
  = Some (-1).
Proof. repeat split; vm_compute; reflexivity. Qed.

Section Trackers.

Variable env : Env.

Lemma grows_refl (m : gmap string Context.tracker) : grows m m.
Proof. intros id t Ht. exists t. repeat split; [assumption | reflexivity | reflexivity]. Qed.

Lemma grows_trans (m1 m2 m3 : gmap string Context.tracker) :
  grows m1 m2 -> grows m2 m3 -> grows m1 m3.
Proof.
  intros H12 H23 id t Ht.
  destruct (H12 id t Ht) as (t2 & Ht2 & Hh2 & Hb2).
  destruct (H23 id t2 Ht2) as (t3 & Ht3 & Hh3 & Hb3).
  exists t3. repeat split; [assumption | etrans; eassumption | etrans; eassumption].
Qed.

Lemma grows_alter (f : Context.tracker -> Context.tracker) (id : string)
  (m : gmap string Context.tracker) :
  (forall t, Context.history t `prefix_of` Context.history (f t) /\
             Context.breakpoints t `prefix_of` Context.breakpoints (f t)) ->
  grows m (alter f id m).
Proof.
  intros Hf id' t Ht. rewrite lookup_alter.
  destruct (decide (id = id')) as [->|].
  - rewrite Ht. exists (f t). split; [reflexivity | apply Hf].
  - exists t. repeat split; [assumption | reflexivity | reflexivity].
Qed.

Lemma keeps_ret {A : Type} (a : A) : keeps (ret a).
Proof. intros st st' [= <-]. apply grows_refl. Qed.

Lemma keeps_get : keeps get.
Proof. intros st st' [= <-]. apply grows_refl. Qed.

Lemma keeps_throw {A : Type} (e : string) : keeps (@throw Context.state A e).
Proof. intros st st' [= <-]. apply grows_refl. Qed.

Lemma keeps_unmodelled {A : Type} : keeps (fun _ => @Unmodelled Context.state A).
Proof. intros st st' [=]. Qed.

Lemma keeps_modify (f : Context.state -> Context.state) :
  (forall st, grows (Context.sanityTracker st) (Context.sanityTracker (f st))) ->
  keeps (modify f).
Proof. intros Hf st st' [= <-]. apply Hf. Qed.

Lemma keeps_bind {A B : Type} (c : Context.M A) (k : A -> Context.M B) :
  keeps c -> (forall a, keeps (k a)) -> keeps (JS.bind c k).
Proof.
  intros Hc Hk st st'. unfold JS.bind.
  destruct (c st) as [a s1|e s1|] eqn:Hrun; intros Hend.
  - apply (grows_trans _ (Context.sanityTracker s1)).
    + apply Hc. rewrite Hrun. reflexivity.
    + apply (Hk a). exact Hend.
  - injection Hend as <-. apply Hc. rewrite Hrun. reflexivity.
  - discriminate Hend.
Qed.

Lemma keeps_isoNow : keeps (Context.isoNow env).
Proof. intros st st' [= <-]. apply grows_refl. Qed.

Lemma keeps_assignAgent (agentId key : string) (v : value) :
  keeps (Context.assignAgent agentId key v).
Proof. apply keeps_modify. intros st. apply grows_refl. Qed.

Lemma keeps_alter (f : Context.tracker -> Context.tracker) (id : string) :
  (forall t, Context.history t `prefix_of` Context.history (f t) /\
             Context.breakpoints t `prefix_of` Context.breakpoints (f t)) ->
  keeps (modify (Context.setSanityTracker (alter f id))).
Proof. intros Hf. apply keeps_modify. intros st. apply grows_alter, Hf. Qed.

Lemma keeps_pushHistory (e : Context.historyEntry) (id : string) :
  keeps (modify (Context.setSanityTracker (alter (Context.pushHistory e) id))).
Proof.
  apply keeps_alter. intros t. simpl. split; [apply prefix_app_r|]; reflexivity.
Qed.

Lemma keeps_pushBreakpoint (b : Context.breakpoint) (id : string) :
  keeps (modify (Context.setSanityTracker (alter (Context.pushBreakpoint b) id))).
Proof.
  apply keeps_alter. intros t. simpl. split; [|apply prefix_app_r]; reflexivity.
Qed.

Lemma keeps_setCurrent (c : Z) (id : string) :
  keeps (modify (Context.setSanityTracker (alter (Context.setCurrent c) id))).
Proof. apply keeps_alter. intros t. simpl. split; reflexivity. Qed.

Lemma keeps_modifySanity (agentId : string) (delta : Z) :
  keeps (Context.modifySanity env agentId delta).
Proof.
  unfold Context.modifySanity.
  apply keeps_bind; [apply keeps_get | intros st].
  destruct (Context.sanityTracker st !! agentId) as [t|]; [|apply keeps_throw].
  destruct (Context.agents st !! agentId) as [a|]; [|apply keeps_throw].
  apply keeps_bind; [apply keeps_setCurrent | intros _].
  apply keeps_bind; [apply keeps_isoNow | intros ts].
  apply keeps_bind; [apply keeps_pushHistory | intros _].
  apply keeps_bind.
  - destruct (_ =? 0).
    + apply keeps_bind; [apply keeps_isoNow | intros ts'].
      apply keeps_bind; [apply keeps_pushBreakpoint | intros _].
      apply keeps_assignAgent.
    + destruct (Context.belowQuarter _ _); [|apply keeps_ret].
      apply keeps_bind; [apply keeps_isoNow | intros ts'].
      apply keeps_pushBreakpoint.
  - intros _. apply keeps_bind; [apply keeps_assignAgent | intros _].
    apply keeps_bind; [apply keeps_get | intros st'].
    destruct (Context.sanityTracker st' !! agentId); apply keeps_ret.
Qed.

Lemma keeps_applyUpdate (agentId : string) (kv : string * value) :
  keeps (Context.applyUpdate env agentId kv).
Proof.
  destruct kv as [key v]. unfold Context.applyUpdate.
  destruct (String.eqb key "sanity").
  { destruct v; try apply keeps_unmodelled.
    apply keeps_bind; [apply keeps_modifySanity | intros _; apply keeps_ret]. }
  destruct (String.eqb key "status"); [apply keeps_assignAgent|].
  destruct (String.eqb key "stressLevel").
  { destruct v; try apply keeps_unmodelled. apply keeps_assignAgent. }
  apply keeps_bind; [apply keeps_get | intros st].
  destruct (Context.agents st !! agentId) as [agent|]; [|apply keeps_ret].
  destruct (agent !! key); [apply keeps_assignAgent | apply keeps_ret].
Qed.

Lemma keeps_forEach {A : Type} (f : A -> Context.M unit) (l : list A) :
  (forall x, keeps (f x)) -> keeps (Context.forEach f l).
Proof.
  intros Hf. induction l as [|x l IH]; simpl.
  - apply keeps_ret.
  - apply keeps_bind; [apply Hf | intros _; exact IH].
Qed.

Lemma keeps_updateAgentStatus (agentId : string) (statusUpdate : list (string * value)) :
  keeps (Context.updateAgentStatus env agentId statusUpdate).
Proof.
  unfold Context.updateAgentStatus.
  apply keeps_bind; [apply keeps_get | intros st].
  destruct (Context.agents st !! agentId) as [agent0|]; [|apply keeps_throw].
  apply keeps_bind; [apply keeps_forEach, keeps_applyUpdate | intros _].
  apply keeps_bind; [apply keeps_isoNow | intros ts].
  apply keeps_bind; [apply keeps_assignAgent | intros _].
  apply keeps_bind; [apply keeps_get | intros st'].
  destruct (Context.agents st' !! agentId); apply keeps_ret.
Qed.

(** The identifier under which [registerAgent] stores its argument. *)
Lemma registerAgent_stores (input : Context.agentInput) (st : Context.state) :
  exists a st',
    Context.registerAgent env input st = Returned a st' /\
    let id := strOr (Context.in_id input)
                ("AGENT-" ++ pretty (size (Context.agents st) + 1)%nat) in
    a !! "id" = Some (VStr id) /\
    Context.agents st' = <[id := a]> (Context.agents st) /\
    Context.sanityTracker st' =
      <[id := {| Context.current := numOr (Context.in_sanity input) 60;
                 Context.max := numOr (Context.in_maxSanity input) 60;
                 Context.history := []; Context.breakpoints := [] |}]>
        (Context.sanityTracker st).
Proof.
  unfold Context.registerAgent, Context.generateCallsign, Context.isoNow.
  destruct (Context.in_callsign input) as [c|]; [destruct (String.eqb c "")|];
    run; (eexists _, _; split; [reflexivity|]); simpl; repeat split; reflexivity.
Qed.

Lemma createTeam_trackers (input : Context.teamInput) (st st' : Context.state) :
  stateOf (Context.createTeam env input st) = Some st' ->
  Context.sanityTracker st' = Context.sanityTracker st.
Proof. unfold Context.createTeam, Context.isoNow. run. intros [= <-]. reflexivity. Qed.

Lemma manageTeamDynamics_trackers (teamId : string) (d : Context.dynamics)
  (st st' : Context.state) :
  stateOf (Context.manageTeamDynamics teamId d st) = Some st' ->
  Context.sanityTracker st' = Context.sanityTracker st.
Proof.
  unfold Context.manageTeamDynamics. run.
  destruct (Context.teams st !! teamId); intros [= <-]; reflexivity.
Qed.

Lemma createThreatAssessment_trackers (input : Context.threatInput)
  (st st' : Context.state) :
  stateOf (Context.createThreatAssessment env input st) = Some st' ->
  Context.sanityTracker st' = Context.sanityTracker st.
Proof.
  unfold Context.createThreatAssessment, Context.isoNow. run. intros [= <-]. reflexivity.
Qed.

Lemma injectNarrative_trackers (nowAt : nat -> Z) (n : Campaign.narrativeInput)
  (c c' : Campaign.state) :
  stateOf (Campaign.injectNarrative env nowAt n c) = Some c' ->
  Context.sanityTracker (Campaign.core c') = Context.sanityTracker (Campaign.core c).
Proof.
  cbv beta iota zeta delta [Campaign.injectNarrative Campaign.dateNow Campaign.onCore
                            Context.isoNow JS.bind JS.modify JS.ret].
  intros [= <-]. reflexivity.
Qed.

Lemma generateMissionBriefing_trackers (nowAt : nat -> Z) (b : Campaign.briefing)
  (c c' : Campaign.state) :
  stateOf (Campaign.generateMissionBriefing env nowAt b c) = Some c' ->
  Context.sanityTracker (Campaign.core c') = Context.sanityTracker (Campaign.core c).
Proof.
  cbv beta iota zeta delta [Campaign.generateMissionBriefing Campaign.dateNow
                            Campaign.onCore Context.isoNow JS.bind JS.get JS.modify JS.ret].
  intros [= <-]. reflexivity.
Qed.

Lemma campaign_createThreatAssessment_trackers (input : Context.threatInput)
  (c c' : Campaign.state) :
  stateOf (Campaign.createThreatAssessment env input c) = Some c' ->
  Context.sanityTracker (Campaign.core c') = Context.sanityTracker (Campaign.core c).
Proof.
  unfold Campaign.createThreatAssessment, Campaign.onCore, JS.bind, JS.modify, JS.ret.
  destruct (Context.createThreatAssessment env input (Campaign.core c))
    as [t core'| e core' |] eqn:Hcore; simpl; [| |discriminate].
  - intros [= <-]. simpl.
    apply (createThreatAssessment_trackers input (Campaign.core c) core').
    rewrite Hcore. reflexivity.
  - intros [= <-]. simpl.
    apply (createThreatAssessment_trackers input (Campaign.core c) core').
    rewrite Hcore. reflexivity.
Qed.

Lemma resetCampaign_trackers (config : Campaign.resetConfig) (c c' : Campaign.state) :
  stateOf (Campaign.resetCampaign config c) = Some c' ->
  Context.sanityTracker (Campaign.core c')
  = if Campaign.preserveAgents config then Context.sanityTracker (Campaign.core c) else ∅.
Proof.
  unfold Campaign.resetCampaign.
  destruct (Campaign.preserveAgents config), (Campaign.preserveTeams config),
    (Campaign.resetWorldState config); intros [= <-]; reflexivity.
Qed.

(** C9, as amended. [modifySanity] and [updateAgentStatus] never shrink or
    rewrite a history or a breakpoints list: whether they return or raise,
    every tracker is still there and its two lists are the old ones followed
    by the new entries. [createTeam], [manageTeamDynamics],
    [createThreatAssessment], [generateMissionBriefing] and
    [injectNarrative] leave the trackers as they are, and so does
    [resetCampaign] when it is asked to preserve the agents; otherwise
    [resetCampaign] clears the trackers. [registerAgent] leaves the trackers
    of the identifiers other than the one it registers as they are, and
    stores a tracker with an empty history and no breakpoints when that
    identifier had no tracker. *)
Theorem trackers_grow (st : Context.state) :
  (forall agentId delta st',
     stateOf (Context.modifySanity env agentId delta st) = Some st' ->
     grows (Context.sanityTracker st) (Context.sanityTracker st')) /\
  (forall agentId statusUpdate st',
     stateOf (Context.updateAgentStatus env agentId statusUpdate st) = Some st' ->
     grows (Context.sanityTracker st) (Context.sanityTracker st')) /\
  (forall input, exists a st' id,
     Context.registerAgent env input st = Returned a st' /\
     a !! "id" = Some (VStr id) /\
     (forall id', id' <> id ->
        Context.sanityTracker st' !! id' = Context.sanityTracker st !! id') /\
     (Context.sanityTracker st !! id = None ->
        grows (Context.sanityTracker st) (Context.sanityTracker st') /\
        exists t0, Context.sanityTracker st' !! id = Some t0 /\
          Context.history t0 = [] /\ Context.breakpoints t0 = [])) /\
  (forall input st',
     stateOf (Context.createTeam env input st) = Some st' ->
     Context.sanityTracker st' = Context.sanityTracker st) /\
  (forall teamId d st',
     stateOf (Context.manageTeamDynamics teamId d st) = Some st' ->
     Context.sanityTracker st' = Context.sanityTracker st) /\
  (forall input st',
     stateOf (Context.createThreatAssessment env input st) = Some st' ->
     Context.sanityTracker st' = Context.sanityTracker st) /\
  (forall (c c' : Campaign.state), Campaign.core c = st ->
     (forall input,
        stateOf (Campaign.createThreatAssessment env input c) = Some c' ->
        Context.sanityTracker (Campaign.core c') = Context.sanityTracker st) /\
     (forall nowAt b,
        stateOf (Campaign.generateMissionBriefing env nowAt b c) = Some c' ->
        Context.sanityTracker (Campaign.core c') = Context.sanityTracker st) /\
     (forall nowAt n,
        stateOf (Campaign.injectNarrative env nowAt n c) = Some c' ->
        Context.sanityTracker (Campaign.core c') = Context.sanityTracker st) /\
     (forall config,
        stateOf (Campaign.resetCampaign config c) = Some c' ->
        (Campaign.preserveAgents config = true ->
           Context.sanityTracker (Campaign.core c') = Context.sanityTracker st) /\
        (Campaign.preserveAgents config = false ->
           Context.sanityTracker (Campaign.core c') = ∅))).
Proof.
  split; [intros agentId delta st'; apply keeps_modifySanity|].
  split; [intros agentId statusUpdate st'; apply keeps_updateAgentStatus|].
  split; [|split; [intros input st'; apply createTeam_trackers|
           split; [intros teamId d st'; apply manageTeamDynamics_trackers|
           split; [intros input st'; apply createThreatAssessment_trackers|]]]].
  - intros input.
    destruct (registerAgent_stores input st) as (a & st' & Hrun & Hid & _ & Htr).
    cbv zeta in Hid, Htr.
    eexists a, st', _. split; [exact Hrun|]. split; [exact Hid|].
    rewrite Htr. split.
    + intros id' Hne. apply lookup_insert_ne. congruence.
    + intros Hfresh. split.
      * intros id' t Ht. exists t.
        rewrite lookup_insert_ne by congruence.
        repeat split; [assumption | reflexivity | reflexivity].
      * eexists. split; [apply lookup_insert_eq|]. split; reflexivity.
  - intros c c' <-.
    split; [intros input; apply campaign_createThreatAssessment_trackers|].
    split; [intros nowAt b; apply generateMissionBriefing_trackers|].
    split; [intros nowAt n; apply injectNarrative_trackers|].
    intros config Hreset. rewrite (resetCampaign_trackers config c c' Hreset).
    split; intros ->; reflexivity.
Qed.

End Trackers.

(** Agent A keeps its history through a loss of 75 points, a change of
    status, the registration of an agent B, a mission briefing and a reset
    that preserves the agents. *)
Lemma trackers_grow_witness :
  grows (Context.sanityTracker Sample.oneAgent)
        (Context.sanityTracker Sample.brokenAgent) /\
  grows (Context.sanityTracker Sample.brokenAgent)
        (Context.sanityTracker
           (Sample.after
              (Context.updateAgentStatus Sample.env "A" [("status", VStr "recovering")])
              Sample.brokenAgent)) /\
  Context.sanityTracker
    (Sample.after (Context.registerAgent Sample.env agentB) Sample.brokenAgent) !! "A"
  = Context.sanityTracker Sample.brokenAgent !! "A" /\
  Context.sanityTracker
    (Campaign.core
       (Sample.after (Campaign.generateMissionBriefing Sample.env Z.of_nat noBriefing)
          (campaignOf Sample.brokenAgent)))
  = Context.sanityTracker Sample.brokenAgent /\
  Context.sanityTracker
    (Campaign.core
       (Sample.after (Campaign.resetCampaign (Campaign.mkResetConfig true false false))
          (campaignOf Sample.brokenAgent)))
  = Context.sanityTracker Sample.brokenAgent.
Proof.
  destruct (trackers_grow Sample.env Sample.oneAgent) as (Hmodify & _).
  destruct (trackers_grow Sample.env Sample.brokenAgent)
    as (_ & Hupdate & Hregister & _ & _ & _ & Hcampaign).
  split; [apply (Hmodify "A" (-75)); vm_compute; reflexivity|].
  split; [apply (Hupdate "A" [("status", VStr "recovering")]); vm_compute; reflexivity|].
  split.
  { destruct (Hregister agentB) as (a & st' & id & Hrun & Hid & Hothers & _).
    unfold Sample.after. rewrite Hrun. apply Hothers.
    intros <-.
    destruct (registerAgent_stores Sample.env agentB Sample.brokenAgent)
      as (a2 & st2 & Hrun2 & Hid2 & _).
    rewrite Hrun in Hrun2. injection Hrun2 as <- <-. cbv zeta in Hid2.
    change (strOr (Context.in_id agentB) _) with "B" in Hid2.
    rewrite Hid in Hid2. discriminate Hid2. }
  split.
  - destruct (Hcampaign (campaignOf Sample.brokenAgent)
                (Sample.after
                   (Campaign.generateMissionBriefing Sample.env Z.of_nat noBriefing)
                   (campaignOf Sample.brokenAgent)) eq_refl) as (_ & Hbriefing & _).
    apply (Hbriefing Z.of_nat noBriefing). reflexivity.
  - destruct (Hcampaign (campaignOf Sample.brokenAgent)
                (Sample.after
                   (Campaign.resetCampaign (Campaign.mkResetConfig true false false))
                   (campaignOf Sample.brokenAgent)) eq_refl) as (_ & _ & _ & Hreset).
    apply (Hreset (Campaign.mkResetConfig true false false)); reflexivity.
Defined.

(** C9 as stated fails. Registering again an identifier that is already
    registered replaces its tracker, so the one history entry and the one
    breakpoint of agent A are gone; and a reset that does not preserve the
    agents leaves no tracker at all. *)
Lemma registerAgent_resets_tracker :
  (length <$> (Context.history <$> Context.sanityTracker Sample.brokenAgent !! "A")
   = Some 1%nat) /\
  (length <$> (Context.breakpoints <$> Context.sanityTracker Sample.brokenAgent !! "A")
   = Some 1%nat) /\
  (Context.sanityTracker
     (Sample.after (Context.registerAgent Sample.env Sample.agentA) Sample.brokenAgent)
     !! "A"
   = Some {| Context.current := 70; Context.max := 70;
             Context.history := []; Context.breakpoints := [] |}) /\
  (Context.sanityTracker
     (Campaign.core
        (Sample.after (Campaign.resetCampaign (Campaign.mkResetConfig false false false))
           (campaignOf Sample.brokenAgent)))
     !! "A"
   = None).
Proof. repeat split; vm_compute; reflexivity. Qed.

(** ** Properties of the command dispatcher *)

Section Escalation.

Variable env : Env.

(** One escalation, read from the [escalation] table. *)
Lemma escalateThreatLevel_step (st : Input.state) (l next : string) :
  Input.escalation !! l = Some next ->
  Input.escalateThreatLevel (Input.setThreatLevel (Some l) st)
  = Returned (Some next) (Input.setThreatLevel (Some next) st).
Proof.
  intros Hnext. unfold Input.escalateThreatLevel. simpl. rewrite Hnext. reflexivity.
Qed.

(** C2. [escalateThreatLevel] moves the threat level exactly one step up,
    NORMAL to ELEVATED and ELEVATED to CRITICAL, and leaves CRITICAL where
    it is; three escalations from NORMAL end at CRITICAL, as one escalation
    from CRITICAL does, and the ESCALATE handler reports and stores the
    level so reached. *)
Theorem escalateThreatLevel_one_step (st : Input.state) :
  let from l := Input.setThreatLevel (Some l) st in
  Input.escalateThreatLevel (from "NORMAL")
    = Returned (Some "ELEVATED") (from "ELEVATED") /\
  Input.escalateThreatLevel (from "ELEVATED")
    = Returned (Some "CRITICAL") (from "CRITICAL") /\
  Input.escalateThreatLevel (from "CRITICAL")
    = Returned (Some "CRITICAL") (from "CRITICAL") /\
  (let* _ := Input.escalateThreatLevel in
   let* _ := Input.escalateThreatLevel in
   Input.escalateThreatLevel) (from "NORMAL")
    = Input.escalateThreatLevel (from "CRITICAL") /\
  (forall l args,
     In l ["NORMAL"; "ELEVATED"; "CRITICAL"] ->
     Input.threatLevel <$> stateOf (Input.handleEscalate env args (from l))
     = Some (Input.escalation !! l)).
Proof.
  cbv zeta.
  assert (H1 := escalateThreatLevel_step st "NORMAL" "ELEVATED" eq_refl).
  assert (H2 := escalateThreatLevel_step st "ELEVATED" "CRITICAL" eq_refl).
  assert (H3 := escalateThreatLevel_step st "CRITICAL" "CRITICAL" eq_refl).
  split; [exact H1|]. split; [exact H2|]. split; [exact H3|]. split.
  - unfold JS.bind. rewrite H1, H2, H3. reflexivity.
  - intros l args Hl. unfold Input.handleEscalate, Input.formatResponse, Input.isoNow.
    unfold JS.bind at 1, JS.get at 1. unfold JS.bind at 1.
    simpl in Hl. destruct Hl as [<-|[<-|[<-|[]]]].
    + rewrite H1. reflexivity.
    + rewrite H2. reflexivity.
    + rewrite H3. reflexivity.
Qed.

End Escalation.

(** The ESCALATE handler on an ELEVATED processor leaves it CRITICAL. *)
Lemma escalateThreatLevel_one_step_witness :
  Input.threatLevel <$>
    stateOf (Input.handleEscalate Sample.env []
               (Input.setThreatLevel (Some "ELEVATED") Input.initial))
  = Some (Some "CRITICAL").
Proof.
  destruct (escalateThreatLevel_one_step Sample.env Input.initial)
    as (_ & _ & _ & _ & Hhandler).
  rewrite (Hhandler "ELEVATED" []) by (simpl; tauto).
  reflexivity.
Defined.

Section Dispatch.

Variable env : Env.

Ltac registry_lookup :=
  unfold Input.initializeCommands, Input.registerCommand;
  repeat (rewrite lookup_insert_ne by (vm_compute; discriminate));
  apply lookup_insert_eq.

Lemma registry_INVESTIGATE :
  Input.initializeCommands env !! "INVESTIGATE" = Some (Input.handleInvestigate env).
Proof. registry_lookup. Qed.

Lemma registry_ENGAGE :
  Input.initializeCommands env !! "ENGAGE" = Some (Input.handleEngage env).
Proof. registry_lookup. Qed.

Lemma registry_RETREAT :
  Input.initializeCommands env !! "RETREAT" = Some (Input.handleRetreat env).
Proof. registry_lookup. Qed.

Lemma registry_CONTAIN :
  Input.initializeCommands env !! "CONTAIN" = Some (Input.handleContain env).
Proof. registry_lookup. Qed.

Lemma registry_RESEARCH :
  Input.initializeCommands env !! "RESEARCH" = Some (Input.handleResearch env).
Proof. registry_lookup. Qed.

Lemma registry_DEBRIEF :
  Input.initializeCommands env !! "DEBRIEF" = Some (Input.handleDebrief env).
Proof. registry_lookup. Qed.

Lemma registry_ALERT :
  Input.initializeCommands env !! "ALERT" = Some (Input.handleAlert env).
Proof. registry_lookup. Qed.

Lemma registry_SANITIZE :
  Input.initializeCommands env !! "SANITIZE" = Some (Input.handleSanitize env).
Proof. registry_lookup. Qed.

Lemma registry_CONFIG :
  Input.initializeCommands env !! "CONFIG" = Some (Input.handleConfig env).
Proof. registry_lookup. Qed.

(** A trimmed input that yields a token is not empty. *)
Lemma tokens_nonempty_input (s : string) (t0 : string) (args : list string) :
  Input.tokenizeInput s = t0 :: args -> String.eqb s "" = false.
Proof. destruct s; [discriminate | reflexivity]. Qed.

(** Dispatch of an input whose first token names a registered handler. *)
Lemma processCommand_dispatch (registry : gmap string Input.handler) (input : string)
  (t0 : string) (args : list string) (h : Input.handler) (st : Input.state) :
  Input.tokenizeInput (trim input) = t0 :: args ->
  registry !! toUpperCase t0 = Some h ->
  Input.processCommand env registry input st =
    Input.tryCatch
      (let* result := h args in
       let* _ := Input.logAction env (toUpperCase t0) args result in
       ret result)
      (fun error =>
         Input.formatResponse env "ERROR" ("Command execution failed: " ++ error) VNull)
      st.
Proof.
  intros Htok Hreg. unfold Input.processCommand.
  rewrite (tokens_nonempty_input _ _ _ Htok), Htok. cbv beta iota zeta.
  unfold Input.handler, Input.M in *. rewrite Hreg. reflexivity.
Qed.

(** Dispatch of an input whose first token names no handler. *)
Lemma processCommand_unknown (registry : gmap string Input.handler) (input : string)
  (t0 : string) (args : list string) (st : Input.state) :
  Input.tokenizeInput (trim input) = t0 :: args ->
  registry !! toUpperCase t0 = None ->
  Input.processCommand env registry input st =
    Input.formatResponse env "ERROR" ("Unknown command: " ++ toUpperCase t0) VNull st.
Proof.
  intros Htok Hreg. unfold Input.processCommand.
  rewrite (tokens_nonempty_input _ _ _ Htok), Htok. cbv beta iota zeta.
  unfold Input.handler, Input.M in *. rewrite Hreg. reflexivity.
Qed.

(** [logAction] appends one entry and keeps the last hundred. *)
Lemma logAction_appends (command : string) (args : list string) (r : Input.response)
  (st : Input.state) :
  exists st',
    Input.logAction env command args r st = Returned tt st' /\
    Input.agentStates st' = Input.agentStates st /\
    Input.threatLevel st' = Input.threatLevel st /\
    Input.ticks st' = S (Input.ticks st) /\
    Input.actionLog st' =
      sliceLast 100
        (Input.actionLog st ++
         [{| Input.le_timestamp := isoAt env (Input.ticks st);
             Input.le_command := command; Input.le_args := args;
             Input.le_status := Input.status r |}])%list.
Proof.
  unfold Input.logAction, Input.isoNow. run.
  match goal with |- context [(100 <? ?n)%nat] => destruct (Nat.ltb_spec 100 n) as [Hlong|Hshort] end.
  - eexists. split; [reflexivity|]. simpl. repeat split; reflexivity.
  - eexists. split; [reflexivity|]. simpl. repeat split; try reflexivity.
    unfold sliceLast.
    match goal with |- _ = drop ?k _ => replace k with 0%nat by lia end.
    reflexivity.
Qed.

Ltac handler_runs :=
  intros args st;
  unfold Input.formatResponse, Input.generateId, Input.isoNow, Input.checkThreatLevel,
    Input.escalateThreatLevel;
  repeat match goal with
         | |- context [given ?x] => destruct (given x)
         | |- context [existsb ?f ?l] => destruct (existsb f l)
         end;
  run; eexists _, _; (split; [reflexivity|]); simpl; (split; [reflexivity | auto]).

Lemma wellBehaved_handleInvestigate : wellBehaved (Input.handleInvestigate env).
Proof. unfold Input.handleInvestigate. handler_runs. Qed.

Lemma wellBehaved_handleEngage : wellBehaved (Input.handleEngage env).
Proof. unfold Input.handleEngage. handler_runs. Qed.

Lemma wellBehaved_handleRetreat : wellBehaved (Input.handleRetreat env).
Proof. unfold Input.handleRetreat. handler_runs. Qed.

Lemma wellBehaved_handleContain : wellBehaved (Input.handleContain env).
Proof. unfold Input.handleContain. handler_runs. Qed.

Lemma wellBehaved_handleResearch : wellBehaved (Input.handleResearch env).
Proof. unfold Input.handleResearch. handler_runs. Qed.

Lemma wellBehaved_handleStatus : wellBehaved (Input.handleStatus env).
Proof. unfold Input.handleStatus. handler_runs. Qed.

Lemma wellBehaved_handleDebrief : wellBehaved (Input.handleDebrief env).
Proof. unfold Input.handleDebrief. handler_runs. Qed.

Lemma wellBehaved_handleReport : wellBehaved (Input.handleReport env).
Proof. unfold Input.handleReport. handler_runs. Qed.

Lemma wellBehaved_handleAlert : wellBehaved (Input.handleAlert env).
Proof. unfold Input.handleAlert. handler_runs. Qed.

Lemma wellBehaved_handleEscalate : wellBehaved (Input.handleEscalate env).
Proof. unfold Input.handleEscalate. handler_runs. Qed.

Lemma wellBehaved_handleSanitize : wellBehaved (Input.handleSanitize env).
Proof. unfold Input.handleSanitize. handler_runs. Qed.

Lemma wellBehaved_handleHelp : wellBehaved (Input.handleHelp env).
Proof. unfold Input.handleHelp. handler_runs. Qed.

Lemma wellBehaved_handleConfig : wellBehaved (Input.handleConfig env).
Proof. unfold Input.handleConfig. handler_runs. Qed.

(** Every handler that [initializeCommands] registers is well behaved. *)
Lemma registry_wellBehaved (command : string) (h : Input.handler) :
  Input.initializeCommands env !! command = Some h -> wellBehaved h.
Proof.
  unfold Input.initializeCommands, Input.registerCommand.
  repeat (rewrite lookup_insert_Some; intros [[_ <-]|[_ Hrest]];
          [auto using wellBehaved_handleInvestigate, wellBehaved_handleEngage,
             wellBehaved_handleRetreat, wellBehaved_handleContain,
             wellBehaved_handleResearch, wellBehaved_handleStatus,
             wellBehaved_handleDebrief, wellBehaved_handleReport,
             wellBehaved_handleAlert, wellBehaved_handleEscalate,
             wellBehaved_handleSanitize, wellBehaved_handleHelp,
             wellBehaved_handleConfig
          | revert Hrest]).
  rewrite lookup_empty. discriminate.
Qed.

(** A dispatch whose handler answers with a validation error. *)
Lemma dispatch_rejected (input t0 : string) (args : list string) (h : Input.handler)
  (msg : string) (st : Input.state) :
  Input.tokenizeInput (trim input) = t0 :: args ->
  Input.initializeCommands env !! toUpperCase t0 = Some h ->
  h args st = Input.formatResponse env "ERROR" msg VNull st ->
  exists r st',
    Input.processCommand env (Input.initializeCommands env) input st = Returned r st' /\
    Input.status r = "ERROR" /\
    Input.agentStates st' = Input.agentStates st /\
    Input.threatLevel st' = Input.threatLevel st.
Proof.
  intros Htok Hreg Hh.
  rewrite (processCommand_dispatch _ input t0 args h st Htok Hreg).
  unfold Input.tryCatch. unfold JS.bind at 1. rewrite Hh.
  unfold Input.formatResponse, Input.isoNow. unfold JS.bind at 1. unfold JS.ret at 1.
  unfold JS.bind at 1.
  match goal with
  | |- context [Input.logAction env ?c ?a ?r ?s] =>
      destruct (logAction_appends c a r s) as (st' & Hlog & Hag & Hth & _); rewrite Hlog
  end.
  eexists _, st'. split; [reflexivity|]. split; [reflexivity|].
  split; [rewrite Hag | rewrite Hth]; reflexivity.
Qed.

(** C4. Dispatching a command whose handler requires arguments with fewer
    arguments than it requires returns an envelope of status ERROR and
    leaves the records of [agentStates] and the threat level as they were;
    the dispatcher holds no reference to a context manager, whose stores are
    out of its reach. *)
Theorem missing_argument_rejected (input t0 : string) (args : list string) (n : nat)
  (st : Input.state) :
  Input.tokenizeInput (trim input) = t0 :: args ->
  required (toUpperCase t0) = Some n ->
  (length args < n)%nat ->
  exists r st',
    Input.processCommand env (Input.initializeCommands env) input st = Returned r st' /\
    Input.status r = "ERROR" /\
    Input.agentStates st' = Input.agentStates st /\
    Input.threatLevel st' = Input.threatLevel st.
Proof.
  intros Htok Hreq Hlen. unfold required in Hreq.
  repeat match type of Hreq with
         | context [String.eqb ?a ?b] => destruct (String.eqb_spec a b) as [Hcmd|_]
         end;
    try discriminate Hreq; injection Hreq as <-;
    (destruct args as [|a0 [|a1 args]]; simpl in Hlen; try lia);
    eapply (dispatch_rejected input t0 _ _ _ st Htok);
    try (rewrite Hcmd;
         first [ apply registry_INVESTIGATE | apply registry_ENGAGE
               | apply registry_RETREAT | apply registry_CONTAIN
               | apply registry_RESEARCH | apply registry_DEBRIEF
               | apply registry_ALERT | apply registry_SANITIZE
               | apply registry_CONFIG ]);
    try reflexivity.
  unfold Input.handleEngage. simpl. destruct (String.eqb a0 ""); reflexivity.
Qed.

End Dispatch.

(** ENGAGE with an agent and no threat, on a fresh processor. *)
Lemma missing_argument_rejected_witness :
  exists r st',
    Input.processCommand Sample.env (Input.initializeCommands Sample.env)
      "engage A1" Input.initial = Returned r st' /\
    Input.status r = "ERROR" /\
    Input.agentStates st' = Input.agentStates Input.initial /\
    Input.threatLevel st' = Input.threatLevel Input.initial.
Proof.
  apply (missing_argument_rejected Sample.env "engage A1" "engage" ["A1"] 2 Input.initial).
  - reflexivity.
  - reflexivity.
  - simpl. lia.
Defined.

Section AuditLog.

Variable env : Env.

Lemma sliceLast_length {A : Type} (n : nat) (l : list A) :
  (length (sliceLast n l) <= n)%nat.
Proof. unfold sliceLast. rewrite length_drop. lia. Qed.

Lemma sliceLast_short {A : Type} (n : nat) (l : list A) :
  (length l <= n)%nat -> sliceLast n l = l.
Proof.
  intros Hlen. unfold sliceLast.
  replace (length l - n)%nat with 0%nat by lia. reflexivity.
Qed.

Lemma sliceLast_app {A : Type} (n : nat) (l k : list A) :
  sliceLast n (sliceLast n l ++ k) = sliceLast n (l ++ k).
Proof.
  destruct (Nat.le_gt_cases (length l) n) as [Hshort|Hlong].
  - rewrite (sliceLast_short n l Hshort). reflexivity.
  - unfold sliceLast. rewrite !length_app, length_drop.
    replace (length l - (length l - n) + length k - n)%nat with (length k) by lia.
    replace (length l + length k - n)%nat
      with ((length l - n) + length k)%nat by lia.
    rewrite <- drop_drop.
    rewrite (drop_app_le l k (length l - n)) by lia.
    reflexivity.
Qed.

(** The entry that the dispatch of [command] with [args] logs when its
    handler has returned [r], leaving the state [st1]. *)
Lemma dispatch_logged (registry : gmap string Input.handler) (input t0 : string)
  (args : list string) (h : Input.handler) (r : Input.response) (st st1 : Input.state) :
  Input.tokenizeInput (trim input) = t0 :: args ->
  registry !! toUpperCase t0 = Some h ->
  h args st = Returned r st1 ->
  exists st2,
    Input.processCommand env registry input st = Returned r st2 /\
    Input.actionLog st2 =
      sliceLast 100
        (Input.actionLog st1 ++
         [{| Input.le_timestamp := isoAt env (Input.ticks st1);
             Input.le_command := toUpperCase t0; Input.le_args := args;
             Input.le_status := Input.status r |}])%list.
Proof.
  intros Htok Hreg Hh.
  rewrite (processCommand_dispatch env _ input t0 args h st Htok Hreg).
  unfold Input.tryCatch. unfold JS.bind at 1. rewrite Hh. unfold JS.bind at 1.
  destruct (logAction_appends env (toUpperCase t0) args r st1)
    as (st2 & Hlog & _ & _ & _ & Hentries).
  rewrite Hlog. exists st2. split; [reflexivity | exact Hentries].
Qed.

(** A handler that raises is answered by an ERROR envelope, and the dispatch
    adds nothing to the log that the handler left. *)
Lemma dispatch_raised (registry : gmap string Input.handler) (input t0 : string)
  (args : list string) (h : Input.handler) (e : string) (st st1 : Input.state) :
  Input.tokenizeInput (trim input) = t0 :: args ->
  registry !! toUpperCase t0 = Some h ->
  h args st = Raised e st1 ->
  exists r st2,
    Input.processCommand env registry input st = Returned r st2 /\
    Input.status r = "ERROR" /\
    Input.message r = "Command execution failed: " ++ e /\
    Input.actionLog st2 = Input.actionLog st1.
Proof.
  intros Htok Hreg Hh.
  rewrite (processCommand_dispatch env _ input t0 args h st Htok Hreg).
  unfold Input.tryCatch. unfold JS.bind at 1. rewrite Hh.
  unfold Input.formatResponse, Input.isoNow. run.
  eexists _, _. split; [reflexivity|]. simpl. repeat split; reflexivity.
Qed.

(** With the handlers of [initializeCommands], a dispatch leaves a log of at
    most a hundred entries when it found one. *)
Lemma log_bounded (input : string) (st st' : Input.state) :
  stateOf (Input.processCommand env (Input.initializeCommands env) input st) = Some st' ->
  (length (Input.actionLog st) <= 100)%nat ->
  (length (Input.actionLog st') <= 100)%nat.
Proof.
  intros Hend Hlen. revert Hend.
  destruct (Input.tokenizeInput (trim input)) as [|t0 args] eqn:Htok.
  { unfold Input.processCommand. rewrite Htok.
    destruct (String.eqb (trim input) "").
    - unfold Input.formatResponse, Input.isoNow. run. intros [= <-]. exact Hlen.
    - unfold JS.throw. simpl. intros [= <-]. exact Hlen. }
  destruct (Input.initializeCommands env !! toUpperCase t0) as [h|] eqn:Hreg.
  - destruct (registry_wellBehaved env _ h Hreg args st) as (r & st1 & Hh & Hlog & _).
    destruct (dispatch_logged _ input t0 args h r st st1 Htok Hreg Hh)
      as (st2 & Hrun & Hentries).
    rewrite Hrun. simpl. intros [= <-]. rewrite Hentries. apply sliceLast_length.
  - rewrite (processCommand_unknown env _ input t0 args st Htok Hreg).
    unfold Input.formatResponse, Input.isoNow. run. intros [= <-]. exact Hlen.
Qed.

(** X12. With the handlers of [initializeCommands], every input that is
    blank or yields a token is answered, not by an exception, but by an
    envelope of status SUCCESS or ERROR. *)
Lemma processCommand_envelope (input : string) (st : Input.state) :
  trim input = "" \/ Input.tokenizeInput (trim input) <> [] ->
  exists r st',
    Input.processCommand env (Input.initializeCommands env) input st = Returned r st' /\
    (Input.status r = "SUCCESS" \/ Input.status r = "ERROR").
Proof.
  intros [Hblank|Htokens].
  - unfold Input.processCommand. rewrite Hblank.
    unfold Input.formatResponse, Input.isoNow. run.
    eexists _, _. split; [reflexivity | right; reflexivity].
  - destruct (Input.tokenizeInput (trim input)) as [|t0 args] eqn:Htok; [contradiction|].
    destruct (Input.initializeCommands env !! toUpperCase t0) as [h|] eqn:Hreg.
    + destruct (registry_wellBehaved env _ h Hreg args st) as (r & st1 & Hh & _ & Hstatus).
      destruct (dispatch_logged _ input t0 args h r st st1 Htok Hreg Hh) as (st2 & Hrun & _).
      exists r, st2. split; assumption.
    + rewrite (processCommand_unknown env _ input t0 args st Htok Hreg).
      unfold Input.formatResponse, Input.isoNow. run.
      eexists _, _. split; [reflexivity | right; reflexivity].
Qed.

(** A sequence of accepted commands logs one entry each, in order, and the
    log holds the last hundred of what it held and of these entries. *)
Lemma processAll_logs (inputs : list string) :
  forall st : Input.state,
    (length (Input.actionLog st) <= 100)%nat ->
    Forall (accepted (Input.initializeCommands env)) inputs ->
    exists rs st' es,
      Input.processAll env (Input.initializeCommands env) inputs st = Returned rs st' /\
      Forall3 records inputs rs es /\
      Input.actionLog st' = sliceLast 100 (Input.actionLog st ++ es)%list.
Proof.
  induction inputs as [|input inputs IH]; intros st Hlen Hall.
  - exists [], st, []. split; [reflexivity|]. split; [constructor|].
    rewrite app_nil_r. symmetry. apply sliceLast_short. exact Hlen.
  - inversion Hall as [|? ? (t0 & args & h & Htok & Hreg) Hrest]; subst.
    destruct (registry_wellBehaved env _ h Hreg args st) as (r & st1 & Hh & Hlog & _).
    destruct (dispatch_logged _ input t0 args h r st st1 Htok Hreg Hh)
      as (st2 & Hrun & Hentries).
    destruct (IH st2) as (rs & st' & es & Hruns & Hrec & Hfinal);
      [rewrite Hentries; apply sliceLast_length | exact Hrest |].
    simpl. unfold JS.bind at 1. rewrite Hrun. unfold JS.bind at 1. rewrite Hruns.
    exists (r :: rs), st',
      ({| Input.le_timestamp := isoAt env (Input.ticks st1);
          Input.le_command := toUpperCase t0; Input.le_args := args;
          Input.le_status := Input.status r |} :: es).
    split; [reflexivity|]. split.
    + constructor; [|exact Hrec]. exists t0, args. repeat split; [exact Htok | reflexivity..].
    + rewrite Hfinal, Hentries, sliceLast_app, Hlog, <- app_assoc. reflexivity.
Qed.

(** C5. A dispatch whose handler returns, with whatever status, appends
    exactly one entry with the command, its arguments and that status, and
    keeps the last hundred entries; a dispatch whose handler raises is
    answered by an ERROR envelope and appends nothing; with the registered
    handlers the log never holds more than a hundred entries after a
    dispatch; and a sequence of accepted commands leaves the last hundred of
    their entries in order, so after 105 of them on an empty log exactly
    the entries of the last hundred commands remain. *)
Theorem audit_log_ring (registry : gmap string Input.handler) :
  (forall input t0 args h r st st1,
     Input.tokenizeInput (trim input) = t0 :: args ->
     registry !! toUpperCase t0 = Some h ->
     h args st = Returned r st1 ->
     exists st2,
       Input.processCommand env registry input st = Returned r st2 /\
       Input.actionLog st2 =
         sliceLast 100
           (Input.actionLog st1 ++
            [{| Input.le_timestamp := isoAt env (Input.ticks st1);
                Input.le_command := toUpperCase t0; Input.le_args := args;
                Input.le_status := Input.status r |}])%list) /\
  (forall input t0 args h e st st1,
     Input.tokenizeInput (trim input) = t0 :: args ->
     registry !! toUpperCase t0 = Some h ->
     h args st = Raised e st1 ->
     exists r st2,
       Input.processCommand env registry input st = Returned r st2 /\
       Input.status r = "ERROR" /\
       Input.message r = "Command execution failed: " ++ e /\
       Input.actionLog st2 = Input.actionLog st1) /\
  (forall input st st',
     stateOf (Input.processCommand env (Input.initializeCommands env) input st) = Some st' ->
     (length (Input.actionLog st) <= 100)%nat ->
     (length (Input.actionLog st') <= 100)%nat) /\
  (forall inputs st,
     (length (Input.actionLog st) <= 100)%nat ->
     Forall (accepted (Input.initializeCommands env)) inputs ->
     exists rs st' es,
       Input.processAll env (Input.initializeCommands env) inputs st = Returned rs st' /\
       Forall3 records inputs rs es /\
       Input.actionLog st' = sliceLast 100 (Input.actionLog st ++ es)%list /\
       (length inputs = 105%nat -> Input.actionLog st = [] ->
          Input.actionLog st' = drop 5 es /\ length (Input.actionLog st') = 100%nat)).
Proof.
  split; [intros; eapply dispatch_logged; eassumption|].
  split; [intros; eapply dispatch_raised; eassumption|].
  split; [intros input st st'; apply log_bounded|].
  intros inputs st Hlen Hall.
  destruct (processAll_logs inputs st Hlen Hall) as (rs & st' & es & Hrun & Hrec & Hlog).
  exists rs, st', es.
  split; [exact Hrun|]. split; [exact Hrec|]. split; [exact Hlog|].
  intros Hcount Hempty.
  pose proof (Forall3_length_lr _ _ _ _ Hrec) as Hes.
  rewrite Hlog, Hempty. simpl. unfold sliceLast. split.
  - replace (length es - 100)%nat with 5%nat by lia. reflexivity.
  - rewrite length_drop. lia.
Qed.

End AuditLog.

(** The log at work on a fresh processor. ENGAGE with one argument, where
    its handler asks for two, is answered ERROR by the handler and logged
    with that status. A handler that raises is answered by an ERROR envelope
    and nothing is logged. Of five RETREAT commands followed by a hundred
    DEBRIEF commands, the log keeps a hundred entries, those of the DEBRIEF
    commands: the five oldest are gone. *)
Lemma audit_log_ring_witness :
  (exists r st2,
     Input.processCommand Sample.env (Input.initializeCommands Sample.env)
       "engage A1" Input.initial = Returned r st2 /\
     Input.status r = "ERROR" /\
     Input.actionLog st2
     = [{| Input.le_timestamp := isoAt Sample.env 1; Input.le_command := "ENGAGE";
           Input.le_args := ["A1"]; Input.le_status := "ERROR" |}]) /\
  (exists r st2,
     Input.processCommand Sample.env
       (<["BOOM" := (fun _ => JS.throw "boom") : Input.handler]> ∅)
       "boom" Input.initial = Returned r st2 /\
     Input.status r = "ERROR" /\
     Input.message r = "Command execution failed: boom" /\
     Input.actionLog st2 = []) /\
  (exists rs st',
     Input.processAll Sample.env (Input.initializeCommands Sample.env)
       (replicate 5 "retreat A1" ++ replicate 100 "debrief A1") Input.initial
     = Returned rs st' /\
     length rs = 105%nat /\
     length (Input.actionLog st') = 100%nat /\
     Forall (fun e => Input.le_command e = "DEBRIEF" /\ Input.le_args e = ["A1"])
       (Input.actionLog st')).
Proof.
  split; [|split].
  - destruct (audit_log_ring Sample.env (Input.initializeCommands Sample.env))
      as (Hlogged & _).
    edestruct (Hlogged "engage A1" "engage" ["A1"] (Input.handleEngage Sample.env)
                 _ Input.initial _ eq_refl (registry_ENGAGE Sample.env) eq_refl)
      as (st2 & Hrun & Hlog).
    eexists _, st2. split; [exact Hrun|]. split; [reflexivity|].
    rewrite Hlog. reflexivity.
  - destruct (audit_log_ring Sample.env
                (<["BOOM" := (fun _ => JS.throw "boom") : Input.handler]> ∅))
      as (_ & Hraised & _).
    edestruct (Hraised "boom" "boom" [] (fun _ => JS.throw "boom") "boom"
                 Input.initial Input.initial eq_refl)
      as (r & st2 & Hrun & Hstatus & Hmessage & Hlog);
      [apply lookup_insert_eq | reflexivity |].
    exists r, st2. repeat split; assumption.
  - destruct (audit_log_ring Sample.env (Input.initializeCommands Sample.env))
      as (_ & _ & _ & Hsequence).
    destruct (Hsequence (replicate 5 "retreat A1" ++ replicate 100 "debrief A1")%list
                Input.initial)
      as (rs & st' & es & Hrun & Hrecords & _ & Hlast).
    + simpl. lia.
    + apply Forall_app. split; apply Forall_replicate.
      * exists "retreat", ["A1"], (Input.handleRetreat Sample.env).
        split; [reflexivity | apply registry_RETREAT].
      * exists "debrief", ["A1"], (Input.handleDebrief Sample.env).
        split; [reflexivity | apply registry_DEBRIEF].
    + destruct Hlast as (Hlog & Hlength); [reflexivity | reflexivity |].
      exists rs, st'. split; [exact Hrun|].
      split; [rewrite <- (Forall3_length_lm _ _ _ _ Hrecords); reflexivity|].
      split; [exact Hlength|].
      rewrite Hlog. apply Forall_lookup. intros i e He.
      rewrite lookup_drop in He.
      destruct (Forall3_lookup_r _ _ _ _ _ _ Hrecords He)
        as (input & r & Hinput & _ & t0 & args & Htokens & Hcommand & Hargs & _).
      rewrite lookup_app_r in Hinput by (rewrite length_replicate; lia).
      apply lookup_replicate in Hinput as [-> _].
      injection Htokens as <- <-. split; assumption.
Defined.

Section Tokens.

Variable env : Env.

Lemma bareRun_length (s w r : string) :
  Input.bareRun s = (w, r) -> (String.length w + String.length r = String.length s)%nat.
Proof.
  revert w r. induction s as [|c s IH]; intros w r; simpl.
  - intros [= <- <-]. reflexivity.
  - destruct (isSpace c || isQuote c).
    + intros [= <- <-]. reflexivity.
    + destruct (Input.bareRun s) as [w' r'] eqn:Hrun. intros [= <- <-].
      simpl. rewrite <- (IH w' r' eq_refl). reflexivity.
Qed.

Lemma untilQuote_length (s w r : string) :
  Input.untilQuote s = (w, r) -> (String.length w + String.length r = String.length s)%nat.
Proof.
  revert w r. induction s as [|c s IH]; intros w r; simpl.
  - intros [= <- <-]. reflexivity.
  - destruct (isQuote c).
    + intros [= <- <-]. reflexivity.
    + destruct (Input.untilQuote s) as [w' r'] eqn:Hrun. intros [= <- <-].
      simpl. rewrite <- (IH w' r' eq_refl). reflexivity.
Qed.

(** A match takes at least one character. *)
Lemma matchHere_shorter (s : string) (m : Input.rmatch) :
  Input.matchHere s = Some m -> (String.length (Input.after m) < String.length s)%nat.
Proof.
  unfold Input.matchHere.
  destruct (Input.bareRun s) as [w r] eqn:Hbare.
  pose proof (bareRun_length s w r Hbare) as Hlen.
  destruct w as [|c w].
  - destruct s as [|q s]; [discriminate|].
    destruct (isQuote q); [|discriminate].
    destruct (Input.untilQuote s) as [body r'] eqn:Huntil.
    pose proof (untilQuote_length s body r' Huntil) as Hlen'.
    destruct r' as [|q' r'']; [discriminate|].
    intros [= <-]. simpl in *. lia.
  - intros [= <-]. simpl in *. lia.
Qed.

Lemma exec_shorter (s : string) (m : Input.rmatch) :
  Input.exec s = Some m -> (String.length (Input.after m) < String.length s)%nat.
Proof.
  induction s as [|c s IH].
  - simpl. discriminate.
  - change (Input.exec (String c s))
      with (match Input.matchHere (String c s) with
            | Some m' => Some m'
            | None => Input.exec s
            end).
    destruct (Input.matchHere (String c s)) eqn:Hhere.
    + intros [= <-]. apply (matchHere_shorter _ _ Hhere).
    + intros Hexec. specialize (IH Hexec). simpl. lia.
Qed.

(** The loop of [tokenizeInput] never runs out of fuel: any bound above the
    length of the input gives the same tokens. *)
Lemma tokenLoop_enough (f1 : nat) :
  forall (f2 : nat) (s : string),
    (String.length s < f1)%nat -> (String.length s < f2)%nat ->
    Input.tokenLoop f1 s = Input.tokenLoop f2 s.
Proof.
  induction f1 as [|f1 IH]; intros f2 s H1 H2; [lia|].
  destruct f2 as [|f2]; [lia|]. simpl.
  destruct (Input.exec s) as [m|] eqn:Hexec; [|reflexivity].
  pose proof (exec_shorter s m Hexec) as Hshort.
  f_equal. apply IH; lia.
Qed.

(** One step of the loop, free of fuel. *)
Lemma tokenizeInput_step (s : string) (m : Input.rmatch) :
  Input.exec s = Some m ->
  Input.tokenizeInput s = Input.tokenOf m :: Input.tokenizeInput (Input.after m).
Proof.
  intros Hexec. unfold Input.tokenizeInput.
  change (Input.tokenLoop (S (String.length s)) s)
    with (match Input.exec s with
          | Some m' => Input.tokenOf m' :: Input.tokenLoop (String.length s) (Input.after m')
          | None => []
          end).
  rewrite Hexec. f_equal.
  pose proof (exec_shorter s m Hexec) as Hshort.
  apply tokenLoop_enough; lia.
Qed.

Lemma untilQuote_body (body rest : string) :
  forallb (fun c => negb (isQuote c)) (list_ascii_of_string body) = true ->
  Input.untilQuote (body ++ dq ++ rest) = (body, dq ++ rest).
Proof.
  induction body as [|c body IH]; simpl.
  - reflexivity.
  - intros Hall. apply andb_prop in Hall as [Hc Hrest].
    destruct (isQuote c); [discriminate|]. rewrite (IH Hrest). reflexivity.
Qed.

(** X19. A quoted run at the start of the input is one token: its body,
    without the quotes and with the white space inside it, when the body
    is not empty. *)
Lemma quoted_run_token (body rest : string) :
  forallb (fun c => negb (isQuote c)) (list_ascii_of_string body) = true ->
  body <> "" ->
  Input.tokenizeInput (dq ++ body ++ dq ++ rest) = body :: Input.tokenizeInput rest.
Proof.
  intros Hbody Hne.
  assert (Hexec : Input.exec (dq ++ body ++ dq ++ rest) =
    Some {| Input.whole := dq ++ body ++ dq; Input.group1 := Some body;
            Input.after := rest |}).
  { change (dq ++ body ++ dq ++ rest) with (String "034" (body ++ dq ++ rest)).
    unfold Input.exec, Input.matchHere. simpl Input.bareRun. cbv iota beta.
    simpl isQuote. cbv iota. rewrite (untilQuote_body body rest Hbody). reflexivity. }
  rewrite (tokenizeInput_step _ _ Hexec). unfold Input.tokenOf. simpl.
  destruct (String.eqb_spec body ""); [contradiction | reflexivity].
Qed.

(** C3, on the code. The sample command of the specification yields its
    four tokens, the quoted run without its quotes; an empty quoted run,
    however, yields a token made of the two quote characters, because the
    empty captured group is falsy and the whole match is pushed in its
    place. *)
Theorem tokenizeInput_empty_quoted_run :
  Input.tokenizeInput ("ENGAGE A1 " ++ dq ++ "giant squid" ++ dq ++ " loud")
    = ["ENGAGE"; "A1"; "giant squid"; "loud"] /\
  Input.tokenizeInput ("REPORT " ++ dq ++ dq) = ["REPORT"; dq ++ dq] /\
  Input.tokenOf {| Input.whole := dq ++ dq; Input.group1 := Some ""; Input.after := "" |}
    = dq ++ dq.
Proof. repeat split; vm_compute; reflexivity. Qed.

(** C6, on the code. An input made of one double quote is not empty after
    trimming and yields no token, so reading the command name raises a
    TypeError before the [try] block: [processCommand] returns no envelope,
    whatever the registry and the state. *)
Theorem processCommand_raises_on_lone_quote
  (registry : gmap string Input.handler) (st : Input.state) :
  Input.tokenizeInput (trim dq) = [] /\
  Input.processCommand env registry dq st
    = Raised "Cannot read properties of undefined (reading 'toUpperCase')" st /\
  returned (Input.processCommand env registry (" " ++ dq ++ " ") st) = None.
Proof. repeat split; reflexivity. Qed.

End Tokens.

(** ** Further properties of the context manager *)

Section ContextErrors.

Variable env : Env.

(** X1. A method given an identifier it does not know raises and changes
    nothing: [modifySanity] when the tracker or the agent is missing,
    [updateAgentStatus] when the agent is missing, [manageTeamDynamics] when
    the team is missing, each with a message that names the identifier. *)
Theorem unknown_identifier_raises (st : Context.state) (id : string) :
  (forall delta,
     Context.sanityTracker st !! id = None \/ Context.agents st !! id = None ->
     Context.modifySanity env id delta st
     = Raised ("Unable to modify sanity for agent " ++ id) st) /\
  (forall statusUpdate,
     Context.agents st !! id = None ->
     Context.updateAgentStatus env id statusUpdate st
     = Raised ("Agent " ++ id ++ " not found in registry") st) /\
  (forall d,
     Context.teams st !! id = None ->
     Context.manageTeamDynamics id d st = Raised ("Team " ++ id ++ " not found") st).
Proof.
  split; [|split].
  - intros delta Hmissing. unfold Context.modifySanity. run.
    destruct Hmissing as [Hnone|Hnone]; rewrite Hnone;
      [|destruct (Context.sanityTracker st !! id)]; reflexivity.
  - intros statusUpdate Hnone. unfold Context.updateAgentStatus. run.
    rewrite Hnone. reflexivity.
  - intros d Hnone. unfold Context.manageTeamDynamics. run.
    rewrite Hnone. reflexivity.
Qed.

End ContextErrors.

(** A sanity change for an agent that was never registered. *)
Lemma unknown_identifier_raises_witness :
  Context.modifySanity Sample.env "B" 5 Sample.oneAgent
  = Raised "Unable to modify sanity for agent B" Sample.oneAgent.
Proof.
  destruct (unknown_identifier_raises Sample.env Sample.oneAgent "B") as (Hmodify & _).
  apply (Hmodify 5). left. reflexivity.
Defined.

Section AgentInvariants.

Variable env : Env.

Lemma alter_found {A : Type} (f : A -> A) (m : gmap string A) (i : string) (x : A) :
  m !! i = Some x -> alter f i m = <[i := f x]> m.
Proof.
  intros Hx. apply map_eq. intros j.
  rewrite lookup_alter, lookup_insert.
  destruct (decide (i = j)) as [->|]; [rewrite Hx|]; reflexivity.
Qed.

Lemma alter_inserted {A : Type} (f : A -> A) (m : gmap string A) (i : string) (x : A) :
  alter f i (<[i := x]> m) = <[i := f x]> m.
Proof.
  rewrite (alter_found f _ i x) by apply lookup_insert_eq.
  apply insert_insert_eq.
Qed.

(** The state that [modifySanity] leaves when it finds the agent: one
    tracker and one agent object are replaced, nothing else. *)
Lemma modifySanity_found (st : Context.state) (agentId : string) (delta : Z)
  (t : Context.tracker) (a : gmap string value) :
  Context.sanityTracker st !! agentId = Some t ->
  Context.agents st !! agentId = Some a ->
  exists t' st' e bs,
    Context.modifySanity env agentId delta st = Returned t' st' /\
    Context.sanityTracker st' = <[agentId := t']> (Context.sanityTracker st) /\
    Context.teams st' = Context.teams st /\
    Context.threats st' = Context.threats st /\
    Context.current t' = clamp 0 (Context.max t) (Context.current t + delta) /\
    Context.max t' = Context.max t /\
    Context.history t' = (Context.history t ++ [e])%list /\
    Context.h_delta e = delta /\
    Context.h_previous e = Context.current t /\
    Context.h_current e = Context.current t' /\
    Context.breakpoints t' = (Context.breakpoints t ++ bs)%list /\
    (length bs <= 1)%nat /\
    (Context.agents st' = <[agentId := <["sanity" := VNum (Context.current t')]> a]>
                            (Context.agents st) \/
     Context.agents st' =
       <[agentId := <["sanity" := VNum (Context.current t')]>
                      (<["status" := VStr "incapacitated"]> a)]> (Context.agents st)).
Proof.
  intros Ht Ha. unfold Context.modifySanity. unfold JS.bind at 1. unfold JS.get at 1.
  rewrite Ht, Ha.
  unfold Context.assignAgent, Context.isoNow. run.
  set (c := clamp 0 (Context.max t) (Context.current t + delta)).
  destruct (Z.eqb_spec c 0) as [Hzero|Hnz];
    [|destruct (Context.belowQuarter c (Context.max t))];
    simpl; rewrite !lookup_alter_eq, Ht; simpl.
  - eexists _, _, _, [_]. split; [reflexivity|]. simpl.
    rewrite (alter_found _ _ _ _ Ht), !alter_inserted.
    rewrite (alter_found _ _ _ _ Ha), !alter_inserted.
    repeat (split; [first [reflexivity | simpl; lia]|]). right. reflexivity.
  - eexists _, _, _, [_]. split; [reflexivity|]. simpl.
    rewrite (alter_found _ _ _ _ Ht), !alter_inserted.
    rewrite (alter_found _ _ _ _ Ha).
    repeat (split; [first [reflexivity | simpl; lia]|]). left. reflexivity.
  - eexists _, _, _, []. split; [reflexivity|]. simpl. rewrite app_nil_r.
    rewrite (alter_found _ _ _ _ Ht), !alter_inserted.
    rewrite (alter_found _ _ _ _ Ha).
    repeat (split; [first [reflexivity | simpl; lia]|]). left. reflexivity.
Qed.

Lemma maintains_ret {A : Type} (P : Context.state -> Prop) (a : A) : maintains P (ret a).
Proof. intros st st' HP [= <-]. exact HP. Qed.

Lemma maintains_get (P : Context.state -> Prop) : maintains P get.
Proof. intros st st' HP [= <-]. exact HP. Qed.

Lemma maintains_throw {A : Type} (P : Context.state -> Prop) (e : string) :
  maintains P (@throw Context.state A e).
Proof. intros st st' HP [= <-]. exact HP. Qed.

Lemma maintains_unmodelled {A : Type} (P : Context.state -> Prop) :
  maintains P (fun _ => @Unmodelled Context.state A).
Proof. intros st st' HP [=]. Qed.

Lemma maintains_modify (P : Context.state -> Prop) (f : Context.state -> Context.state) :
  (forall st, P st -> P (f st)) -> maintains P (modify f).
Proof. intros Hf st st' HP [= <-]. apply Hf, HP. Qed.

Lemma maintains_bind {A B : Type} (P : Context.state -> Prop)
  (c : Context.M A) (k : A -> Context.M B) :
  maintains P c -> (forall a, maintains P (k a)) -> maintains P (JS.bind c k).
Proof.
  intros Hc Hk st st' HP. unfold JS.bind.
  destruct (c st) as [a s1|e s1|] eqn:Hrun; intros Hend.
  - apply (Hk a s1 st'); [|exact Hend]. apply (Hc st s1 HP). rewrite Hrun. reflexivity.
  - injection Hend as <-. apply (Hc st s1 HP). rewrite Hrun. reflexivity.
  - discriminate Hend.
Qed.

Lemma maintains_forEach {A : Type} (P : Context.state -> Prop)
  (f : A -> Context.M unit) (l : list A) :
  (forall x, maintains P (f x)) -> maintains P (Context.forEach f l).
Proof.
  intros Hf. induction l as [|x l IH]; simpl.
  - apply maintains_ret.
  - apply maintains_bind; [apply Hf | intros _; exact IH].
Qed.

Lemma maintains_isoNow (P : Context.state -> Prop) :
  (forall st, P st -> P (Context.tick st)) -> maintains P (Context.isoNow env).
Proof. intros Htick st st' HP [= <-]. apply Htick, HP. Qed.

(** Assigning a property other than [sanity] keeps the agents and the
    trackers paired. *)
Lemma paired_assignAgent (agentId key : string) (v : value) :
  key <> "sanity" -> maintains paired (Context.assignAgent agentId key v).
Proof.
  intros Hkey. apply maintains_modify. intros st [Hdom Hmirror]. split.
  - simpl. rewrite dom_alter_L. exact Hdom.
  - intros id t Ht. simpl in *. destruct (Hmirror id t Ht) as (a & Ha & Hsanity).
    rewrite lookup_alter. destruct (decide (agentId = id)) as [->|].
    + rewrite Ha. simpl. eexists. split; [reflexivity|].
      rewrite lookup_insert_ne by congruence. exact Hsanity.
    + exists a. split; assumption.
Qed.

Lemma paired_modifySanity (agentId : string) (delta : Z) :
  maintains paired (Context.modifySanity env agentId delta).
Proof.
  intros st st' [Hdom Hmirror] Hend.
  destruct (Context.sanityTracker st !! agentId) as [t|] eqn:Ht.
  - destruct (Hmirror agentId t Ht) as (a & Ha & _).
    destruct (modifySanity_found st agentId delta t a Ht Ha)
      as (t' & s1 & e & bs & Hrun & Htr & _ & _ & _ & _ & _ & _ & _ & _ & _ & _ & Hag).
    rewrite Hrun in Hend. injection Hend as <-.
    assert (Hlook : exists a', Context.agents s1 = <[agentId := a']> (Context.agents st) /\
                               a' !! "sanity" = Some (VNum (Context.current t'))).
    { destruct Hag as [Hag|Hag]; eexists; (split; [exact Hag|]); apply lookup_insert_eq. }
    destruct Hlook as (a' & Hag' & Hsanity). split.
    + rewrite Hag', Htr, !dom_insert_L, Hdom. reflexivity.
    + intros id t0. rewrite Htr, Hag', !lookup_insert.
      destruct (decide (agentId = id)) as [->|].
      * intros [= <-]. exists a'. split; [reflexivity | exact Hsanity].
      * apply Hmirror.
  - revert Hend. unfold Context.modifySanity. run. rewrite Ht.
    intros [= <-]. split; assumption.
Qed.

Lemma eqb_false_ne (a b : string) : String.eqb a b = false -> a <> b.
Proof. intros H. apply String.eqb_neq. exact H. Qed.

Lemma paired_applyUpdate (agentId : string) (kv : string * value) :
  maintains paired (Context.applyUpdate env agentId kv).
Proof.
  destruct kv as [key v]. unfold Context.applyUpdate.
  destruct (String.eqb key "sanity") eqn:Hsanity.
  { destruct v; try apply maintains_unmodelled.
    apply maintains_bind; [apply paired_modifySanity | intros _; apply maintains_ret]. }
  apply eqb_false_ne in Hsanity.
  destruct (String.eqb key "status"); [apply paired_assignAgent; discriminate|].
  destruct (String.eqb key "stressLevel").
  { destruct v; try apply maintains_unmodelled. apply paired_assignAgent. discriminate. }
  apply maintains_bind; [apply maintains_get | intros st].
  destruct (Context.agents st !! agentId) as [agent|]; [|apply maintains_ret].
  destruct (agent !! key); [apply paired_assignAgent; exact Hsanity | apply maintains_ret].
Qed.

Lemma paired_tick (st : Context.state) : paired st -> paired (Context.tick st).
Proof. intros H. exact H. Qed.

Lemma paired_updateAgentStatus (agentId : string) (statusUpdate : list (string * value)) :
  maintains paired (Context.updateAgentStatus env agentId statusUpdate).
Proof.
  unfold Context.updateAgentStatus.
  apply maintains_bind; [apply maintains_get | intros st].
  destruct (Context.agents st !! agentId) as [agent0|]; [|apply maintains_throw].
  apply maintains_bind; [apply maintains_forEach, paired_applyUpdate | intros _].
  apply maintains_bind; [apply maintains_isoNow, paired_tick | intros ts].
  apply maintains_bind; [apply paired_assignAgent; discriminate | intros _].
  apply maintains_bind; [apply maintains_get | intros st'].
  destruct (Context.agents st' !! agentId); apply maintains_ret.
Qed.

(** The object that [registerAgent] stores and returns. *)
Lemma registerAgent_object (input : Context.agentInput) (st st' : Context.state)
  (a : gmap string value) :
  Context.registerAgent env input st = Returned a st' ->
  a !! "sanity" = Some (VNum (numOr (Context.in_sanity input) 60)) /\
  a !! "maxSanity" = Some (VNum (numOr (Context.in_maxSanity input) 60)) /\
  a !! "status" = Some (VStr (strOr (Context.in_status input) "active")) /\
  a !! "stressLevel" = Some (VNum 0) /\
  a !! "lastAction" = Some VNull.
Proof.
  unfold Context.registerAgent, Context.generateCallsign, Context.isoNow.
  destruct (Context.in_callsign input) as [c|]; [destruct (String.eqb c "")|];
    run; intros [= <- _]; repeat split; reflexivity.
Qed.

Lemma paired_registerAgent (input : Context.agentInput) :
  maintains paired (Context.registerAgent env input).
Proof.
  intros st st' [Hdom Hmirror] Hend.
  destruct (registerAgent_stores env input st) as (a & s1 & Hrun & Hid & Hag & Htr).
  cbv zeta in Hid, Hag, Htr. rewrite Hrun in Hend. injection Hend as <-.
  destruct (registerAgent_object input st s1 a Hrun) as (Hsanity & _).
  split.
  - rewrite Hag, Htr, !dom_insert_L, Hdom. reflexivity.
  - intros id t0. rewrite Htr, Hag, !lookup_insert.
    destruct (decide (_ = id)) as [_|_].
    + intros [= <-]. exists a. split; [reflexivity | exact Hsanity].
    + apply Hmirror.
Qed.

(** X2. Agents and trackers stay paired. The constructor leaves no agent
    and no tracker; from then on [registerAgent], [modifySanity],
    [updateAgentStatus] and the team and threat methods, whether they
    return or raise, leave the two maps with the same identifiers and every
    agent's [sanity] equal to its tracker's [current]. *)
Theorem agents_paired_with_trackers (st : Context.state) :
  paired Context.initial /\
  (paired st ->
   (forall input st',
      stateOf (Context.registerAgent env input st) = Some st' -> paired st') /\
   (forall agentId delta st',
      stateOf (Context.modifySanity env agentId delta st) = Some st' -> paired st') /\
   (forall agentId statusUpdate st',
      stateOf (Context.updateAgentStatus env agentId statusUpdate st) = Some st' ->
      paired st') /\
   (forall input st',
      stateOf (Context.createTeam env input st) = Some st' -> paired st') /\
   (forall teamId d st',
      stateOf (Context.manageTeamDynamics teamId d st) = Some st' -> paired st') /\
   (forall input st',
      stateOf (Context.createThreatAssessment env input st) = Some st' -> paired st')).
Proof.
  split.
  - split; [reflexivity|]. intros id t Ht. simpl in Ht.
    rewrite lookup_empty in Ht. discriminate Ht.
  - intros HP. split; [intros input st'; apply paired_registerAgent; exact HP|].
    split; [intros agentId delta st'; apply paired_modifySanity; exact HP|].
    split; [intros agentId upd st'; apply paired_updateAgentStatus; exact HP|].
    split; [|split].
    + intros input st'. unfold Context.createTeam, Context.isoNow. run.
      intros [= <-]. exact HP.
    + intros teamId d st'. unfold Context.manageTeamDynamics. run.
      destruct (Context.teams st !! teamId); intros [= <-]; exact HP.
    + intros input st'. unfold Context.createThreatAssessment, Context.isoNow. run.
      intros [= <-]. exact HP.
Qed.

End AgentInvariants.

(** The pairing after agent A has been registered on a new manager. *)
Lemma agents_paired_with_trackers_witness : paired Sample.oneAgent.
Proof.
  destruct (agents_paired_with_trackers Sample.env Context.initial) as (Hinit & Hstep).
  destruct (Hstep Hinit) as (Hregister & _).
  apply (Hregister Sample.agentA). reflexivity.
Defined.

Section AgentObjects.

Variable env : Env.

Lemma stress_assignAgent_other (agentId key : string) (v : value) :
  key <> "stressLevel" -> maintains stressBounded (Context.assignAgent agentId key v).
Proof.
  intros Hkey. apply maintains_modify. intros st Hst id a. simpl.
  rewrite lookup_alter. destruct (decide (agentId = id)) as [->|]; [|apply Hst].
  destruct (Context.agents st !! id) as [a0|] eqn:Ha0; [|discriminate].
  intros [= <-]. rewrite lookup_insert_ne by congruence. apply (Hst id a0 Ha0).
Qed.

Lemma stress_assignAgent_clamped (agentId : string) (level : Z) :
  maintains stressBounded
    (Context.assignAgent agentId "stressLevel" (VNum (clamp 0 100 level))).
Proof.
  apply maintains_modify. intros st Hst id a. simpl.
  rewrite lookup_alter. destruct (decide (agentId = id)) as [->|]; [|apply Hst].
  destruct (Context.agents st !! id) as [a0|]; [|discriminate].
  intros [= <-]. rewrite lookup_insert_eq. eexists. split; [reflexivity|].
  apply clamp_bounds. lia.
Qed.

Lemma stress_trackers (f : gmap string Context.tracker -> gmap string Context.tracker) :
  maintains stressBounded (modify (Context.setSanityTracker f)).
Proof. apply maintains_modify. intros st Hst. exact Hst. Qed.

Lemma stress_tick (st : Context.state) : stressBounded st -> stressBounded (Context.tick st).
Proof. intros H. exact H. Qed.

Lemma stress_modifySanity (agentId : string) (delta : Z) :
  maintains stressBounded (Context.modifySanity env agentId delta).
Proof.
  unfold Context.modifySanity.
  apply maintains_bind; [apply maintains_get | intros st].
  destruct (Context.sanityTracker st !! agentId) as [t|]; [|apply maintains_throw].
  destruct (Context.agents st !! agentId) as [a|]; [|apply maintains_throw].
  apply maintains_bind; [apply stress_trackers | intros _].
  apply maintains_bind; [apply maintains_isoNow, stress_tick | intros ts].
  apply maintains_bind; [apply stress_trackers | intros _].
  apply maintains_bind.
  - destruct (_ =? 0).
    + apply maintains_bind; [apply maintains_isoNow, stress_tick | intros ts'].
      apply maintains_bind; [apply stress_trackers | intros _].
      apply stress_assignAgent_other. discriminate.
    + destruct (Context.belowQuarter _ _); [|apply maintains_ret].
      apply maintains_bind; [apply maintains_isoNow, stress_tick | intros ts'].
      apply stress_trackers.
  - intros _. apply maintains_bind; [apply stress_assignAgent_other; discriminate | intros _].
    apply maintains_bind; [apply maintains_get | intros st'].
    destruct (Context.sanityTracker st' !! agentId); apply maintains_ret.
Qed.

Lemma stress_applyUpdate (agentId : string) (kv : string * value) :
  maintains stressBounded (Context.applyUpdate env agentId kv).
Proof.
  destruct kv as [key v]. unfold Context.applyUpdate.
  destruct (String.eqb key "sanity").
  { destruct v; try apply maintains_unmodelled.
    apply maintains_bind; [apply stress_modifySanity | intros _; apply maintains_ret]. }
  destruct (String.eqb key "status") eqn:Hstatus.
  { apply stress_assignAgent_other. discriminate. }
  destruct (String.eqb key "stressLevel") eqn:Hstress.
  { destruct v; try apply maintains_unmodelled. apply stress_assignAgent_clamped. }
  apply eqb_false_ne in Hstress.
  apply maintains_bind; [apply maintains_get | intros st].
  destruct (Context.agents st !! agentId) as [agent|]; [|apply maintains_ret].
  destruct (agent !! key); [apply stress_assignAgent_other; exact Hstress | apply maintains_ret].
Qed.

Lemma stress_updateAgentStatus (agentId : string) (statusUpdate : list (string * value)) :
  maintains stressBounded (Context.updateAgentStatus env agentId statusUpdate).
Proof.
  unfold Context.updateAgentStatus.
  apply maintains_bind; [apply maintains_get | intros st].
  destruct (Context.agents st !! agentId) as [agent0|]; [|apply maintains_throw].
  apply maintains_bind; [apply maintains_forEach, stress_applyUpdate | intros _].
  apply maintains_bind; [apply maintains_isoNow, stress_tick | intros ts].
  apply maintains_bind; [apply stress_assignAgent_other; discriminate | intros _].
  apply maintains_bind; [apply maintains_get | intros st'].
  destruct (Context.agents st' !! agentId); apply maintains_ret.
Qed.

Lemma stress_registerAgent (input : Context.agentInput) :
  maintains stressBounded (Context.registerAgent env input).
Proof.
  intros st st' Hst Hend.
  destruct (registerAgent_stores env input st) as (a & s1 & Hrun & _ & Hag & _).
  cbv zeta in Hag. rewrite Hrun in Hend.
  destruct (registerAgent_object env input st s1 a Hrun) as (_ & _ & _ & Hstress & _).
  injection Hend as <-.
  intros id a0. rewrite Hag, lookup_insert.
  destruct (decide (_ = id)) as [_|_]; [|apply Hst].
  intros [= <-]. exists 0. split; [exact Hstress | lia].
Qed.

(** X3. The stress level of every agent stays a number from 0 to 100:
    [registerAgent] starts it at 0, [updateAgentStatus] clamps the value it
    is given and cannot reach the property in any other way, and
    [modifySanity] does not touch it. *)
Theorem stress_level_bounded (st : Context.state) :
  stressBounded Context.initial /\
  (stressBounded st ->
   (forall input st',
      stateOf (Context.registerAgent env input st) = Some st' -> stressBounded st') /\
   (forall agentId delta st',
      stateOf (Context.modifySanity env agentId delta st) = Some st' ->
      stressBounded st') /\
   (forall agentId statusUpdate st',
      stateOf (Context.updateAgentStatus env agentId statusUpdate st) = Some st' ->
      stressBounded st')).
Proof.
  split.
  - intros id a Ha. simpl in Ha. rewrite lookup_empty in Ha. discriminate Ha.
  - intros Hst. split; [intros input st'; apply stress_registerAgent; exact Hst|].
    split; [intros agentId delta st'; apply stress_modifySanity; exact Hst|].
    intros agentId upd st'. apply stress_updateAgentStatus. exact Hst.
Qed.

Lemma sameShape_refl (st : Context.state) : sameShape st st.
Proof. intros id a Ha _. exists a. split; [exact Ha | reflexivity]. Qed.

Lemma hasCoreProperties_dom (a a' : gmap string value) :
  dom a' = dom a -> hasCoreProperties a -> hasCoreProperties a'.
Proof.
  intros Hdom (H1 & H2 & H3 & H4).
  repeat split; apply elem_of_dom; rewrite Hdom; apply elem_of_dom; assumption.
Qed.

Lemma sameShape_trans (s1 s2 s3 : Context.state) :
  sameShape s1 s2 -> sameShape s2 s3 -> sameShape s1 s3.
Proof.
  intros H12 H23 id a Ha Hcore.
  destruct (H12 id a Ha Hcore) as (a2 & Ha2 & Hdom2).
  destruct (H23 id a2 Ha2 (hasCoreProperties_dom a a2 Hdom2 Hcore)) as (a3 & Ha3 & Hdom3).
  exists a3. split; [exact Ha3 | congruence].
Qed.

Lemma respects_ret {A : Type} (a : A) : respects sameShape (ret a).
Proof. intros st st' [= <-]. apply sameShape_refl. Qed.

Lemma respects_get : respects sameShape get.
Proof. intros st st' [= <-]. apply sameShape_refl. Qed.

Lemma respects_throw {A : Type} (e : string) : respects sameShape (@throw Context.state A e).
Proof. intros st st' [= <-]. apply sameShape_refl. Qed.

Lemma respects_unmodelled {A : Type} :
  respects sameShape (fun _ => @Unmodelled Context.state A).
Proof. intros st st' [=]. Qed.

Lemma respects_bind {A B : Type} (c : Context.M A) (k : A -> Context.M B) :
  respects sameShape c -> (forall a, respects sameShape (k a)) ->
  respects sameShape (JS.bind c k).
Proof.
  intros Hc Hk st st'. unfold JS.bind.
  destruct (c st) as [a s1|e s1|] eqn:Hrun; intros Hend.
  - apply (sameShape_trans st s1 st').
    + apply Hc. rewrite Hrun. reflexivity.
    + apply (Hk a). exact Hend.
  - injection Hend as <-. apply Hc. rewrite Hrun. reflexivity.
  - discriminate Hend.
Qed.

Lemma respects_forEach {A : Type} (f : A -> Context.M unit) (l : list A) :
  (forall x, respects sameShape (f x)) -> respects sameShape (Context.forEach f l).
Proof.
  intros Hf. induction l as [|x l IH]; simpl.
  - apply respects_ret.
  - apply respects_bind; [apply Hf | intros _; exact IH].
Qed.

Lemma respects_isoNow : respects sameShape (Context.isoNow env).
Proof. intros st st' [= <-] id a Ha _. exists a. split; [exact Ha | reflexivity]. Qed.

Lemma respects_trackers (f : gmap string Context.tracker -> gmap string Context.tracker) :
  respects sameShape (modify (Context.setSanityTracker f)).
Proof. intros st st' [= <-] id a Ha _. exists a. split; [exact Ha | reflexivity]. Qed.

(** Assigning a property that the agent object already has. *)
Lemma sameShape_assign (st : Context.state) (agentId key : string) (v : value) :
  (forall a, Context.agents st !! agentId = Some a -> hasCoreProperties a ->
             is_Some (a !! key)) ->
  sameShape st (Context.setAgents (alter (insert key v) agentId) st).
Proof.
  intros Hkey id a Ha Hcore. simpl. rewrite lookup_alter.
  destruct (decide (agentId = id)) as [->|].
  - rewrite Ha. simpl. eexists. split; [reflexivity|].
    rewrite dom_insert_L. specialize (Hkey a Ha Hcore).
    apply elem_of_dom in Hkey. apply set_eq. intros k.
    rewrite elem_of_union, elem_of_singleton.
    split; [intros [->|Hk]; assumption | intros Hk; right; exact Hk].
  - exists a. split; [exact Ha | reflexivity].
Qed.

Lemma respects_assignCore (agentId key : string) (v : value) :
  key ∈ ["sanity"; "status"; "stressLevel"; "lastAction"] ->
  respects sameShape (Context.assignAgent agentId key v).
Proof.
  intros Hkey st st' [= <-]. apply sameShape_assign.
  intros a _ (H1 & H2 & H3 & H4).
  repeat (apply elem_of_cons in Hkey as [->|Hkey]; [assumption|]).
  apply elem_of_nil in Hkey. contradiction.
Qed.

Lemma respects_modifySanity (agentId : string) (delta : Z) :
  respects sameShape (Context.modifySanity env agentId delta).
Proof.
  unfold Context.modifySanity.
  apply respects_bind; [apply respects_get | intros st].
  destruct (Context.sanityTracker st !! agentId) as [t|]; [|apply respects_throw].
  destruct (Context.agents st !! agentId) as [a|]; [|apply respects_throw].
  apply respects_bind; [apply respects_trackers | intros _].
  apply respects_bind; [apply respects_isoNow | intros ts].
  apply respects_bind; [apply respects_trackers | intros _].
  apply respects_bind.
  - destruct (_ =? 0).
    + apply respects_bind; [apply respects_isoNow | intros ts'].
      apply respects_bind; [apply respects_trackers | intros _].
      apply respects_assignCore. set_solver.
    + destruct (Context.belowQuarter _ _); [|apply respects_ret].
      apply respects_bind; [apply respects_isoNow | intros ts'].
      apply respects_trackers.
  - intros _. apply respects_bind; [apply respects_assignCore; set_solver | intros _].
    apply respects_bind; [apply respects_get | intros st'].
    destruct (Context.sanityTracker st' !! agentId); apply respects_ret.
Qed.

Lemma respects_applyUpdate (agentId : string) (kv : string * value) :
  respects sameShape (Context.applyUpdate env agentId kv).
Proof.
  destruct kv as [key v]. unfold Context.applyUpdate.
  destruct (String.eqb key "sanity").
  { destruct v; try apply respects_unmodelled.
    apply respects_bind; [apply respects_modifySanity | intros _; apply respects_ret]. }
  destruct (String.eqb key "status"); [apply respects_assignCore; set_solver|].
  destruct (String.eqb key "stressLevel").
  { destruct v; try apply respects_unmodelled. apply respects_assignCore. set_solver. }
  intros st st'. unfold JS.bind, JS.get.
  destruct (Context.agents st !! agentId) as [agent|] eqn:Hagent;
    [|intros [= <-]; apply sameShape_refl].
  destruct (agent !! key) as [old|] eqn:Hold; [|intros [= <-]; apply sameShape_refl].
  intros [= <-]. apply sameShape_assign.
  intros a Ha _. rewrite Hagent in Ha. injection Ha as <-. rewrite Hold. eauto.
Qed.

(** X4. [updateAgentStatus] never gives an agent a property it did not
    have: on agent objects with the properties that every registered agent
    has, each key of the update that is not a property of the agent is
    ignored, and the set of property names of every agent is the same
    after the call, whether it returns or raises. *)
Theorem updateAgentStatus_keeps_shape (st st' : Context.state) (agentId : string)
  (statusUpdate : list (string * value)) :
  stateOf (Context.updateAgentStatus env agentId statusUpdate st) = Some st' ->
  forall id a, Context.agents st !! id = Some a -> hasCoreProperties a ->
    exists a', Context.agents st' !! id = Some a' /\ dom a' = dom a.
Proof.
  revert st st'. change (respects sameShape (Context.updateAgentStatus env agentId statusUpdate)).
  unfold Context.updateAgentStatus.
  apply respects_bind; [apply respects_get | intros st].
  destruct (Context.agents st !! agentId) as [agent0|]; [|apply respects_throw].
  apply respects_bind; [apply respects_forEach, respects_applyUpdate | intros _].
  apply respects_bind; [apply respects_isoNow | intros ts].
  apply respects_bind; [apply respects_assignCore; set_solver | intros _].
  apply respects_bind; [apply respects_get | intros st'].
  destruct (Context.agents st' !! agentId); apply respects_ret.
Qed.

End AgentObjects.

Lemma agentA_registered : Context.agents Sample.oneAgent !! "A" = Some agentAObject.
Proof.
  destruct (registerAgent_stores Sample.env Sample.agentA Context.initial)
    as (a & st' & Hrun & _ & Hag & _).
  cbv zeta in Hag. unfold agentAObject, Sample.oneAgent, Sample.after.
  rewrite Hrun, Hag.
  change (strOr (Context.in_id Sample.agentA) _) with "A".
  rewrite lookup_insert_eq. reflexivity.
Qed.

(** Agent A after an update of its stress level to 250. *)
Lemma stress_level_bounded_witness :
  stressBounded
    (Sample.after
       (Context.updateAgentStatus Sample.env "A" [("stressLevel", VNum 250)])
       Sample.oneAgent).
Proof.
  destruct (stress_level_bounded Sample.env Context.initial) as (Hinit & Hstep).
  destruct (Hstep Hinit) as (Hregister & _).
  assert (Hone : stressBounded Sample.oneAgent)
    by (apply (Hregister Sample.agentA); reflexivity).
  destruct (stress_level_bounded Sample.env Sample.oneAgent) as (_ & Hstep').
  destruct (Hstep' Hone) as (_ & _ & Hupdate).
  apply (Hupdate "A" [("stressLevel", VNum 250)]). vm_compute. reflexivity.
Defined.

(** Agent A keeps its fifteen properties through an update that names a
    property it has and one it has not. *)
Lemma updateAgentStatus_keeps_shape_witness :
  exists a',
    Context.agents
      (Sample.after
         (Context.updateAgentStatus Sample.env "A"
            [("name", VStr "Alice"); ("rank", VNum 3)])
         Sample.oneAgent) !! "A" = Some a' /\
    dom a' = dom agentAObject.
Proof.
  apply (updateAgentStatus_keeps_shape Sample.env Sample.oneAgent _ "A"
           [("name", VStr "Alice"); ("rank", VNum 3)]).
  - vm_compute. reflexivity.
  - exact agentA_registered.
  - repeat split; vm_compute; eauto.
Defined.

Section Histories.

Variable env : Env.

Lemma audited_fresh (c m : Z) :
  audited {| Context.current := c; Context.max := m;
             Context.history := []; Context.breakpoints := [] |}.
Proof.
  split; [|split]; simpl.
  - intros e He. apply elem_of_nil in He. contradiction.
  - intros i e1 e2 He1. rewrite lookup_nil in He1. discriminate He1.
  - intros e He. discriminate He.
Qed.

(** One more entry, made as [modifySanity] makes it, keeps the trail. *)
Lemma audited_push (t t' : Context.tracker) (e : Context.historyEntry) :
  audited t ->
  Context.max t' = Context.max t ->
  Context.history t' = (Context.history t ++ [e])%list ->
  Context.h_previous e = Context.current t ->
  Context.h_current e = Context.current t' ->
  Context.current t' = clamp 0 (Context.max t) (Context.current t + Context.h_delta e) ->
  audited t'.
Proof.
  intros (Hentries & Hlinks & Hlast) Hmax Hhist Hprev Hcur Hclamp.
  split; [|split]; rewrite Hhist.
  - intros e0 He0. rewrite Hmax. apply elem_of_app in He0 as [Hold|Hnew].
    + apply Hentries, Hold.
    + apply list_elem_of_singleton in Hnew as ->. rewrite Hcur, Hprev. exact Hclamp.
  - intros i e1 e2 He1 He2.
    destruct (Nat.lt_ge_cases (S i) (length (Context.history t))) as [Hin|Hout].
    + rewrite lookup_app_l in He1 by lia. rewrite lookup_app_l in He2 by lia.
      apply (Hlinks i e1 e2 He1 He2).
    + assert (Hi : S i = length (Context.history t)).
      { apply lookup_lt_Some in He2. rewrite length_app in He2. simpl in He2. lia. }
      rewrite lookup_app_l in He1 by lia.
      rewrite lookup_app_r in He2 by lia.
      replace (S i - length (Context.history t))%nat with 0%nat in He2 by lia.
      injection He2 as <-. rewrite Hprev. symmetry. apply Hlast.
      rewrite last_lookup. rewrite <- Hi. exact He1.
  - intros e0. rewrite last_snoc. intros [= <-]. exact Hcur.
Qed.

Lemma audited_modifySanity (agentId : string) (delta : Z) :
  maintains allAudited (Context.modifySanity env agentId delta).
Proof.
  intros st st' Hall Hend.
  destruct (Context.sanityTracker st !! agentId) as [t|] eqn:Ht;
    [destruct (Context.agents st !! agentId) as [a|] eqn:Ha|].
  - destruct (modifySanity_found env st agentId delta t a Ht Ha)
      as (t' & s1 & e & bs & Hrun & Htr & _ & _ & Hcur & Hmax & Hhist & Hdelta
          & Hprev & Hecur & _).
    rewrite Hrun in Hend. injection Hend as <-.
    intros id t0. rewrite Htr, lookup_insert.
    destruct (decide (agentId = id)) as [_|_]; [|apply Hall].
    intros [= <-].
    apply (audited_push t t' e (Hall agentId t Ht) Hmax Hhist Hprev Hecur).
    rewrite Hdelta. exact Hcur.
  - revert Hend. unfold Context.modifySanity. run. rewrite Ht, Ha.
    intros [= <-]. exact Hall.
  - revert Hend. unfold Context.modifySanity. run. rewrite Ht.
    intros [= <-]. exact Hall.
Qed.

Lemma audited_assignAgent (agentId key : string) (v : value) :
  maintains allAudited (Context.assignAgent agentId key v).
Proof. apply maintains_modify. intros st Hall. exact Hall. Qed.

Lemma audited_tick (st : Context.state) : allAudited st -> allAudited (Context.tick st).
Proof. intros H. exact H. Qed.

Lemma audited_applyUpdate (agentId : string) (kv : string * value) :
  maintains allAudited (Context.applyUpdate env agentId kv).
Proof.
  destruct kv as [key v]. unfold Context.applyUpdate.
  destruct (String.eqb key "sanity").
  { destruct v; try apply maintains_unmodelled.
    apply maintains_bind; [apply audited_modifySanity | intros _; apply maintains_ret]. }
  destruct (String.eqb key "status"); [apply audited_assignAgent|].
  destruct (String.eqb key "stressLevel").
  { destruct v; try apply maintains_unmodelled. apply audited_assignAgent. }
  apply maintains_bind; [apply maintains_get | intros st].
  destruct (Context.agents st !! agentId) as [agent|]; [|apply maintains_ret].
  destruct (agent !! key); [apply audited_assignAgent | apply maintains_ret].
Qed.

Lemma audited_updateAgentStatus (agentId : string) (statusUpdate : list (string * value)) :
  maintains allAudited (Context.updateAgentStatus env agentId statusUpdate).
Proof.
  unfold Context.updateAgentStatus.
  apply maintains_bind; [apply maintains_get | intros st].
  destruct (Context.agents st !! agentId) as [agent0|]; [|apply maintains_throw].
  apply maintains_bind; [apply maintains_forEach, audited_applyUpdate | intros _].
  apply maintains_bind; [apply maintains_isoNow, audited_tick | intros ts].
  apply maintains_bind; [apply audited_assignAgent | intros _].
  apply maintains_bind; [apply maintains_get | intros st'].
  destruct (Context.agents st' !! agentId); apply maintains_ret.
Qed.

(** X5. The history of a tracker is an audit trail of its sanity. Through
    [registerAgent], [modifySanity] and [updateAgentStatus], every history
    entry records the clamp of its previous value plus its delta, every
    entry starts at the value the entry before it ended at, and the last
    entry ends at the tracker's current value. *)
Theorem history_is_audit_trail (st : Context.state) :
  allAudited Context.initial /\
  (allAudited st ->
   (forall input st',
      stateOf (Context.registerAgent env input st) = Some st' -> allAudited st') /\
   (forall agentId delta st',
      stateOf (Context.modifySanity env agentId delta st) = Some st' -> allAudited st') /\
   (forall agentId statusUpdate st',
      stateOf (Context.updateAgentStatus env agentId statusUpdate st) = Some st' ->
      allAudited st')).
Proof.
  split.
  - intros id t Ht. simpl in Ht. rewrite lookup_empty in Ht. discriminate Ht.
  - intros Hall. split; [|split].
    + intros input st' Hend.
      destruct (registerAgent_stores env input st) as (a & s1 & Hrun & _ & _ & Htr).
      cbv zeta in Htr. rewrite Hrun in Hend. injection Hend as <-.
      intros id t0. rewrite Htr, lookup_insert.
      destruct (decide (_ = id)) as [_|_]; [|apply Hall].
      intros [= <-]. apply audited_fresh.
    + intros agentId delta st'. apply audited_modifySanity. exact Hall.
    + intros agentId upd st'. apply audited_updateAgentStatus. exact Hall.
Qed.

End Histories.

(** The trail of agent A after it has lost 75 points. *)
Lemma history_is_audit_trail_witness : allAudited Sample.brokenAgent.
Proof.
  destruct (history_is_audit_trail Sample.env Context.initial) as (Hinit & Hstep).
  destruct (Hstep Hinit) as (Hregister & _).
  assert (Hone : allAudited Sample.oneAgent)
    by (apply (Hregister Sample.agentA); reflexivity).
  destruct (history_is_audit_trail Sample.env Sample.oneAgent) as (_ & Hstep').
  destruct (Hstep' Hone) as (_ & Hmodify & _).
  apply (Hmodify "A" (-75)). vm_compute. reflexivity.
Defined.

Section Teams.

Variable env : Env.

(** X6. [manageTeamDynamics] keeps morale and cohesion within 0 to 100 on a
    team whose morale and cohesion are within 0 to 100, never raises a
    morale that the call does not supply, and changes no other team. *)
Theorem manageTeamDynamics_keeps_ranges (st : Context.state) (teamId : string)
  (d : Context.dynamics) (t : Context.team) :
  Context.teams st !! teamId = Some t ->
  0 <= Context.morale t <= 100 ->
  0 <= Context.cohesion t <= 100 ->
  exists rep st' t',
    Context.manageTeamDynamics teamId d st = Returned rep st' /\
    Context.teams st' !! teamId = Some t' /\
    0 <= Context.morale t' <= 100 /\
    0 <= Context.cohesion t' <= 100 /\
    (Context.d_morale d = None -> Context.morale t' <= Context.morale t) /\
    (forall other, other <> teamId ->
       Context.teams st' !! other = Context.teams st !! other).
Proof.
  intros Hteam Hmorale Hcohesion.
  eexists _, _, (Context.applyDynamics d t).
  split; [apply (manageTeamDynamics_found st teamId d t Hteam)|].
  split; [simpl; apply lookup_insert_eq|].
  assert (Hm1 : 0 <= from_option (clamp 0 100) (Context.morale t) (Context.d_morale d) <= 100).
  { destruct (Context.d_morale d); simpl; [apply clamp_bounds; lia | exact Hmorale]. }
  assert (Hmor : Context.morale (Context.applyDynamics d t) =
    if 0 <? Context.casualtyCount (Context.applyDynamics d t)
    then Z.max 0 (from_option (clamp 0 100) (Context.morale t) (Context.d_morale d)
                  - Z.min 30 (Context.casualtyCount (Context.applyDynamics d t) * 5))
    else from_option (clamp 0 100) (Context.morale t) (Context.d_morale d)).
  { unfold Context.applyDynamics. simpl. destruct (Context.d_morale d); reflexivity. }
  revert Hmor. generalize (Context.casualtyCount (Context.applyDynamics d t)).
  intros c Hmor.
  split; [|split; [|split]].
  - rewrite Hmor. destruct (Z.ltb_spec 0 c); lia.
  - unfold Context.applyDynamics. simpl.
    destruct (Context.d_cohesion d); [apply clamp_bounds; lia | exact Hcohesion].
  - intros Hnone. rewrite Hmor, Hnone. cbn [from_option].
    destruct (Z.ltb_spec 0 c); lia.
  - intros other Hother. simpl. apply lookup_insert_ne. congruence.
Qed.

(** X7. Every call of [manageTeamDynamics] subtracts the casualty penalty
    again: on a team with casualties and a morale that is not negative,
    [k] calls that supply nothing leave the morale at
    [max(0, morale - k * min(30, casualtyCount * 5))] and the casualty
    count as it was. *)
Theorem repeated_dynamics_accumulate (k : nat) :
  forall (st : Context.state) (teamId : string) (t : Context.team),
    Context.teams st !! teamId = Some t ->
    0 < Context.casualtyCount t ->
    0 <= Context.morale t ->
    exists reps st' t',
      manageAll teamId (replicate k noDynamics) st = Returned reps st' /\
      Context.teams st' !! teamId = Some t' /\
      length reps = k /\
      Context.casualtyCount t' = Context.casualtyCount t /\
      Context.morale t'
      = Z.max 0 (Context.morale t
                 - Z.of_nat k * Z.min 30 (Context.casualtyCount t * 5)).
Proof.
  induction k as [|k IH]; intros st teamId t Hteam Hcas Hmorale.
  - exists [], st, t. simpl. repeat split; [exact Hteam | lia].
  - simpl replicate. simpl manageAll. unfold JS.bind at 1.
    rewrite (manageTeamDynamics_found st teamId noDynamics t Hteam).
    assert (Hc : Context.casualtyCount (Context.applyDynamics noDynamics t)
                 = Context.casualtyCount t) by reflexivity.
    assert (Hm : Context.morale (Context.applyDynamics noDynamics t)
                 = Z.max 0 (Context.morale t - Z.min 30 (Context.casualtyCount t * 5))).
    { unfold Context.applyDynamics. simpl.
      destruct (Z.ltb_spec 0 (Context.casualtyCount t)); [reflexivity | lia]. }
    destruct (IH (Context.setTeams (insert teamId (Context.applyDynamics noDynamics t)) st)
                 teamId (Context.applyDynamics noDynamics t))
      as (reps & st' & t' & Hrun & Hteam' & Hlen & Hcount & Hfinal);
      [simpl; apply lookup_insert_eq | rewrite Hc; exact Hcas | rewrite Hm; lia |].
    unfold JS.bind at 1. rewrite Hrun. unfold JS.ret.
    eexists _, st', t'. split; [reflexivity|]. split; [exact Hteam'|].
    split; [simpl; congruence|]. split; [congruence|].
    rewrite Hfinal, Hm, Hc. lia.
Qed.

(** X8. [createTeam] keeps, among the member identifiers it is given, those
    of registered agents, in their order and as often as they are given,
    and silently drops the others; the team starts without casualties and
    is stored under the identifier it returns. *)
Theorem createTeam_members_registered (input : Context.teamInput) (st : Context.state) :
  exists t st',
    Context.createTeam env input st = Returned t st' /\
    Context.teams st' !! Context.t_id t = Some t /\
    Context.casualtyCount t = 0 /\
    Context.members t `sublist_of` default [] (Context.ti_memberIds input) /\
    (forall i, i ∈ Context.members t <->
       i ∈ default [] (Context.ti_memberIds input) /\ is_Some (Context.agents st !! i)) /\
    Context.agents st' = Context.agents st /\
    Context.members t
    = filter (fun i => is_Some (Context.agents st !! i))
        (default [] (Context.ti_memberIds input)).
Proof.
  unfold Context.createTeam, Context.isoNow. run.
  eexists _, _. split; [reflexivity|]. simpl.
  split; [apply lookup_insert_eq|]. split; [reflexivity|].
  assert (Hmembers :
    match Context.ti_memberIds input with
    | Some ids => filter (fun i => is_Some (Context.agents st !! i)) ids
    | None => []
    end
    = filter (fun i => is_Some (Context.agents st !! i))
        (default [] (Context.ti_memberIds input))).
  { destruct (Context.ti_memberIds input); reflexivity. }
  rewrite Hmembers.
  split; [apply sublist_filter|].
  split; [intros i; rewrite list_elem_of_filter; tauto|].
  split; reflexivity.
Qed.

End Teams.

(** A team asked for agent A, for an identifier that is not registered and
    for agent A again has agent A twice for members. *)
Lemma createTeam_members_registered_witness :
  exists t st',
    Context.createTeam Sample.env
      (Context.mkTeamInput None None (Some ["A"; "ghost"; "A"]) None None None None)
      Sample.oneAgent = Returned t st' /\
    Context.members t = ["A"; "A"].
Proof.
  destruct (createTeam_members_registered Sample.env
              (Context.mkTeamInput None None (Some ["A"; "ghost"; "A"]) None None None None)
              Sample.oneAgent)
    as (t & st' & Hrun & _ & _ & _ & _ & _ & Hmembers).
  exists t, st'. split; [exact Hrun|]. rewrite Hmembers.
  destruct (registerAgent_stores Sample.env Sample.agentA Context.initial)
    as (a & st1 & Hreg & _ & Hagents & _).
  cbv zeta in Hagents.
  change (strOr (Context.in_id Sample.agentA) _) with "A" in Hagents.
  assert (Hone : Sample.oneAgent = st1).
  { unfold Sample.oneAgent, Sample.after. rewrite Hreg. reflexivity. }
  rewrite Hone, Hagents. change (default [] _) with ["A"; "ghost"; "A"].
  rewrite !filter_cons, filter_nil.
  rewrite lookup_insert_eq, lookup_insert_ne by discriminate.
  reflexivity.
Defined.

(** A team on duty, morale 75, with one casualty. *)
Lemma manageTeamDynamics_keeps_ranges_witness :
  exists rep st' t',
    Context.manageTeamDynamics "TEAM-1" (Sample.casualty 1) Sample.oneTeam
    = Returned rep st' /\
    Context.teams st' !! "TEAM-1" = Some t' /\
    0 <= Context.morale t' <= 100.
Proof.
  destruct (manageTeamDynamics_keeps_ranges Sample.oneTeam "TEAM-1" (Sample.casualty 1)
              (Context.mkTeam "TEAM-1" "Unnamed Team" [] "" 75 80 0 []
                 (isoAt Sample.env 0) "active" "adaptive"))
    as (rep & st' & t' & Hrun & Hteam & Hmorale & _).
  - reflexivity.
  - simpl. lia.
  - simpl. lia.
  - exists rep, st', t'. repeat split; [exact Hrun | exact Hteam | apply Hmorale ..].
Defined.

(** Three idle calls on a team of morale 75 with two casualties: 75 - 3 * 10. *)
Lemma repeated_dynamics_accumulate_witness :
  exists reps st' t',
    manageAll "TEAM-1" (replicate 3 noDynamics)
      (Sample.after (Context.manageTeamDynamics "TEAM-1" (Sample.casualty 2))
         Sample.oneTeam)
    = Returned reps st' /\
    Context.teams st' !! "TEAM-1" = Some t' /\
    Context.morale t' = 35.
Proof.
  destruct (repeated_dynamics_accumulate 3
              (Sample.after (Context.manageTeamDynamics "TEAM-1" (Sample.casualty 2))
                 Sample.oneTeam)
              "TEAM-1"
              (Context.mkTeam "TEAM-1" "Unnamed Team" [] "" 65 80 2 []
                 (isoAt Sample.env 0) "active" "adaptive"))
    as (reps & st' & t' & Hrun & Hteam & _ & _ & Hmorale).
  - reflexivity.
  - simpl. lia.
  - simpl. lia.
  - exists reps, st', t'. split; [exact Hrun|]. split; [exact Hteam|].
    rewrite Hmorale. reflexivity.
Defined.

Section ThreatKeys.

Variable env : Env.

Lemma threatKey_inj (n m : nat) : threatKey n = threatKey m -> n = m.
Proof.
  unfold threatKey. simpl. intros [= Heq]. exact (inj pretty n m Heq).
Qed.

Lemma threatsNumbered_initial : threatsNumbered Context.initial.
Proof.
  intros k. simpl. rewrite lookup_empty, map_size_empty. split.
  - intros [x Hx]. discriminate Hx.
  - intros (n & Hn & _). lia.
Qed.

(** The key of the next threat is not in use. *)
Lemma threatKey_fresh (st : Context.state) :
  threatsNumbered st ->
  Context.threats st !! threatKey (S (size (Context.threats st))) = None.
Proof.
  intros Hnum.
  destruct (Context.threats st !! threatKey (S (size (Context.threats st))))
    as [t0|] eqn:Hlook; [|reflexivity].
  destruct (proj1 (Hnum _) (mk_is_Some _ _ Hlook)) as (n & Hn & Heq).
  apply threatKey_inj in Heq. lia.
Qed.

(** What [createThreatAssessment] returns and stores. *)
Lemma createThreatAssessment_stored (input : Context.threatInput) (st : Context.state) :
  exists t st',
    Context.createThreatAssessment env input st = Returned t st' /\
    Context.x_id t = threatKey (S (size (Context.threats st))) /\
    Context.threats st' = <[Context.x_id t := t]> (Context.threats st) /\
    Context.threatLevel t = clamp 1 10 (numOr (Context.th_threat_level input) 5) /\
    Context.x_status t = "active" /\
    Context.agents st' = Context.agents st /\
    Context.teams st' = Context.teams st /\
    Context.sanityTracker st' = Context.sanityTracker st.
Proof.
  unfold Context.createThreatAssessment, Context.isoNow.
  unfold JS.bind, JS.get, JS.modify, JS.ret.
  rewrite Nat.add_1_r. fold (threatKey (S (size (Context.threats st)))).
  eexists _, _. split; [reflexivity|]. repeat split.
Qed.

(** Storing the next threat keeps the numbering. *)
Lemma threatsNumbered_next (st st' : Context.state) (t : Context.threat) :
  threatsNumbered st ->
  Context.threats st'
  = <[threatKey (S (size (Context.threats st))) := t]> (Context.threats st) ->
  threatsNumbered st'.
Proof.
  intros Hnum Hst' k. pose proof (threatKey_fresh st Hnum) as Hfresh.
  rewrite Hst', (map_size_insert_None _ _ _ Hfresh), lookup_insert_is_Some. split.
  - intros [<-|[_ Hk]].
    + exists (S (size (Context.threats st))). split; [lia | reflexivity].
    + destruct (proj1 (Hnum k) Hk) as (n & Hn & ->). exists n. split; [lia | reflexivity].
  - intros (n & Hn & ->).
    destruct (decide (n = S (size (Context.threats st)))) as [->|Hne].
    + left. reflexivity.
    + right. split.
      * intros Heq. apply threatKey_inj in Heq. congruence.
      * apply (Hnum (threatKey n)). exists n. split; [lia | reflexivity].
Qed.

(** X9. Threats are never overwritten. On a manager whose threats are the
    first ones created ([THREAT-1] to [THREAT-n], as after the constructor),
    [createThreatAssessment] stores the new threat under the unused key
    [THREAT-(n+1)], leaves every stored threat as it is, and the threats are
    again numbered without a gap. *)
Theorem createThreatAssessment_fresh_key (input : Context.threatInput)
  (st : Context.state) :
  threatsNumbered Context.initial /\
  (threatsNumbered st ->
   exists t st',
     Context.createThreatAssessment env input st = Returned t st' /\
     Context.x_id t = threatKey (S (size (Context.threats st))) /\
     Context.threats st !! Context.x_id t = None /\
     Context.threats st' !! Context.x_id t = Some t /\
     size (Context.threats st') = S (size (Context.threats st)) /\
     (forall k t0, Context.threats st !! k = Some t0 ->
        Context.threats st' !! k = Some t0) /\
     threatsNumbered st').
Proof.
  split; [exact threatsNumbered_initial|].
  intros Hnum. pose proof (threatKey_fresh st Hnum) as Hfresh.
  destruct (createThreatAssessment_stored input st)
    as (t & st' & Hrun & Hid & Hthreats & _).
  exists t, st'. split; [exact Hrun|]. split; [exact Hid|].
  rewrite Hthreats, Hid.
  split; [exact Hfresh|].
  split; [apply lookup_insert_eq|].
  split; [apply map_size_insert_None; exact Hfresh|].
  split.
  - intros k t0 Hk. rewrite lookup_insert_ne; [exact Hk|].
    intros <-. rewrite Hfresh in Hk. discriminate Hk.
  - apply (threatsNumbered_next st st' t Hnum). rewrite Hthreats, Hid. reflexivity.
Qed.

End ThreatKeys.

(** The second threat of a manager is stored beside the first. *)
Lemma createThreatAssessment_fresh_key_witness :
  exists t st',
    Context.createThreatAssessment Sample.env (Sample.threatOfLevel (Some 7))
      (Sample.after
         (Context.createThreatAssessment Sample.env (Sample.threatOfLevel None))
         Context.initial)
    = Returned t st' /\
    Context.x_id t = "THREAT-2" /\
    size (Context.threats st') = 2%nat.
Proof.
  destruct (createThreatAssessment_fresh_key Sample.env (Sample.threatOfLevel None)
              Context.initial) as (Hinit & Hstep).
  destruct (Hstep Hinit) as (t1 & st1 & Hrun1 & _ & _ & _ & Hsize1 & _ & Hnum1).
  destruct (createThreatAssessment_fresh_key Sample.env (Sample.threatOfLevel (Some 7)) st1)
    as (_ & Hstep2).
  destruct (Hstep2 Hnum1) as (t & st' & Hrun & Hid & _ & _ & Hsize & _).
  unfold Sample.after. rewrite Hrun1.
  exists t, st'. split; [exact Hrun|].
  rewrite Hid, Hsize, Hsize1. split; reflexivity.
Defined.

(** ** Further properties of the command dispatcher *)

Section DispatchEdges.

Variable env : Env.

(** X10. An input whose first token names no registered handler is answered
    by the envelope ERROR [Unknown command: NAME], with the name in upper
    case and no data; the records, the threat level and the audit log are
    left as they were. *)
Theorem unknown_command_rejected (registry : gmap string Input.handler)
  (input t0 : string) (args : list string) (st : Input.state) :
  Input.tokenizeInput (trim input) = t0 :: args ->
  registry !! toUpperCase t0 = None ->
  Input.processCommand env registry input st =
    Returned
      {| Input.status := "ERROR";
         Input.message := "Unknown command: " ++ toUpperCase t0;
         Input.data := VNull;
         Input.timestamp := isoAt env (Input.ticks st) |}
      (Input.tick st).
Proof.
  intros Htok Hreg.
  rewrite (processCommand_unknown env registry input t0 args st Htok Hreg).
  reflexivity.
Qed.

Lemma trimStart_blank (s : string) :
  forallb isSpace (list_ascii_of_string s) = true -> trimStart s = "".
Proof.
  induction s as [|c s IH]; simpl; [reflexivity|].
  intros Hall. apply andb_prop in Hall as [Hc Hs]. rewrite Hc. apply IH, Hs.
Qed.

(** X11. An input of white space only, the empty input included, is
    answered by the envelope ERROR [No command provided] whatever the
    registry, and nothing but the clock is touched. *)
Theorem blank_input_rejected (registry : gmap string Input.handler)
  (input : string) (st : Input.state) :
  forallb isSpace (list_ascii_of_string input) = true ->
  Input.processCommand env registry input st =
    Returned
      {| Input.status := "ERROR";
         Input.message := "No command provided";
         Input.data := VNull;
         Input.timestamp := isoAt env (Input.ticks st) |}
      (Input.tick st).
Proof.
  intros Hblank. unfold Input.processCommand, trim.
  rewrite (trimStart_blank input Hblank). reflexivity.
Qed.

(** X13. Command names are matched without regard to case: two inputs with
    the same arguments whose first tokens agree once put in upper case are
    processed alike, with the same response and the same state after. *)
Theorem command_name_case_insensitive (registry : gmap string Input.handler)
  (input1 input2 t1 t2 : string) (args : list string) (st : Input.state) :
  Input.tokenizeInput (trim input1) = t1 :: args ->
  Input.tokenizeInput (trim input2) = t2 :: args ->
  toUpperCase t1 = toUpperCase t2 ->
  Input.processCommand env registry input1 st
  = Input.processCommand env registry input2 st.
Proof.
  intros Htok1 Htok2 Hcase. unfold Input.processCommand.
  rewrite (tokens_nonempty_input _ _ _ Htok1), (tokens_nonempty_input _ _ _ Htok2).
  rewrite Htok1, Htok2. cbv beta iota zeta. rewrite Hcase. reflexivity.
Qed.

(** The state that a dispatch leaves when its handler returns: the one the
    handler left, with the audit entry added. *)
Lemma dispatch_state (registry : gmap string Input.handler) (input t0 : string)
  (args : list string) (h : Input.handler) (r : Input.response) (st st1 : Input.state) :
  Input.tokenizeInput (trim input) = t0 :: args ->
  registry !! toUpperCase t0 = Some h ->
  h args st = Returned r st1 ->
  exists st2,
    Input.processCommand env registry input st = Returned r st2 /\
    Input.agentStates st2 = Input.agentStates st1 /\
    Input.threatLevel st2 = Input.threatLevel st1.
Proof.
  intros Htok Hreg Hh.
  rewrite (processCommand_dispatch env _ input t0 args h st Htok Hreg).
  unfold Input.tryCatch. unfold JS.bind at 1. rewrite Hh. unfold JS.bind at 1.
  destruct (logAction_appends env (toUpperCase t0) args r st1)
    as (st2 & Hlog & Hag & Hth & _).
  rewrite Hlog. exists st2. split; [reflexivity|]. split; assumption.
Qed.

End DispatchEdges.

(** The command of the specification's scenario, on a new processor. *)
Lemma unknown_command_rejected_witness :
  Input.processCommand Sample.env (Input.initializeCommands Sample.env)
    "UnknownCmd now" Input.initial =
    Returned
      {| Input.status := "ERROR";
         Input.message := "Unknown command: UNKNOWNCMD";
         Input.data := VNull;
         Input.timestamp := isoAt Sample.env 0 |}
      (Input.tick Input.initial).
Proof.
  apply (unknown_command_rejected Sample.env _ "UnknownCmd now" "UnknownCmd" ["now"]).
  - reflexivity.
  - reflexivity.
Defined.

(** A line of two spaces and a tab. *)
Lemma blank_input_rejected_witness :
  Input.status <$>
    returned (Input.processCommand Sample.env (Input.initializeCommands Sample.env)
                (String " " (String " " (String "009" ""))) Input.initial)
  = Some "ERROR".
Proof.
  rewrite (blank_input_rejected Sample.env _ _ Input.initial); reflexivity.
Defined.

(** [status] and [STATUS] on a new processor. *)
Lemma command_name_case_insensitive_witness :
  Input.processCommand Sample.env (Input.initializeCommands Sample.env)
    "status A1" Input.initial
  = Input.processCommand Sample.env (Input.initializeCommands Sample.env)
      "STATUS A1" Input.initial.
Proof.
  apply (command_name_case_insensitive Sample.env _ "status A1" "STATUS A1"
           "status" "STATUS" ["A1"]); reflexivity.
Defined.

Section ThreatLevels.

Variable env : Env.

Ltac registry_find :=
  unfold Input.initializeCommands, Input.registerCommand;
  repeat (rewrite lookup_insert_ne by (vm_compute; discriminate));
  apply lookup_insert_eq.

Lemma registry_STATUS :
  Input.initializeCommands env !! "STATUS" = Some (Input.handleStatus env).
Proof. registry_find. Qed.

Lemma registry_REPORT :
  Input.initializeCommands env !! "REPORT" = Some (Input.handleReport env).
Proof. registry_find. Qed.

Lemma registry_HELP :
  Input.initializeCommands env !! "HELP" = Some (Input.handleHelp env).
Proof. registry_find. Qed.

Lemma matchHere_token_nonempty (s : string) (m : Input.rmatch) :
  Input.matchHere s = Some m -> Input.tokenOf m <> "".
Proof.
  unfold Input.matchHere, Input.tokenOf.
  destruct (Input.bareRun s) as [[|c w] r].
  - destruct s as [|q s]; [discriminate|].
    destruct (isQuote q); [|discriminate].
    destruct (Input.untilQuote s) as [body [|q' r']]; [discriminate|].
    intros [= <-]. simpl.
    destruct (String.eqb_spec body ""); [discriminate | assumption].
  - intros [= <-]. simpl. discriminate.
Qed.

Lemma exec_token_nonempty (s : string) (m : Input.rmatch) :
  Input.exec s = Some m -> Input.tokenOf m <> "".
Proof.
  induction s as [|c s IH].
  - simpl. discriminate.
  - change (Input.exec (String c s))
      with (match Input.matchHere (String c s) with
            | Some m' => Some m'
            | None => Input.exec s
            end).
    destruct (Input.matchHere (String c s)) eqn:Hhere; [|exact IH].
    intros [= <-]. apply (matchHere_token_nonempty _ _ Hhere).
Qed.

Lemma tokenLoop_nonempty (fuel : nat) :
  forall s, Forall (fun t => t <> "") (Input.tokenLoop fuel s).
Proof.
  induction fuel as [|fuel IH]; intros s; simpl; [constructor|].
  destruct (Input.exec s) as [m|] eqn:Hexec; [|constructor].
  constructor; [apply (exec_token_nonempty s m Hexec) | apply IH].
Qed.

Lemma given_token (tokens : list string) (i : nat) (t : string) :
  Forall (fun t => t <> "") tokens -> tokens !! i = Some t -> given (tokens !! i) = Some t.
Proof.
  intros Hall Hi. rewrite Hi. unfold given.
  destruct (String.eqb_spec t ""); [|reflexivity].
  exfalso. apply (proj1 (Forall_lookup _ _) Hall i t Hi). assumption.
Qed.

(** The arguments of a tokenized input are never empty. *)
Lemma arguments_nonempty (s t0 : string) (args : list string) :
  Input.tokenizeInput s = t0 :: args -> Forall (fun t => t <> "") args.
Proof.
  intros Htok. pose proof (tokenLoop_nonempty (S (String.length s)) s) as Hall.
  unfold Input.tokenizeInput in Htok. rewrite Htok in Hall.
  inversion Hall. assumption.
Qed.

Lemma levels_known (k v : string) :
  Input.levels !! k = Some v -> v = "NORMAL" \/ v = "ELEVATED" \/ v = "CRITICAL".
Proof.
  unfold Input.levels. simpl.
  repeat (rewrite lookup_insert_Some; intros [[_ <-]|[_ Hrest]]; [tauto | revert Hrest]).
  rewrite lookup_empty. discriminate.
Qed.

Lemma calculateThreatLevel_known (severity : option string) :
  Input.calculateThreatLevel severity = "NORMAL" \/
  Input.calculateThreatLevel severity = "ELEVATED" \/
  Input.calculateThreatLevel severity = "CRITICAL".
Proof.
  unfold Input.calculateThreatLevel.
  destruct severity as [s|]; simpl; [|tauto].
  destruct (Input.levels !! toUpperCase s) as [v|] eqn:Hv; simpl; [|tauto].
  destruct (levels_known _ _ Hv) as [H|[H|H]]; rewrite H; simpl; tauto.
Qed.

Lemma escalation_known (st : Input.state) :
  knownLevel st ->
  knownLevel (Input.setThreatLevel (l ← Input.threatLevel st; Input.escalation !! l) st).
Proof.
  unfold knownLevel. simpl. intros [H|[H|H]]; rewrite H; simpl.
  - right. left. reflexivity.
  - right. right. reflexivity.
  - right. right. reflexivity.
Qed.

Ltac level_kept :=
  intros args st st' Hknown;
  unfold Input.formatResponse, Input.generateId, Input.isoNow, Input.checkThreatLevel;
  repeat match goal with
         | |- context [given ?x] => destruct (given x)
         | |- context [existsb ?f ?l] => destruct (existsb f l)
         end;
  run; intros [= <-]; try exact Hknown;
  unfold knownLevel; simpl; auto using calculateThreatLevel_known.

Lemma levelSafe_handleInvestigate : levelSafe (Input.handleInvestigate env).
Proof. unfold Input.handleInvestigate. level_kept. Qed.

Lemma levelSafe_handleEngage : levelSafe (Input.handleEngage env).
Proof. unfold Input.handleEngage. level_kept. Qed.

Lemma levelSafe_handleRetreat : levelSafe (Input.handleRetreat env).
Proof. unfold Input.handleRetreat. level_kept. Qed.

Lemma levelSafe_handleContain : levelSafe (Input.handleContain env).
Proof.
  intros args st st' Hknown. unfold Input.handleContain.
  unfold Input.formatResponse, Input.generateId, Input.isoNow.
  destruct (given (args !! 0%nat)); run; intros [= <-]; [|exact Hknown].
  unfold knownLevel. cbn [Input.threatLevel].
  destruct (calculateThreatLevel_known (args !! 1%nat)) as [H|[H|H]]; rewrite H; tauto.
Qed.

Lemma levelSafe_handleResearch : levelSafe (Input.handleResearch env).
Proof. unfold Input.handleResearch. level_kept. Qed.

Lemma levelSafe_handleStatus : levelSafe (Input.handleStatus env).
Proof. unfold Input.handleStatus. level_kept. Qed.

Lemma levelSafe_handleDebrief : levelSafe (Input.handleDebrief env).
Proof. unfold Input.handleDebrief. level_kept. Qed.

Lemma levelSafe_handleReport : levelSafe (Input.handleReport env).
Proof. unfold Input.handleReport. level_kept. Qed.

Lemma levelSafe_handleAlert : levelSafe (Input.handleAlert env).
Proof. unfold Input.handleAlert. level_kept. Qed.

Lemma levelSafe_handleEscalate : levelSafe (Input.handleEscalate env).
Proof.
  intros args st st' Hknown.
  unfold Input.handleEscalate, Input.formatResponse, Input.isoNow, Input.escalateThreatLevel.
  run. intros [= <-]. apply (escalation_known st Hknown).
Qed.

Lemma levelSafe_handleSanitize : levelSafe (Input.handleSanitize env).
Proof. unfold Input.handleSanitize. level_kept. Qed.

Lemma levelSafe_handleHelp : levelSafe (Input.handleHelp env).
Proof. unfold Input.handleHelp. level_kept. Qed.

Lemma levelSafe_handleConfig : levelSafe (Input.handleConfig env).
Proof. unfold Input.handleConfig. level_kept. Qed.

Lemma registry_levelSafe (command : string) (h : Input.handler) :
  Input.initializeCommands env !! command = Some h -> levelSafe h.
Proof.
  unfold Input.initializeCommands, Input.registerCommand.
  repeat (rewrite lookup_insert_Some; intros [[_ <-]|[_ Hrest]];
          [auto using levelSafe_handleInvestigate, levelSafe_handleEngage,
             levelSafe_handleRetreat, levelSafe_handleContain,
             levelSafe_handleResearch, levelSafe_handleStatus,
             levelSafe_handleDebrief, levelSafe_handleReport,
             levelSafe_handleAlert, levelSafe_handleEscalate,
             levelSafe_handleSanitize, levelSafe_handleHelp,
             levelSafe_handleConfig
          | revert Hrest]).
  rewrite lookup_empty. discriminate.
Qed.

(** X14. The threat level is always NORMAL, ELEVATED or CRITICAL: it starts
    at NORMAL and no input, through any of the registered commands, leaves
    it at another value or undefined. *)
Theorem threat_level_stays_known (input : string) (st st' : Input.state) :
  knownLevel Input.initial /\
  (knownLevel st ->
   stateOf (Input.processCommand env (Input.initializeCommands env) input st) = Some st' ->
   knownLevel st').
Proof.
  split; [left; reflexivity|].
  intros Hknown.
  destruct (Input.tokenizeInput (trim input)) as [|t0 args] eqn:Htok.
  { unfold Input.processCommand. rewrite Htok.
    destruct (String.eqb (trim input) "").
    - unfold Input.formatResponse, Input.isoNow. run. intros [= <-]. exact Hknown.
    - unfold JS.throw. simpl. intros [= <-]. exact Hknown. }
  destruct (Input.initializeCommands env !! toUpperCase t0) as [h|] eqn:Hreg.
  - destruct (registry_wellBehaved env _ h Hreg args st) as (r & st1 & Hh & _).
    destruct (dispatch_state env _ input t0 args h r st st1 Htok Hreg Hh)
      as (st2 & Hrun & _ & Hlevel).
    rewrite Hrun. simpl. intros [= <-].
    assert (Hst1 : knownLevel st1).
    { apply (registry_levelSafe _ h Hreg args st st1 Hknown). rewrite Hh. reflexivity. }
    unfold knownLevel in *. rewrite Hlevel. exact Hst1.
  - rewrite (processCommand_unknown env _ input t0 args st Htok Hreg).
    unfold Input.formatResponse, Input.isoNow. run. intros [= <-]. exact Hknown.
Qed.

(** What the ALERT handler does once it has its argument. *)
Lemma handleAlert_given (threatType : string) (rest : list string) (st : Input.state) :
  threatType <> "" ->
  exists r st1,
    Input.handleAlert env (threatType :: rest) st = Returned r st1 /\
    Input.status r = "SUCCESS" /\
    Input.threatLevel st1 = Some "ELEVATED" /\
    Input.agentStates st1 = Input.agentStates st.
Proof.
  intros Hne. unfold Input.handleAlert. simpl.
  destruct (String.eqb_spec threatType ""); [contradiction|].
  unfold Input.formatResponse, Input.generateId, Input.isoNow. run.
  eexists _, _. split; [reflexivity|]. simpl. repeat split; reflexivity.
Qed.

Lemma handleEngage_given (agentId threat : string) (rest : list string) (st : Input.state) :
  agentId <> "" -> threat <> "" ->
  exists r st1,
    Input.handleEngage env (agentId :: threat :: rest) st = Returned r st1 /\
    Input.status r = "SUCCESS" /\
    Input.threatLevel st1 =
      (if existsb (fun keyword => includes (toUpperCase threat) keyword) Input.threatKeywords
       then Some "ELEVATED" else Input.threatLevel st) /\
    Input.agentStates st1 = Input.agentStates st.
Proof.
  intros Hagent Hthreat.
  unfold Input.handleEngage, Input.formatResponse, Input.isoNow, Input.checkThreatLevel.
  simpl.
  destruct (String.eqb_spec agentId ""); [contradiction|].
  destruct (String.eqb_spec threat ""); [contradiction|].
  destruct (includes (toUpperCase threat) "ANOMALY" || _); run;
    (eexists _, _; split; [reflexivity|]); simpl; repeat split; reflexivity.
Qed.

Lemma handleContain_given (objectType : string) (rest : list string) (st : Input.state) :
  objectType <> "" ->
  exists r st1,
    Input.handleContain env (objectType :: rest) st = Returned r st1 /\
    Input.status r = "SUCCESS" /\
    Input.threatLevel st1 = Some (Input.calculateThreatLevel (rest !! 0%nat)) /\
    Input.agentStates st1 = Input.agentStates st.
Proof.
  intros Hne. unfold Input.handleContain. simpl.
  destruct (String.eqb_spec objectType ""); [contradiction|].
  unfold Input.formatResponse, Input.generateId, Input.isoNow. run.
  eexists _, _. split; [reflexivity|]. simpl. repeat split; reflexivity.
Qed.

(** The table of [calculateThreatLevel], read without regard to case. *)
Lemma calculateThreatLevel_table (severity : option string) :
  (toUpperCase <$> severity = Some "CRITICAL" ->
     Input.calculateThreatLevel severity = "CRITICAL") /\
  (toUpperCase <$> severity = Some "HIGH" \/ toUpperCase <$> severity = Some "MEDIUM" ->
     Input.calculateThreatLevel severity = "ELEVATED") /\
  (toUpperCase <$> severity <> Some "CRITICAL" ->
   toUpperCase <$> severity <> Some "HIGH" ->
   toUpperCase <$> severity <> Some "MEDIUM" ->
     Input.calculateThreatLevel severity = "NORMAL").
Proof.
  unfold Input.calculateThreatLevel. destruct severity as [s|]; simpl.
  - split; [intros [= ->]; reflexivity|].
    split; [intros [[= ->]|[= ->]]; reflexivity|].
    intros H1 H2 H3.
    destruct (Input.levels !! toUpperCase s) as [v|] eqn:Hv; [|reflexivity].
    revert Hv. unfold Input.levels. simpl.
    repeat (rewrite lookup_insert_Some; intros [[Hk <-]|[_ Hrest]];
            [try reflexivity; exfalso; congruence | revert Hrest]).
    rewrite lookup_empty. discriminate.
  - split; [discriminate|]. split; [intros [|]; discriminate | reflexivity].
Qed.

(** X15. Three commands set the threat level outright, whatever it was, so
    each of them can lower a CRITICAL level: ALERT sets ELEVATED; ENGAGE
    sets ELEVATED when the threat text, in upper case, contains ANOMALY,
    ENTITY, HOSTILE or UNKNOWN, and leaves the level alone otherwise;
    CONTAIN sets the level of its severity argument, read without regard to
    case: CRITICAL for CRITICAL, ELEVATED for HIGH and MEDIUM, NORMAL for
    anything else and for no severity at all. *)
Theorem commands_set_threat_level (input t0 a0 : string) (rest : list string)
  (st : Input.state) :
  Input.tokenizeInput (trim input) = t0 :: a0 :: rest ->
  exists r st',
    Input.processCommand env (Input.initializeCommands env) input st = Returned r st' /\
    (toUpperCase t0 = "ALERT" ->
       Input.status r = "SUCCESS" /\ Input.threatLevel st' = Some "ELEVATED") /\
    (toUpperCase t0 = "ENGAGE" ->
       forall threat, rest !! 0%nat = Some threat ->
         Input.status r = "SUCCESS" /\
         Input.threatLevel st' =
           if existsb (fun keyword => includes (toUpperCase threat) keyword)
                Input.threatKeywords
           then Some "ELEVATED" else Input.threatLevel st) /\
    (toUpperCase t0 = "CONTAIN" ->
       Input.status r = "SUCCESS" /\
       let severity := toUpperCase <$> rest !! 0%nat in
       (severity = Some "CRITICAL" -> Input.threatLevel st' = Some "CRITICAL") /\
       (severity = Some "HIGH" \/ severity = Some "MEDIUM" ->
          Input.threatLevel st' = Some "ELEVATED") /\
       (severity <> Some "CRITICAL" -> severity <> Some "HIGH" ->
        severity <> Some "MEDIUM" -> Input.threatLevel st' = Some "NORMAL")).
Proof.
  intros Htok.
  pose proof (arguments_nonempty _ _ _ Htok) as Hargs.
  apply Forall_cons in Hargs as [Ha0 Hrest].
  destruct (Input.initializeCommands env !! toUpperCase t0) as [h|] eqn:Hreg.
  - destruct (registry_wellBehaved env _ h Hreg (a0 :: rest) st) as (r & st1 & Hh & _).
    destruct (dispatch_state env _ input t0 _ h r st st1 Htok Hreg Hh)
      as (st2 & Hrun & _ & Hlevel).
    exists r, st2. split; [exact Hrun|]. rewrite Hlevel.
    split; [|split]; intros Hcmd; rewrite Hcmd in Hreg.
    + rewrite registry_ALERT in Hreg. injection Hreg as <-.
      destruct (handleAlert_given a0 rest st Ha0) as (r' & s' & Hh' & Hok & Hset & _).
      rewrite Hh in Hh'. injection Hh' as <- <-. split; assumption.
    + rewrite registry_ENGAGE in Hreg. injection Hreg as <-.
      intros threat Hthreat. destruct rest as [|a1 rest]; [discriminate Hthreat|].
      injection Hthreat as ->. apply Forall_cons in Hrest as [Ha1 _].
      destruct (handleEngage_given a0 threat rest st Ha0 Ha1)
        as (r' & s' & Hh' & Hok & Hset & _).
      rewrite Hh in Hh'. injection Hh' as <- <-. split; assumption.
    + rewrite registry_CONTAIN in Hreg. injection Hreg as <-.
      destruct (handleContain_given a0 rest st Ha0) as (r' & s' & Hh' & Hok & Hset & _).
      rewrite Hh in Hh'. injection Hh' as <- <-. split; [assumption|].
      rewrite Hset. cbv zeta.
      destruct (calculateThreatLevel_table (rest !! 0%nat)) as (Hc & He & Hn).
      split; [intros Hs; rewrite (Hc Hs); reflexivity|].
      split; [intros Hs; rewrite (He Hs); reflexivity|].
      intros H1 H2 H3. rewrite (Hn H1 H2 H3). reflexivity.
  - eexists _, _.
    split; [rewrite (processCommand_unknown env _ input t0 _ st Htok Hreg);
            unfold Input.formatResponse, Input.isoNow; run; reflexivity|].
    split; [|split]; intros Hcmd; rewrite Hcmd in Hreg.
    + rewrite registry_ALERT in Hreg. discriminate Hreg.
    + rewrite registry_ENGAGE in Hreg. discriminate Hreg.
    + rewrite registry_CONTAIN in Hreg. discriminate Hreg.
Qed.

End ThreatLevels.

(** A CRITICAL processor after an alert. *)
Lemma commands_set_threat_level_witness :
  Input.threatLevel <$>
    stateOf (Input.processCommand Sample.env (Input.initializeCommands Sample.env)
               "alert breach" (Input.setThreatLevel (Some "CRITICAL") Input.initial))
  = Some (Some "ELEVATED").
Proof.
  destruct (commands_set_threat_level Sample.env "alert breach" "alert" "breach" []
              (Input.setThreatLevel (Some "CRITICAL") Input.initial) eq_refl)
    as (r & st' & Hrun & Halert & _).
  rewrite Hrun. simpl. destruct (Halert eq_refl) as (_ & Hlevel).
  rewrite Hlevel. reflexivity.
Defined.

(** A new processor after a containment of critical severity. *)
Lemma threat_level_stays_known_witness :
  knownLevel
    (Sample.after
       (Input.processCommand Sample.env (Input.initializeCommands Sample.env)
          "CONTAIN artifact critical")
       Input.initial).
Proof.
  destruct (threat_level_stays_known Sample.env "CONTAIN artifact critical" Input.initial
              (Sample.after
                 (Input.processCommand Sample.env (Input.initializeCommands Sample.env)
                    "CONTAIN artifact critical")
                 Input.initial)) as (Hinit & Hstep).
  apply (Hstep Hinit). vm_compute. reflexivity.
Defined.

Section Records.

Variable env : Env.

Ltac reads_only :=
  intros args st;
  unfold Input.formatResponse, Input.generateId, Input.isoNow;
  repeat match goal with
         | |- context [given ?x] => destruct (given x)
         end;
  run; eexists _, _; (split; [reflexivity|]); simpl; (split; reflexivity).

Lemma readOnly_handleRetreat : readOnly (Input.handleRetreat env).
Proof. unfold Input.handleRetreat. reads_only. Qed.

Lemma readOnly_handleStatus : readOnly (Input.handleStatus env).
Proof. unfold Input.handleStatus. reads_only. Qed.

Lemma readOnly_handleDebrief : readOnly (Input.handleDebrief env).
Proof. unfold Input.handleDebrief. reads_only. Qed.

Lemma readOnly_handleReport : readOnly (Input.handleReport env).
Proof. unfold Input.handleReport. reads_only. Qed.

Lemma readOnly_handleSanitize : readOnly (Input.handleSanitize env).
Proof. unfold Input.handleSanitize. reads_only. Qed.

Lemma readOnly_handleHelp : readOnly (Input.handleHelp env).
Proof. unfold Input.handleHelp. reads_only. Qed.

Lemma readOnly_handleConfig : readOnly (Input.handleConfig env).
Proof. unfold Input.handleConfig. reads_only. Qed.

(** X21. RETREAT, STATUS, DEBRIEF, REPORT, SANITIZE, HELP and CONFIG store
    nothing: whatever their arguments, the records of the processor and the
    threat level are the same after the command, so the record that such a
    command builds lives in its response only. *)
Theorem reporting_commands_store_nothing (input t0 : string) (args : list string)
  (st : Input.state) :
  Input.tokenizeInput (trim input) = t0 :: args ->
  toUpperCase t0 ∈ ["RETREAT"; "STATUS"; "DEBRIEF"; "REPORT"; "SANITIZE"; "HELP"; "CONFIG"] ->
  exists r st',
    Input.processCommand env (Input.initializeCommands env) input st = Returned r st' /\
    Input.agentStates st' = Input.agentStates st /\
    Input.threatLevel st' = Input.threatLevel st.
Proof.
  intros Htok Hcmd.
  assert (Hh : exists h, Input.initializeCommands env !! toUpperCase t0 = Some h /\ readOnly h).
  { repeat (apply elem_of_cons in Hcmd as [->|Hcmd]).
    - exists (Input.handleRetreat env). split; [apply registry_RETREAT | apply readOnly_handleRetreat].
    - exists (Input.handleStatus env). split; [apply registry_STATUS | apply readOnly_handleStatus].
    - exists (Input.handleDebrief env). split; [apply registry_DEBRIEF | apply readOnly_handleDebrief].
    - exists (Input.handleReport env). split; [apply registry_REPORT | apply readOnly_handleReport].
    - exists (Input.handleSanitize env). split; [apply registry_SANITIZE | apply readOnly_handleSanitize].
    - exists (Input.handleHelp env). split; [apply registry_HELP | apply readOnly_handleHelp].
    - exists (Input.handleConfig env). split; [apply registry_CONFIG | apply readOnly_handleConfig].
    - apply elem_of_nil in Hcmd. contradiction. }
  destruct Hh as (h & Hreg & Hread).
  destruct (Hread args st) as (r & st1 & Hrun1 & Hag & Hth).
  destruct (dispatch_state env _ input t0 args h r st st1 Htok Hreg Hrun1)
    as (st2 & Hrun & Hag2 & Hth2).
  exists r, st2. split; [exact Hrun|]. split; congruence.
Qed.

(** What INVESTIGATE does once it has its target. *)
Lemma handleInvestigate_given (target : string) (details : list string)
  (st : Input.state) :
  target <> "" ->
  exists r st1 rec,
    Input.handleInvestigate env (target :: details) st = Returned r st1 /\
    Input.status r = "SUCCESS" /\
    Input.message r = "Investigation initiated: " ++ idAt env (Input.ticks st) /\
    Input.data r = VObj [("investigation", rec)] /\
    rec = VObj [("id", VStr (idAt env (Input.ticks st))); ("target", VStr target);
                ("details", VStr (join " " details)); ("status", VStr "ACTIVE");
                ("timestamp", VStr (isoAt env (S (Input.ticks st))));
                ("findings", VArr [])] /\
    Input.agentStates st1 = <[idAt env (Input.ticks st) := rec]> (Input.agentStates st) /\
    Input.threatLevel st1 = Input.threatLevel st.
Proof.
  intros Hne. unfold Input.handleInvestigate. simpl.
  destruct (String.eqb_spec target ""); [contradiction|].
  unfold Input.formatResponse, Input.generateId, Input.isoNow. run.
  eexists _, _, _. split; [reflexivity|]. simpl. repeat split; reflexivity.
Qed.

(** STATUS with the identifier of a stored record reports that record. *)
Lemma handleStatus_found (id : string) (rec : value) (st : Input.state) :
  id <> "" -> truthy rec = true ->
  Input.agentStates st !! id = Some rec ->
  exists r st1 fields,
    Input.handleStatus env [id] st = Returned r st1 /\
    Input.status r = "SUCCESS" /\
    Input.data r = VObj (fields ++ [("agentStatus", rec)])%list.
Proof.
  intros Hne Htruthy Hrec. unfold Input.handleStatus. simpl.
  destruct (String.eqb_spec id ""); [contradiction|].
  unfold Input.formatResponse, Input.isoNow. run. rewrite Hrec, Htruthy.
  eexists _, _,
    [("timestamp", VStr (isoAt env (Input.ticks st)));
     ("threatLevel", Input.optStr (Input.threatLevel st));
     ("activeOperations", VNum (Z.of_nat (size (Input.agentStates st))));
     ("recentActions", VArr (map Input.entryValue (sliceLast 5 (Input.actionLog st))))].
  split; [reflexivity|]. simpl. split; reflexivity.
Qed.

(** X16. A record that INVESTIGATE stores can be read back. The command,
    given a target, answers SUCCESS, stores its record, with the target and
    the status ACTIVE, under the identifier it has generated and leaves the
    other records alone; a STATUS command with that identifier then
    reports the same record as [agentStatus]. *)
Theorem investigation_read_back (input t0 target : string) (details : list string)
  (st : Input.state) :
  Input.tokenizeInput (trim input) = t0 :: target :: details ->
  toUpperCase t0 = "INVESTIGATE" ->
  exists r st' rec,
    Input.processCommand env (Input.initializeCommands env) input st = Returned r st' /\
    Input.status r = "SUCCESS" /\
    Input.data r = VObj [("investigation", rec)] /\
    rec = VObj [("id", VStr (idAt env (Input.ticks st))); ("target", VStr target);
                ("details", VStr (join " " details)); ("status", VStr "ACTIVE");
                ("timestamp", VStr (isoAt env (S (Input.ticks st))));
                ("findings", VArr [])] /\
    Input.agentStates st' = <[idAt env (Input.ticks st) := rec]> (Input.agentStates st) /\
    (forall input2 s0,
       Input.tokenizeInput (trim input2) = [s0; idAt env (Input.ticks st)] ->
       toUpperCase s0 = "STATUS" ->
       exists r2 st2 fields,
         Input.processCommand env (Input.initializeCommands env) input2 st'
         = Returned r2 st2 /\
         Input.status r2 = "SUCCESS" /\
         Input.data r2 = VObj (fields ++ [("agentStatus", rec)])%list).
Proof.
  intros Htok Hcmd.
  pose proof (arguments_nonempty _ _ _ Htok) as Hargs.
  apply Forall_cons in Hargs as [Htarget _].
  destruct (handleInvestigate_given target details st Htarget)
    as (r & st1 & rec & Hh & Hok & _ & Hdata & Hrec & Hstored & _).
  assert (Hreg : Input.initializeCommands env !! toUpperCase t0
                 = Some (Input.handleInvestigate env))
    by (rewrite Hcmd; apply registry_INVESTIGATE).
  destruct (dispatch_state env _ input t0 _ _ r st st1 Htok Hreg Hh)
    as (st2 & Hrun & Hag & _).
  exists r, st2, rec. split; [exact Hrun|]. split; [exact Hok|].
  split; [exact Hdata|]. split; [exact Hrec|]. split; [congruence|].
  intros input2 s0 Htok2 Hcmd2.
  pose proof (arguments_nonempty _ _ _ Htok2) as Hargs2.
  apply Forall_cons in Hargs2 as [Hid _].
  destruct (handleStatus_found (idAt env (Input.ticks st)) rec st2 Hid)
    as (r2 & s2 & fields & Hh2 & Hok2 & Hdata2).
  { rewrite Hrec. reflexivity. }
  { rewrite Hag, Hstored. apply lookup_insert_eq. }
  assert (Hreg2 : Input.initializeCommands env !! toUpperCase s0
                  = Some (Input.handleStatus env))
    by (rewrite Hcmd2; apply registry_STATUS).
  destruct (dispatch_state env _ input2 s0 _ _ r2 st2 s2 Htok2 Hreg2 Hh2)
    as (s3 & Hrun2 & _).
  exists r2, s3, fields. split; [exact Hrun2|]. split; assumption.
Qed.

End Records.

(** A status request, on a processor at an elevated threat level. *)
Lemma reporting_commands_store_nothing_witness :
  exists r st',
    Input.processCommand Sample.env (Input.initializeCommands Sample.env)
      "debrief A1 saw lights" (Input.setThreatLevel (Some "ELEVATED") Input.initial)
    = Returned r st' /\
    Input.agentStates st' = ∅ /\
    Input.threatLevel st' = Some "ELEVATED".
Proof.
  apply (reporting_commands_store_nothing Sample.env "debrief A1 saw lights" "debrief"
           ["A1"; "saw"; "lights"]).
  - reflexivity.
  - do 2 apply list_elem_of_further. apply list_elem_of_here.
Defined.

(** An investigation of the site on a new processor. *)
Lemma investigation_read_back_witness :
  exists r st',
    Input.processCommand Sample.env (Input.initializeCommands Sample.env)
      "investigate site-7 at night" Input.initial = Returned r st' /\
    Input.status r = "SUCCESS" /\
    is_Some (Input.agentStates st' !! "DG-0").
Proof.
  destruct (investigation_read_back Sample.env "investigate site-7 at night"
              "investigate" "site-7" ["at"; "night"] Input.initial eq_refl eq_refl)
    as (r & st' & rec & Hrun & Hok & _ & _ & Hstored & _).
  exists r, st'. split; [exact Hrun|]. split; [exact Hok|].
  rewrite Hstored. change (idAt Sample.env (Input.ticks Input.initial)) with "DG-0".
  rewrite lookup_insert_eq. eauto.
Defined.

Section Words.

Variable env : Env.

(** X17. No token is empty, so a handler finds an argument falsy exactly
    when the input has no token at that position. *)
Theorem tokens_never_empty (s : string) :
  Forall (fun t => t <> "") (Input.tokenizeInput s) /\
  forall i, given (Input.tokenizeInput s !! i) = Input.tokenizeInput s !! i.
Proof.
  pose proof (tokenLoop_nonempty (S (String.length s)) s) as Hall.
  split; [exact Hall|].
  intros i. destruct (Input.tokenizeInput s !! i) as [t|] eqn:Hi; [|reflexivity].
  rewrite <- Hi. rewrite Hi at 2. apply given_token; assumption.
Qed.

Lemma append_empty (w : string) : String.append w "" = w.
Proof. induction w as [|c w IH]; [reflexivity | exact (f_equal (String c) IH)]. Qed.

Lemma bareRun_word (w rest : string) :
  forallb (fun c => negb (isSpace c || isQuote c)) (list_ascii_of_string w) = true ->
  Input.bareRun (w ++ rest)
  = (w ++ fst (Input.bareRun rest), snd (Input.bareRun rest)).
Proof.
  induction w as [|c w IH]; simpl.
  - intros _. change (String.append "" rest) with rest.
    destruct (Input.bareRun rest). reflexivity.
  - intros Hall. apply andb_prop in Hall as [Hc Hw].
    destruct (isSpace c || isQuote c); [discriminate|].
    rewrite (IH Hw). reflexivity.
Qed.

(** A word followed by the end of the input or by a space is the next
    match. *)
Lemma exec_word (w rest : string) :
  isWord w ->
  rest = "" \/ (exists r, rest = String " " r) ->
  Input.exec (w ++ rest)
  = Some {| Input.whole := w; Input.group1 := None; Input.after := rest |}.
Proof.
  intros [Hne Hchars] Hrest.
  assert (Hbare : Input.bareRun (w ++ rest) = (w, rest)).
  { rewrite (bareRun_word w rest Hchars).
    destruct Hrest as [->|[r ->]]; simpl; rewrite ?append_empty; reflexivity. }
  destruct w as [|c w]; [contradiction|].
  change (Input.exec (String c w ++ rest))
    with (match Input.matchHere (String c w ++ rest) with
          | Some m' => Some m'
          | None => Input.exec (w ++ rest)
          end).
  unfold Input.matchHere. rewrite Hbare. reflexivity.
Qed.

(** White space before the first token is skipped. *)
Lemma tokenizeInput_skip_space (r : string) :
  Input.tokenizeInput (String " " r) = Input.tokenizeInput r.
Proof.
  assert (Hexec : Input.exec (String " " r) = Input.exec r) by reflexivity.
  destruct (Input.exec r) as [m|] eqn:Hr.
  - rewrite (tokenizeInput_step _ m Hexec), (tokenizeInput_step _ m Hr). reflexivity.
  - unfold Input.tokenizeInput.
    change (Input.tokenLoop (S (String.length (String " " r))) (String " " r))
      with (match Input.exec r with
            | Some m' => Input.tokenOf m' :: Input.tokenLoop (String.length (String " " r)) (Input.after m')
            | None => []
            end).
    change (Input.tokenLoop (S (String.length r)) r)
      with (match Input.exec r with
            | Some m' => Input.tokenOf m' :: Input.tokenLoop (String.length r) (Input.after m')
            | None => []
            end).
    rewrite Hr. reflexivity.
Qed.

(** X18. Splitting recovers the words: for any list of words, each not empty
    and free of white space and of double quotes, the tokens of the words
    joined by single spaces are the words themselves. *)
Theorem tokenize_joined_words (words : list string) :
  Forall isWord words -> Input.tokenizeInput (join " " words) = words.
Proof.
  induction words as [|w words IH]; intros Hall; [reflexivity|].
  apply Forall_cons in Hall as [Hw Hwords].
  destruct words as [|w2 words].
  - simpl. rewrite <- (append_empty w) at 1.
    rewrite (tokenizeInput_step _ _ (exec_word w "" Hw (or_introl eq_refl))).
    reflexivity.
  - change (join " " (w :: w2 :: words)) with (w ++ String " " (join " " (w2 :: words))).
    rewrite (tokenizeInput_step _ _
               (exec_word w (String " " (join " " (w2 :: words))) Hw
                  (or_intror (ex_intro _ _ eq_refl)))).
    unfold Input.tokenOf. cbn [Input.group1 Input.whole Input.after].
    rewrite tokenizeInput_skip_space, (IH Hwords). reflexivity.
Qed.

End Words.

(** Three words of a command line. *)
Lemma tokenize_joined_words_witness :
  Input.tokenizeInput (join " " ["RETREAT"; "A1"; "compromised"])
  = ["RETREAT"; "A1"; "compromised"].
Proof.
  apply tokenize_joined_words.
  repeat constructor; discriminate.
Defined.

(** The quoted run of the specification's sample. *)
Lemma quoted_run_token_witness :
  Input.tokenizeInput (dq ++ "giant squid" ++ dq ++ " loud")
  = "giant squid" :: Input.tokenizeInput " loud".
Proof.
  apply (quoted_run_token "giant squid" " loud").
  - reflexivity.
  - discriminate.
Defined.

(** A command of the registry and a word that is no command. *)
Lemma processCommand_envelope_witness :
  exists r st',
    Input.processCommand Sample.env (Input.initializeCommands Sample.env)
      "sanitize site-7 fire" Input.initial = Returned r st' /\
    (Input.status r = "SUCCESS" \/ Input.status r = "ERROR").
Proof.
  apply (processCommand_envelope Sample.env "sanitize site-7 fire" Input.initial).
  right. vm_compute. discriminate.
Defined.

Section Help.

Variable env : Env.

Ltac registry_has :=
  unfold Input.initializeCommands, Input.registerCommand;
  repeat (rewrite lookup_insert_ne by (vm_compute; discriminate));
  rewrite lookup_insert_eq; eauto.

(** X20. The help table and the registry name the same commands: a name is
    registered by [initializeCommands] exactly when the help table has a
    line for it, and [generateHelpText], which reads the name without
    regard to case, answers [Command not found] exactly for the names that
    are not registered. *)
Theorem help_covers_registry (c : string) :
  (is_Some (Input.initializeCommands env !! c) <-> c ∈ map fst Input.commands) /\
  (c <> "" ->
   (Input.generateHelpText (Some c) = "Command not found" <->
    Input.initializeCommands env !! toUpperCase c = None)).
Proof.
  assert (Hreg : forall k, is_Some (Input.initializeCommands env !! k) <->
                           k ∈ map fst Input.commands).
  { intros k. split.
    - unfold Input.initializeCommands, Input.registerCommand. simpl.
      repeat (rewrite lookup_insert_is_Some;
              intros [<-|[_ Hrest]];
              [repeat first [apply list_elem_of_here | apply list_elem_of_further]
              | revert Hrest]).
      rewrite lookup_empty. intros [x Hx]. discriminate Hx.
    - simpl. intros Hk.
      repeat (apply elem_of_cons in Hk as [->|Hk]; [registry_has|]).
      apply elem_of_nil in Hk. contradiction. }
  split; [apply Hreg|].
  intros Hne. unfold Input.generateHelpText, given.
  destruct (String.eqb_spec c ""); [contradiction|].
  destruct (find (fun kv => String.eqb (fst kv) (toUpperCase c)) Input.commands)
    as [[k line]|] eqn:Hfind; simpl.
  - apply find_some in Hfind as [Hin Heq]. simpl in Heq.
    apply String.eqb_eq in Heq. subst k.
    assert (Hsome : is_Some (Input.initializeCommands env !! toUpperCase c)).
    { apply Hreg. apply list_elem_of_In.
      exact (in_map fst Input.commands (toUpperCase c, line) Hin). }
    split.
    + intros Hline. exfalso. revert Hline. apply list_elem_of_In in Hin. revert Hin.
      unfold Input.commands.
      repeat (rewrite elem_of_cons; intros [[= _ ->]|Hin];
              [intros Hline; discriminate Hline | revert Hin]).
      intros Hnil. apply elem_of_nil in Hnil. contradiction.
    + intros Hnone. rewrite Hnone in Hsome. destruct Hsome as [x Hx]. discriminate Hx.
  - split; [|reflexivity]. intros _.
    destruct (Input.initializeCommands env !! toUpperCase c) as [h|] eqn:Hlook; [|reflexivity].
    exfalso. assert (Hin : toUpperCase c ∈ map fst Input.commands)
      by (apply Hreg; rewrite Hlook; eauto).
    apply list_elem_of_In, in_map_iff in Hin as ([k line] & Hk & Hin). simpl in Hk.
    apply (find_none _ _ Hfind) in Hin. simpl in Hin.
    rewrite Hk, String.eqb_refl in Hin. discriminate Hin.
Qed.

End Help.

(** A command of the help table is registered. *)
Lemma help_covers_registry_witness :
  is_Some (Input.initializeCommands Sample.env !! "ESCALATE").
Proof.
  apply (proj1 (help_covers_registry Sample.env "ESCALATE")).
  simpl. repeat first [apply list_elem_of_here | apply list_elem_of_further].
Defined.

(** ** Properties of the campaign stores *)

Section Narrative.

Variable env : Env.
Variable nowAt : nat -> Z.

(** One call: the element returned and the narrative left behind. *)
Lemma injectNarrative_files (n : Campaign.narrativeInput) (st : Campaign.state) :
  exists e st',
    Campaign.injectNarrative env nowAt n st = Returned e st' /\
    Campaign.e_type e = strOr (Campaign.n_type n) "scene" /\
    Campaign.intensity e = clamp 1 10 (numOr (Campaign.n_intensity n) 5) /\
    Campaign.delivered e = false /\
    Campaign.narrative st' = Campaign.file e (Campaign.narrative st).
Proof.
  cbv beta iota zeta delta [Campaign.injectNarrative Campaign.dateNow Campaign.onCore
                            Context.isoNow JS.bind JS.modify JS.ret].
  eexists _, _. split; [reflexivity|]. repeat split.
Qed.

Lemma file_ofType (c : string) (e : Campaign.element) (l : list Campaign.element) :
  (l ++ ofType c [e])%list
  = if String.eqb (Campaign.e_type e) c then (l ++ [e])%list else l.
Proof.
  unfold ofType. simpl. destruct (String.eqb (Campaign.e_type e) c); [reflexivity|].
  apply app_nil_r.
Qed.

(** Filing one element, category by category. *)
Lemma file_categories (e : Campaign.element) (n : Campaign.narrativeStore) :
  Campaign.scenes (Campaign.file e n) = (Campaign.scenes n ++ ofType "scene" [e])%list /\
  Campaign.atmosphere (Campaign.file e n)
  = (Campaign.atmosphere n ++ ofType "atmosphere" [e])%list /\
  Campaign.clues (Campaign.file e n) = (Campaign.clues n ++ ofType "clue" [e])%list /\
  Campaign.revelations (Campaign.file e n)
  = (Campaign.revelations n ++ ofType "revelation" [e])%list.
Proof.
  rewrite !file_ofType. unfold Campaign.file.
  destruct (String.eqb_spec (Campaign.e_type e) "scene") as [Heq|_];
    [rewrite ?Heq; repeat split; reflexivity|].
  destruct (String.eqb_spec (Campaign.e_type e) "atmosphere") as [Heq|_];
    [rewrite ?Heq; repeat split; reflexivity|].
  destruct (String.eqb_spec (Campaign.e_type e) "clue") as [Heq|_];
    [rewrite ?Heq; repeat split; reflexivity|].
  destruct (String.eqb_spec (Campaign.e_type e) "revelation") as [Heq|_];
    repeat split; reflexivity.
Qed.

Lemma ofType_cons (c : string) (e : Campaign.element) (es : list Campaign.element) :
  ofType c (e :: es) = (ofType c [e] ++ ofType c es)%list.
Proof. unfold ofType. simpl. destruct (String.eqb (Campaign.e_type e) c); reflexivity. Qed.

(** An element of none of the four types is in no category. *)
Lemma ofType_unfiled (c : string) (es : list Campaign.element) :
  c ∈ categories ->
  Forall (fun e => Campaign.e_type e ∉ categories) es -> ofType c es = [].
Proof.
  intros Hc Hall. induction Hall as [|e es He _ IH]; [reflexivity|].
  rewrite ofType_cons, IH, app_nil_r. unfold ofType. simpl.
  destruct (String.eqb_spec (Campaign.e_type e) c) as [Heq|_]; [|reflexivity].
  exfalso. apply He. rewrite Heq. exact Hc.
Qed.

(** X22. The narrative files every element under its type, in the order of
    the calls, and loses the others. A run of [injectNarrative] returns one
    element for each input, of the type asked for ([scene] when none is),
    of an intensity from 1 to 10 and not delivered; each of the four
    categories grows by the returned elements of its type, in order; when
    nothing was delivered before, everything that is stored is pending; and
    elements of any other type are returned but stored nowhere, so that
    [getNarrativeState] answers as before. *)
Theorem narrative_filed_by_type (ns : list Campaign.narrativeInput) :
  forall st : Campaign.state,
  exists es st',
    Campaign.injectAll env nowAt ns st = Returned es st' /\
    map Campaign.e_type es = map (fun n => strOr (Campaign.n_type n) "scene") ns /\
    Forall (fun e => 1 <= Campaign.intensity e <= 10 /\ Campaign.delivered e = false) es /\
    Campaign.scenes (Campaign.narrative st')
    = (Campaign.scenes (Campaign.narrative st) ++ ofType "scene" es)%list /\
    Campaign.atmosphere (Campaign.narrative st')
    = (Campaign.atmosphere (Campaign.narrative st) ++ ofType "atmosphere" es)%list /\
    Campaign.clues (Campaign.narrative st')
    = (Campaign.clues (Campaign.narrative st) ++ ofType "clue" es)%list /\
    Campaign.revelations (Campaign.narrative st')
    = (Campaign.revelations (Campaign.narrative st) ++ ofType "revelation" es)%list /\
    (undelivered st ->
     Campaign.pendingNarrative (Campaign.getNarrativeState st')
     = (Campaign.scenes (Campaign.narrative st') ++
        Campaign.atmosphere (Campaign.narrative st') ++
        Campaign.clues (Campaign.narrative st') ++
        Campaign.revelations (Campaign.narrative st'))%list) /\
    (Forall (fun e => Campaign.e_type e ∉ categories) es ->
     Campaign.getNarrativeState st' = Campaign.getNarrativeState st).
Proof.
  assert (Hrun : forall st, exists es st',
    Campaign.injectAll env nowAt ns st = Returned es st' /\
    map Campaign.e_type es = map (fun n => strOr (Campaign.n_type n) "scene") ns /\
    Forall (fun e => 1 <= Campaign.intensity e <= 10 /\ Campaign.delivered e = false) es /\
    Campaign.scenes (Campaign.narrative st')
    = (Campaign.scenes (Campaign.narrative st) ++ ofType "scene" es)%list /\
    Campaign.atmosphere (Campaign.narrative st')
    = (Campaign.atmosphere (Campaign.narrative st) ++ ofType "atmosphere" es)%list /\
    Campaign.clues (Campaign.narrative st')
    = (Campaign.clues (Campaign.narrative st) ++ ofType "clue" es)%list /\
    Campaign.revelations (Campaign.narrative st')
    = (Campaign.revelations (Campaign.narrative st) ++ ofType "revelation" es)%list).
  { induction ns as [|n rest IH]; intros st.
    - exists [], st. split; [reflexivity|]. split; [reflexivity|]. split; [constructor|].
      unfold ofType. simpl. rewrite !app_nil_r. repeat split; reflexivity.
    - destruct (injectNarrative_files n st) as (e & st1 & Hcall & Htype & Hint & Hdel & Hnar).
      destruct (IH st1) as (es & st' & Hrest & Htypes & Hall & Hs & Ha & Hc & Hr).
      destruct (file_categories e (Campaign.narrative st)) as (Fs & Fa & Fc & Fr).
      exists (e :: es), st'.
      split.
      { change (Campaign.injectAll env nowAt (n :: rest))
          with (JS.bind (Campaign.injectNarrative env nowAt n)
                  (fun e => JS.bind (Campaign.injectAll env nowAt rest)
                              (fun es => JS.ret (e :: es)))).
        unfold JS.bind at 1. rewrite Hcall. unfold JS.bind. rewrite Hrest. reflexivity. }
      split; [simpl; rewrite Htype, Htypes; reflexivity|].
      split.
      { constructor; [|exact Hall]. split; [|exact Hdel].
        rewrite Hint. apply clamp_bounds. lia. }
      rewrite Hs, Ha, Hc, Hr, Hnar, Fs, Fa, Fc, Fr.
      rewrite (ofType_cons "scene" e es), (ofType_cons "atmosphere" e es),
        (ofType_cons "clue" e es), (ofType_cons "revelation" e es), <- !app_assoc.
      repeat split; reflexivity. }
  intros st. destruct (Hrun st) as (es & st' & Hall & Htypes & Hes & Hs & Ha & Hc & Hr).
  exists es, st'. repeat (split; [assumption|]).
  split.
  - intros Hold. unfold Campaign.getNarrativeState. cbn [Campaign.pendingNarrative].
    assert (Hnew : forall c, Forall (fun e => Campaign.delivered e = false) (ofType c es)).
    { intros c. unfold ofType. apply Forall_forall. intros e He.
      apply list_elem_of_In, filter_In in He as [He _].
      apply list_elem_of_In in He.
      exact (proj2 (proj1 (Forall_forall _ _) Hes e He)). }
    assert (Hstored : Forall (fun e => Campaign.delivered e = false)
      (Campaign.scenes (Campaign.narrative st') ++
       Campaign.atmosphere (Campaign.narrative st') ++
       Campaign.clues (Campaign.narrative st') ++
       Campaign.revelations (Campaign.narrative st'))%list).
    { unfold undelivered in Hold. rewrite !Forall_app in Hold.
      destruct Hold as (Os & Oa & Oc & Or).
      rewrite Hs, Ha, Hc, Hr, !Forall_app. repeat split; auto. }
    revert Hstored.
    generalize (Campaign.scenes (Campaign.narrative st') ++
                Campaign.atmosphere (Campaign.narrative st') ++
                Campaign.clues (Campaign.narrative st') ++
                Campaign.revelations (Campaign.narrative st'))%list.
    intros l Hl. induction Hl as [|e l He _ IH]; [reflexivity|].
    simpl. rewrite He. simpl. rewrite IH. reflexivity.
  - intros Hnone. unfold Campaign.getNarrativeState.
    rewrite Hs, Ha, Hc, Hr.
    rewrite !(ofType_unfiled _ es) by
      (try exact Hnone; unfold categories;
       repeat first [apply list_elem_of_here | apply list_elem_of_further]).
    rewrite !app_nil_r. reflexivity.
Qed.

End Narrative.

Section ActiveThreats.

Variable env : Env.

Lemma insertByLevel_perm (t : Context.threat) (l : list Context.threat) :
  Campaign.insertByLevel t l ≡ₚ t :: l.
Proof.
  induction l as [|u l IH]; simpl; [reflexivity|].
  destruct (Context.threatLevel u <=? Context.threatLevel t); [reflexivity|].
  rewrite IH. apply Permutation_swap.
Qed.

Lemma sortByLevel_perm (l : list Context.threat) : Campaign.sortByLevel l ≡ₚ l.
Proof.
  induction l as [|t l IH]; [reflexivity|].
  change (Campaign.sortByLevel (t :: l))
    with (Campaign.insertByLevel t (Campaign.sortByLevel l)).
  rewrite insertByLevel_perm, IH. reflexivity.
Qed.

Lemma insertByLevel_descending (t : Context.threat) (l : list Context.threat) :
  descending l -> descending (Campaign.insertByLevel t l).
Proof.
  induction l as [|u l IH]; simpl.
  - intros _. split; [constructor | exact I].
  - intros [Hu Hl]. destruct (Z.leb_spec (Context.threatLevel u) (Context.threatLevel t)).
    + simpl. split; [|split; assumption].
      constructor; [assumption|].
      eapply Forall_impl; [exact Hu|]. simpl. intros v Hv. lia.
    + simpl. split; [|apply IH; exact Hl].
      rewrite insertByLevel_perm. constructor; [lia | exact Hu].
Qed.

Lemma sortByLevel_descending (l : list Context.threat) :
  descending (Campaign.sortByLevel l).
Proof.
  induction l as [|t l IH]; [exact I|].
  apply insertByLevel_descending. exact IH.
Qed.

(** A threat is put before the threats of its level. *)
Lemma atLevel_insert (lvl : Z) (t : Context.threat) (l : list Context.threat) :
  atLevel lvl (Campaign.insertByLevel t l) = atLevel lvl (t :: l).
Proof.
  induction l as [|u l IH]; [reflexivity|]. simpl.
  destruct (Z.leb_spec (Context.threatLevel u) (Context.threatLevel t)) as [Hle|Hlt];
    [reflexivity|].
  unfold atLevel in *. simpl in *. rewrite IH.
  destruct (Z.eqb_spec (Context.threatLevel t) lvl) as [Ht|_]; [|reflexivity].
  destruct (Z.eqb_spec (Context.threatLevel u) lvl) as [Hu|_]; [lia | reflexivity].
Qed.

Lemma atLevel_sort (lvl : Z) (l : list Context.threat) :
  atLevel lvl (Campaign.sortByLevel l) = atLevel lvl l.
Proof.
  induction l as [|t l IH]; [reflexivity|].
  change (Campaign.sortByLevel (t :: l))
    with (Campaign.insertByLevel t (Campaign.sortByLevel l)).
  rewrite atLevel_insert. unfold atLevel in *. simpl. rewrite IH. reflexivity.
Qed.

(** X23. [getActiveThreats] lists the threats that pass its test, each as
    often as the Map holds it, the highest level first and, among threats
    of one level, in the order of the Map. A listed threat is active and,
    when a minimum other than 0 is asked for, at or above the minimum. *)
Theorem getActiveThreats_sorted (minThreatLevel : option Z) (st : Campaign.state) :
  descending (Campaign.getActiveThreats minThreatLevel st) /\
  Campaign.getActiveThreats minThreatLevel st
  ≡ₚ List.filter (Campaign.listed minThreatLevel) (Campaign.threatValues st) /\
  (forall lvl,
     atLevel lvl (Campaign.getActiveThreats minThreatLevel st)
     = atLevel lvl (List.filter (Campaign.listed minThreatLevel)
                      (Campaign.threatValues st))) /\
  Forall (fun t =>
            Context.x_status t = "active" /\
            forall m, minThreatLevel = Some m -> m <> 0 -> m <= Context.threatLevel t)
    (Campaign.getActiveThreats minThreatLevel st).
Proof.
  unfold Campaign.getActiveThreats.
  split; [apply sortByLevel_descending|].
  split; [apply sortByLevel_perm|].
  split; [intros lvl; apply atLevel_sort|].
  rewrite sortByLevel_perm. apply Forall_forall. intros t Ht.
  apply list_elem_of_In, filter_In in Ht as [_ Htest].
  unfold Campaign.listed in Htest. apply andb_prop in Htest as [Hactive Hmin].
  split; [apply String.eqb_eq; exact Hactive|].
  intros m -> Hm. simpl in Hmin.
  destruct (Z.eqb_spec m 0); [contradiction|]. simpl in Hmin.
  destruct (Z.ltb_spec (Context.threatLevel t) m); [discriminate | lia].
Qed.

Lemma omap_unchanged {A : Type} (f g : string -> option A) (l : list string) :
  (forall k, k ∈ l -> f k = g k) -> omap f l = omap g l.
Proof.
  induction l as [|k l IH]; intros Hsame; [reflexivity|]. csimpl.
  rewrite (Hsame k) by apply list_elem_of_here.
  rewrite IH; [reflexivity|]. intros k' Hk'. apply Hsame. apply list_elem_of_further. exact Hk'.
Qed.

Lemma noteKey_new (k : string) (order : list string) :
  k ∉ order -> Campaign.noteKey k order = (order ++ [k])%list.
Proof.
  intros Hnew. unfold Campaign.noteKey.
  destruct (existsb (String.eqb k) order) eqn:Hex; [|reflexivity].
  exfalso. apply Hnew. apply existsb_exists in Hex as (k' & Hin & Heq).
  apply String.eqb_eq in Heq. subst k'. apply list_elem_of_In. exact Hin.
Qed.

Lemma tracked_initial : tracked Campaign.initial.
Proof.
  split; [|split].
  - split; [constructor|]. intros k. simpl. rewrite lookup_empty. split.
    + intros Hk. apply elem_of_nil in Hk. contradiction.
    + intros [x Hx]. discriminate Hx.
  - apply threatsNumbered_initial.
  - intros k t Hk. simpl in Hk. rewrite lookup_empty in Hk. discriminate Hk.
Qed.

(** One threat more: it goes to the end of the Map. *)
Lemma createThreatAssessment_tracked (input : Context.threatInput) (st : Campaign.state) :
  tracked st ->
  exists t st',
    Campaign.createThreatAssessment env input st = Returned t st' /\
    tracked st' /\
    Campaign.threatValues st' = (Campaign.threatValues st ++ [t])%list /\
    Context.threatLevel t = clamp 1 10 (numOr (Context.th_threat_level input) 5).
Proof.
  intros ((Hnodup & Horder) & Hnum & Hrange).
  destruct (createThreatAssessment_stored env input (Campaign.core st))
    as (t & c & Hrun & Hid & Hthreats & Hlevel & Hactive & _).
  pose proof (threatKey_fresh _ Hnum) as Hfresh. rewrite <- Hid in Hfresh.
  assert (Hnew : Context.x_id t ∉ Campaign.threatOrder st).
  { intros Hin. apply Horder in Hin. rewrite Hfresh in Hin.
    destruct Hin as [x Hx]. discriminate Hx. }
  unfold Campaign.createThreatAssessment, Campaign.onCore, JS.bind, JS.modify, JS.ret.
  rewrite Hrun. eexists _, _. split; [reflexivity|].
  unfold tracked, ordered, assessed, Campaign.threatValues.
  cbn [Campaign.core Campaign.threatOrder Campaign.setThreatOrder Campaign.setCore].
  rewrite (noteKey_new _ _ Hnew), Hthreats.
  split; [split; [split|split]|split].
  - apply NoDup_app. split; [exact Hnodup|]. split.
    + intros k Hk Hk'. apply list_elem_of_singleton in Hk'. subst k. contradiction.
    + apply NoDup_singleton.
  - intros k. rewrite elem_of_app, list_elem_of_singleton, lookup_insert_is_Some, Horder.
    split.
    + intros [Hk| ->]; [|left; reflexivity].
      destruct (decide (Context.x_id t = k)) as [Heq|Hne]; [left; exact Heq|].
      right. split; assumption.
    + intros [<-|[_ Hk]]; [right; reflexivity | left; exact Hk].
  - apply (threatsNumbered_next (Campaign.core st) c t Hnum).
    rewrite Hthreats, Hid. reflexivity.
  - intros k t0. rewrite lookup_insert_Some.
    intros [[_ <-]|[_ Hk]]; [|apply (Hrange k t0 Hk)].
    split; [exact Hactive|]. rewrite Hlevel. apply clamp_bounds. lia.
  - rewrite omap_app. simpl. rewrite lookup_insert_eq. simpl. f_equal.
    apply omap_unchanged. intros k Hk. apply lookup_insert_ne.
    intros <-. contradiction.
  - exact Hlevel.
Qed.

(** The threats of the Map are those stored under its keys. *)
Lemma threatValues_stored (st : Campaign.state) (t : Context.threat) :
  t ∈ Campaign.threatValues st ->
  exists k, Context.threats (Campaign.core st) !! k = Some t.
Proof.
  unfold Campaign.threatValues. intros Ht.
  apply list_elem_of_omap in Ht as (k & _ & Hk). exists k. exact Hk.
Qed.

(** Without filter, every threat of an assessed Map passes the test. *)
Lemma assessed_all_listed (st : Campaign.state) :
  assessed st ->
  List.filter (Campaign.listed None) (Campaign.threatValues st) = Campaign.threatValues st.
Proof.
  intros Hrange.
  assert (Hall : Forall (fun t => Campaign.listed None t = true) (Campaign.threatValues st)).
  { apply Forall_forall. intros t Ht.
    destruct (threatValues_stored st t Ht) as (k & Hk).
    destruct (Hrange k t Hk) as [Hactive _].
    unfold Campaign.listed. rewrite Hactive. reflexivity. }
  induction Hall as [|t l Ht _ IH]; [reflexivity|].
  simpl. rewrite Ht, IH. reflexivity.
Qed.

(** A run of [createThreatAssessment]: the new threats go to the end of the
    Map, in order. *)
Lemma assessAll_tracked (inputs : list Context.threatInput) :
  forall st : Campaign.state,
    tracked st ->
    exists ts st',
      Campaign.assessAll env inputs st = Returned ts st' /\
      tracked st' /\
      Campaign.threatValues st' = (Campaign.threatValues st ++ ts)%list /\
      map Context.threatLevel ts
      = map (fun input => clamp 1 10 (numOr (Context.th_threat_level input) 5)) inputs.
Proof.
  induction inputs as [|input rest IH]; intros st Hst.
  - exists [], st. split; [reflexivity|]. split; [exact Hst|].
    rewrite app_nil_r. split; reflexivity.
  - destruct (createThreatAssessment_tracked input st Hst)
      as (t & st1 & Hcall & Hst1 & Hvalues1 & Hlevel).
    destruct (IH st1 Hst1) as (ts & st' & Hrest & Hst' & Hvalues & Hlevels).
    exists (t :: ts), st'. split.
    { change (Campaign.assessAll env (input :: rest))
        with (JS.bind (Campaign.createThreatAssessment env input)
                (fun t => JS.bind (Campaign.assessAll env rest)
                            (fun ts => JS.ret (t :: ts)))).
      unfold JS.bind at 1. rewrite Hcall. unfold JS.bind. rewrite Hrest. reflexivity. }
    split; [exact Hst'|].
    split; [rewrite Hvalues, Hvalues1, <- app_assoc; reflexivity|].
    simpl. rewrite Hlevel, Hlevels. reflexivity.
Qed.

(** X24. Every threat assessed is listed. On a manager that has stored its
    threats by [createThreatAssessment] only, as after the constructor, a
    run of [createThreatAssessment] puts the new threats at the end of the
    Map, in order, each at the clamp of the level asked for, and
    [getActiveThreats], called without filter, then lists the threats of
    the Map from the highest level down: no threat is left out. *)
Theorem assessed_threats_listed (inputs : list Context.threatInput) :
  tracked Campaign.initial /\
  forall st : Campaign.state,
    tracked st ->
    exists ts st',
      Campaign.assessAll env inputs st = Returned ts st' /\
      tracked st' /\
      Campaign.threatValues st' = (Campaign.threatValues st ++ ts)%list /\
      map Context.threatLevel ts
      = map (fun input => clamp 1 10 (numOr (Context.th_threat_level input) 5)) inputs /\
      Campaign.getActiveThreats None st'
      = Campaign.sortByLevel (Campaign.threatValues st ++ ts).
Proof.
  split; [exact tracked_initial|].
  intros st Hst.
  destruct (assessAll_tracked inputs st Hst) as (ts & st' & Hall & Hst' & Hvalues & Hlevels).
  exists ts, st'. repeat (split; [assumption|]).
  unfold Campaign.getActiveThreats. rewrite <- Hvalues. f_equal.
  apply assessed_all_listed. apply Hst'.
Qed.

End ActiveThreats.

Section Summary.

Variable env : Env.

Lemma roundDiv_bounds (total n lo hi : Z) :
  0 < n -> lo * n <= total <= hi * n -> lo <= Campaign.roundDiv total n <= hi.
Proof.
  intros Hn [Hlo Hhi]. unfold Campaign.roundDiv. split.
  - apply Z.div_le_lower_bound; nia.
  - assert (Hlt : (2 * total + n) / (2 * n) < hi + 1); [|lia].
    apply Z.div_lt_upper_bound; nia.
Qed.

Lemma foldl_totalLevel (l : list Context.threat) (acc : Z) :
  foldl (fun sum t => sum + Context.threatLevel t) acc l = acc + totalLevel l.
Proof.
  revert acc. induction l as [|t l IH]; intros acc; simpl; [lia|].
  rewrite IH. unfold totalLevel. simpl. lia.
Qed.

Lemma totalLevel_perm (l l' : list Context.threat) :
  l ≡ₚ l' -> totalLevel l = totalLevel l'.
Proof.
  induction 1 as [|t l l' _ IH|t u l|l1 l2 l3 _ IH1 _ IH2]; unfold totalLevel in *; simpl;
    [reflexivity | rewrite IH; reflexivity | lia | congruence].
Qed.

Lemma totalLevel_bounds (l : list Context.threat) :
  Forall (fun t => 1 <= Context.threatLevel t <= 10) l ->
  1 * Z.of_nat (length l) <= totalLevel l <= 10 * Z.of_nat (length l).
Proof.
  induction 1 as [|t l Ht _ IH]; unfold totalLevel in *; simpl length; simpl foldr; lia.
Qed.

(** X25. The overall threat level is the mean of the levels of the
    threats, rounded to the nearest integer. On a manager whose threats are
    active, at levels from 1 to 10, [calculateThreatLevel] answers 0 when
    there is no threat, and only then: with at least one threat the answer
    is a level from 1 to 10. *)
Theorem calculateThreatLevel_range (st : Campaign.state) :
  assessed st ->
  (Campaign.threatValues st = [] -> Campaign.calculateThreatLevel st = 0) /\
  (Campaign.threatValues st <> [] ->
   Campaign.calculateThreatLevel st
   = Campaign.roundDiv (totalLevel (Campaign.threatValues st))
       (Z.of_nat (length (Campaign.threatValues st))) /\
   1 <= Campaign.calculateThreatLevel st <= 10).
Proof.
  intros Hrange.
  assert (Hlevels : Forall (fun t => 1 <= Context.threatLevel t <= 10)
                      (Campaign.threatValues st)).
  { apply Forall_forall. intros t Ht.
    destruct (threatValues_stored st t Ht) as (k & Hk). apply (Hrange k t Hk). }
  assert (Hperm : Campaign.getActiveThreats None st ≡ₚ Campaign.threatValues st).
  { unfold Campaign.getActiveThreats.
    rewrite (assessed_all_listed st Hrange). apply sortByLevel_perm. }
  unfold Campaign.calculateThreatLevel.
  destruct (Campaign.getActiveThreats None st) as [|t l] eqn:Hactive.
  - split; [reflexivity|]. intros Hne. exfalso. apply Hne.
    symmetry in Hperm. apply Permutation_nil_r in Hperm. exact Hperm.
  - split.
    + intros Hnil. rewrite Hnil in Hperm. apply Permutation_nil_r in Hperm.
      discriminate Hperm.
    + intros _. rewrite foldl_totalLevel, Z.add_0_l.
      rewrite (totalLevel_perm _ _ Hperm), (Permutation_length Hperm).
      split; [reflexivity|].
      apply roundDiv_bounds; [|apply totalLevel_bounds; exact Hlevels].
      rewrite <- (Permutation_length Hperm). simpl length. lia.
Qed.

Lemma paired_cleared (c : Context.state) :
  paired (Context.setSanityTracker (fun _ => ∅) (Context.setAgents (fun _ => ∅) c)).
Proof.
  split; [reflexivity|]. intros id t Ht. simpl in Ht. rewrite lookup_empty in Ht.
  discriminate Ht.
Qed.

Lemma tracked_cleared (st : Campaign.state) :
  Campaign.threatOrder st = [] -> Context.threats (Campaign.core st) = ∅ -> tracked st.
Proof.
  intros Horder Hthreats. split; [|split].
  - split; [rewrite Horder; constructor|]. intros k. rewrite Horder, Hthreats, lookup_empty.
    split.
    + intros Hk. apply elem_of_nil in Hk. contradiction.
    + intros [x Hx]. discriminate Hx.
  - intros k. rewrite Hthreats, lookup_empty, map_size_empty. split.
    + intros [x Hx]. discriminate Hx.
    + intros (n & Hn & _). lia.
  - intros k t. rewrite Hthreats, lookup_empty. discriminate.
Qed.

(** What [resetCampaign] leaves behind. *)
Lemma resetCampaign_result (config : Campaign.resetConfig) (st : Campaign.state) :
  exists st',
    Campaign.resetCampaign config st = Returned tt st' /\
    Campaign.threatOrder st' = [] /\
    Context.threats (Campaign.core st') = ∅ /\
    Campaign.missions st' = [] /\
    Campaign.missionLog st' = [] /\
    Campaign.narrative st' = Campaign.noNarrative /\
    Context.ticks (Campaign.core st') = Context.ticks (Campaign.core st) /\
    Context.agents (Campaign.core st')
    = (if Campaign.preserveAgents config then Context.agents (Campaign.core st) else ∅) /\
    Context.sanityTracker (Campaign.core st')
    = (if Campaign.preserveAgents config
       then Context.sanityTracker (Campaign.core st) else ∅) /\
    Context.teams (Campaign.core st')
    = (if Campaign.preserveTeams config then Context.teams (Campaign.core st) else ∅) /\
    Campaign.worldState st'
    = (if Campaign.resetWorldState config then VObj [] else Campaign.worldState st).
Proof.
  unfold Campaign.resetCampaign.
  destruct (Campaign.preserveAgents config), (Campaign.preserveTeams config),
    (Campaign.resetWorldState config);
    (eexists; split; [reflexivity|]; repeat split).
Qed.

(** X26. [resetCampaign] starts the campaign over. Whatever the
    configuration, the call returns and leaves no threat, no mission and no
    narrative, so that the listings are empty, the overall threat level is
    0 and the next threat is numbered [THREAT-1] again. Agents and
    trackers are kept together or dropped together, so that they stay
    paired; the teams are kept or dropped on their own flag, also when
    their members are dropped. *)
Theorem resetCampaign_starts_over (config : Campaign.resetConfig) (st : Campaign.state) :
  exists st',
    Campaign.resetCampaign config st = Returned tt st' /\
    tracked st' /\
    Campaign.getNarrativeState st' = Campaign.getNarrativeState Campaign.initial /\
    Campaign.getCurrentMission st' = None /\
    (forall minThreatLevel, Campaign.getActiveThreats minThreatLevel st' = []) /\
    Campaign.calculateThreatLevel st' = 0 /\
    (forall input, exists t st'',
       Campaign.createThreatAssessment env input st' = Returned t st'' /\
       Context.x_id t = "THREAT-1") /\
    (paired (Campaign.core st) -> paired (Campaign.core st')) /\
    (if Campaign.preserveAgents config
     then Context.agents (Campaign.core st') = Context.agents (Campaign.core st) /\
          Context.sanityTracker (Campaign.core st')
          = Context.sanityTracker (Campaign.core st)
     else Context.agents (Campaign.core st') = ∅ /\
          Context.sanityTracker (Campaign.core st') = ∅) /\
    (if Campaign.preserveTeams config
     then Context.teams (Campaign.core st') = Context.teams (Campaign.core st)
     else Context.teams (Campaign.core st') = ∅).
Proof.
  destruct (resetCampaign_result config st)
    as (st' & Hrun & Horder & Hthreats & Hmissions & _ & Hnarrative & _ &
        Hagents & Htrackers & Hteams & _).
  exists st'. split; [exact Hrun|].
  assert (Hvalues : Campaign.threatValues st' = []).
  { unfold Campaign.threatValues. rewrite Horder. reflexivity. }
  split; [apply tracked_cleared; assumption|].
  split; [unfold Campaign.getNarrativeState; rewrite Hnarrative; reflexivity|].
  split; [unfold Campaign.getCurrentMission; rewrite Hmissions; reflexivity|].
  split; [intros m; unfold Campaign.getActiveThreats; rewrite Hvalues; reflexivity|].
  split.
  { unfold Campaign.calculateThreatLevel, Campaign.getActiveThreats.
    rewrite Hvalues. reflexivity. }
  split.
  { intros input.
    destruct (createThreatAssessment_stored env input (Campaign.core st'))
      as (t & c & Hcreate & Hid & _).
    unfold Campaign.createThreatAssessment, Campaign.onCore, JS.bind, JS.modify, JS.ret.
    rewrite Hcreate. eexists _, _. split; [reflexivity|].
    rewrite Hid, Hthreats, map_size_empty. reflexivity. }
  split.
  { intros [Hdom Hpair]. split.
    - rewrite Hagents, Htrackers. destruct (Campaign.preserveAgents config);
        [exact Hdom | reflexivity].
    - intros id t. rewrite Hagents, Htrackers.
      destruct (Campaign.preserveAgents config); [apply Hpair|].
      rewrite lookup_empty. discriminate. }
  split.
  - rewrite Hagents, Htrackers. destruct (Campaign.preserveAgents config); split; reflexivity.
  - rewrite Hteams. destruct (Campaign.preserveTeams config); reflexivity.
Qed.

(** The sum that [reduce] builds over agents whose sanity is a number. *)
Lemma foldl_sanity (lo hi : Z) (l : list (gmap string value)) :
  Forall (fun a => exists n, Campaign.sanityOf a = Some n /\ lo <= n <= hi) l ->
  forall acc, exists total,
    foldl (fun sum a => s ← sum; n ← Campaign.sanityOf a; Some (s + n)) (Some acc) l
    = Some (acc + total) /\
    lo * Z.of_nat (length l) <= total <= hi * Z.of_nat (length l).
Proof.
  induction 1 as [|a l (n & Hn & Hrange) _ IH]; intros acc.
  - exists 0. split; [simpl; f_equal; lia | simpl; lia].
  - simpl foldl. rewrite Hn. simpl.
    destruct (IH (acc + n)) as (total & Hfold & Hbounds).
    exists (n + total). split; [rewrite Hfold; f_equal; lia|].
    simpl length. lia.
Qed.

(** X27. The average sanity lies between the lowest and the highest sanity.
    On a manager whose agents are paired with their trackers,
    [calculateAverageSanity] returns a number: 0 when no agent is
    registered, and otherwise a value within any bounds that hold the
    current sanity of every tracker. *)
Theorem calculateAverageSanity_between (st : Campaign.state) (lo hi : Z) :
  paired (Campaign.core st) ->
  (forall id t, Context.sanityTracker (Campaign.core st) !! id = Some t ->
     lo <= Context.current t <= hi) ->
  exists average,
    Campaign.calculateAverageSanity st = Some average /\
    (Context.agents (Campaign.core st) = ∅ -> average = 0) /\
    (Context.agents (Campaign.core st) <> ∅ -> lo <= average <= hi).
Proof.
  intros [Hdom Hpair] Hbounds. unfold Campaign.calculateAverageSanity.
  destruct (decide (size (Context.agents (Campaign.core st)) = 0%nat)) as [Hzero|Hsome].
  - exists 0. split; [reflexivity|]. split; [reflexivity|].
    intros Hne. exfalso. apply Hne. apply map_size_empty_iff. exact Hzero.
  - assert (Hall : Forall (fun a => exists n, Campaign.sanityOf a = Some n /\ lo <= n <= hi)
                     (snd <$> map_to_list (Context.agents (Campaign.core st)))).
    { apply Forall_forall. intros a Ha.
      apply list_elem_of_fmap in Ha as ([id a'] & -> & Hin). simpl.
      apply elem_of_map_to_list in Hin.
      assert (Hid : id ∈ dom (Context.sanityTracker (Campaign.core st))).
      { rewrite <- Hdom. apply elem_of_dom. eauto. }
      apply elem_of_dom in Hid as [t Ht].
      destruct (Hpair id t Ht) as (a0 & Ha0 & Hsanity).
      rewrite Hin in Ha0. injection Ha0 as <-.
      exists (Context.current t). split; [|apply (Hbounds id t Ht)].
      unfold Campaign.sanityOf. rewrite Hsanity. reflexivity. }
    destruct (foldl_sanity lo hi _ Hall 0) as (total & Hfold & Htotal).
    rewrite Hfold. simpl.
    rewrite length_fmap, length_map_to_list in Htotal.
    eexists. split; [reflexivity|]. split.
    + intros Hempty. rewrite Hempty, map_size_empty in Hsome. contradiction.
    + intros _. apply roundDiv_bounds; lia.
Qed.

End Summary.

Section Missions.

Variable env : Env.
Variable nowAt : nat -> Z.

Lemma pretty_N_char_noDash (x : N) : Ascii.eqb (pretty_N_char x) "-" = false.
Proof. unfold pretty_N_char. repeat case_match; reflexivity. Qed.

Lemma noDash_app (d1 d2 : string) : noDash d1 -> noDash d2 -> noDash (d1 ++ d2).
Proof.
  unfold noDash. induction d1 as [|c d1 IH]; simpl; [auto|].
  intros Hd1 Hd2. apply andb_prop in Hd1 as [Hc Hd1].
  rewrite Hc. simpl. apply IH; assumption.
Qed.

Lemma append_assoc (a b c : string) :
  String.append (String.append a b) c = String.append a (String.append b c).
Proof. induction a as [|x a IH]; [reflexivity | exact (f_equal (String x) IH)]. Qed.

(** The digits of a number are put before the text given. *)
Lemma pretty_N_go_digits (x : N) :
  forall s, exists d, noDash d /\ pretty_N_go x s = String.append d s.
Proof.
  induction x as [x IH] using (well_founded_induction N.lt_wf_0). intros s.
  destruct (decide (x = 0%N)) as [->|Hpos].
  - exists "". split; [reflexivity|]. apply pretty_N_go_0.
  - rewrite pretty_N_go_step by lia.
    destruct (IH (x `div` 10)%N) with (s := String (pretty_N_char (x `mod` 10)) s)
      as (d & Hd & Hgo).
    { apply N.div_lt; lia. }
    exists (String.append d (String (pretty_N_char (x `mod` 10)) "")). split.
    + apply noDash_app; [exact Hd|]. unfold noDash. simpl.
      rewrite pretty_N_char_noDash. reflexivity.
    + rewrite Hgo, append_assoc. reflexivity.
Qed.

Lemma pretty_nat_noDash (n : nat) : noDash (pretty n).
Proof.
  unfold pretty, pretty_nat, pretty, pretty_N.
  destruct (decide (N.of_nat n = 0%N)); [reflexivity|].
  destruct (pretty_N_go_digits (N.of_nat n) "") as (d & Hd & ->).
  apply noDash_app; [exact Hd | reflexivity].
Qed.

(** Two texts that agree up to their first dash. *)
Lemma dash_split (d1 d2 s1 s2 : string) :
  noDash d1 -> noDash d2 ->
  String.append d1 (String "-" s1) = String.append d2 (String "-" s2) -> d1 = d2.
Proof.
  unfold noDash. revert d2. induction d1 as [|c d1 IH]; intros [|c2 d2]; simpl.
  - reflexivity.
  - intros _ Hd2 [= <- _]. discriminate Hd2.
  - intros Hd1 _ [= -> _]. discriminate Hd1.
  - intros Hd1 Hd2 [= <- Heq].
    apply andb_prop in Hd1 as [_ Hd1]. apply andb_prop in Hd2 as [_ Hd2].
    f_equal. apply (IH d2 Hd1 Hd2 Heq).
Qed.

Lemma missionKey_number (n n' : nat) (now now' : Z) :
  missionKey n now = missionKey n' now' -> n = n'.
Proof.
  unfold missionKey. simpl. intros [= Heq].
  apply dash_split in Heq; [|apply pretty_nat_noDash ..].
  exact (inj pretty n n' Heq).
Qed.

Lemma mapSet_new {V : Type} (k : string) (v : V) (m : list (string * V)) :
  Forall (fun kv => fst kv <> k) m -> Campaign.mapSet k v m = (m ++ [(k, v)])%list.
Proof.
  intros Hnew. unfold Campaign.mapSet.
  destruct (existsb (fun kv => String.eqb (fst kv) k) m) eqn:Hex; [|reflexivity].
  exfalso. apply existsb_exists in Hex as (kv & Hin & Heq).
  apply String.eqb_eq in Heq. apply list_elem_of_In in Hin.
  exact (proj1 (Forall_forall _ _) Hnew kv Hin Heq).
Qed.

Lemma briefed_initial : briefed Campaign.initial.
Proof. intros i k m Hi. simpl in Hi. rewrite lookup_nil in Hi. discriminate Hi. Qed.

(** X28. The mission briefed last is the current mission. On a manager
    whose missions were stored by [generateMissionBriefing] only, as after
    the constructor or a reset, the key of a new briefing is never that of
    a mission of the Map, so the mission goes to the end of the Map and
    replaces none; it is active, as every mission stays, and
    [getCurrentMission] returns it. *)
Theorem latest_briefing_is_current (b : Campaign.briefing) (st : Campaign.state) :
  briefed Campaign.initial /\
  (briefed st ->
   exists m st',
     Campaign.generateMissionBriefing env nowAt b st = Returned m st' /\
     Campaign.missions st' = (Campaign.missions st ++ [(Campaign.m_id m, m)])%list /\
     Campaign.getCurrentMission st' = Some m /\
     length (Campaign.missionLog st') = S (length (Campaign.missionLog st)) /\
     briefed st').
Proof.
  split; [exact briefed_initial|]. intros Hst.
  set (k := missionKey (S (length (Campaign.missions st)))
              (nowAt (Context.ticks (Campaign.core st)))).
  assert (Hnew : Forall (fun kv => fst kv <> k) (Campaign.missions st)).
  { apply Forall_lookup. intros i [k' m'] Hi. simpl. intros Heq.
    destruct (Hst i k' m' Hi) as (_ & _ & now' & Hk').
    rewrite Hk' in Heq. apply missionKey_number in Heq.
    apply lookup_lt_Some in Hi. lia. }
  cbv beta iota zeta delta [Campaign.generateMissionBriefing Campaign.dateNow
                            Campaign.onCore Context.isoNow JS.bind JS.get JS.modify JS.ret].
  cbn [Campaign.core Campaign.missions Campaign.setCore Campaign.setMissions
       Campaign.setMissionLog Campaign.m_id].
  rewrite Nat.add_1_r. fold k.
  eexists _, _. split; [reflexivity|].
  unfold Campaign.getCurrentMission, briefed.
  cbn [Campaign.core Campaign.missions Campaign.missionLog Campaign.setCore
       Campaign.setMissions Campaign.setMissionLog Campaign.m_id].
  rewrite !(mapSet_new _ _ _ Hnew).
  split; [reflexivity|].
  split.
  { rewrite fmap_app, List.filter_app. simpl. apply last_snoc. }
  split; [rewrite length_app; simpl; lia|].
  intros i k' m'. rewrite lookup_app_Some.
  intros [Hi|[Hlen Hi]]; [apply (Hst i k' m' Hi)|].
  destruct (i - length (Campaign.missions st))%nat as [|j] eqn:Hj; [|discriminate Hi].
  simpl in Hi. injection Hi as <- <-.
  split; [reflexivity|]. split; [reflexivity|].
  exists (nowAt (Context.ticks (Campaign.core st))). unfold k.
  replace i with (length (Campaign.missions st)) by lia. reflexivity.
Qed.

End Missions.

(** A scene and a rumour, which is no type of the narrative, told to a new
    manager. *)
Lemma narrative_filed_by_type_witness :
  exists es st',
    Campaign.injectAll Sample.env Z.of_nat
      [narrativeOfType "scene"; narrativeOfType "rumour"] Campaign.initial
    = Returned es st' /\
    Campaign.pendingNarrative (Campaign.getNarrativeState st')
    = (Campaign.scenes (Campaign.narrative st') ++
       Campaign.atmosphere (Campaign.narrative st') ++
       Campaign.clues (Campaign.narrative st') ++
       Campaign.revelations (Campaign.narrative st'))%list.
Proof.
  destruct (narrative_filed_by_type Sample.env Z.of_nat
              [narrativeOfType "scene"; narrativeOfType "rumour"] Campaign.initial)
    as (es & st' & Hrun & _ & _ & _ & _ & _ & _ & Hpending & _).
  exists es, st'. split; [exact Hrun|]. apply Hpending. constructor.
Defined.

(** Two threats assessed by a new manager: levels 5 and 8. *)
Lemma assessed_threats_listed_witness :
  exists ts st',
    Campaign.assessAll Sample.env
      [Sample.threatOfLevel None; Sample.threatOfLevel (Some 8)] Campaign.initial
    = Returned ts st' /\
    map Context.threatLevel ts = [5; 8] /\
    Campaign.getActiveThreats None st' = Campaign.sortByLevel ts.
Proof.
  destruct (assessed_threats_listed Sample.env
              [Sample.threatOfLevel None; Sample.threatOfLevel (Some 8)])
    as (Hinit & Hstep).
  destruct (Hstep Campaign.initial Hinit) as (ts & st' & Hrun & _ & _ & Hlevels & Hlisted).
  exists ts, st'. split; [exact Hrun|]. split; [exact Hlevels | exact Hlisted].
Defined.

(** The overall level of the threats of levels 5 and 8. *)
Lemma calculateThreatLevel_range_witness :
  1 <= Campaign.calculateThreatLevel twoThreats <= 10.
Proof.
  destruct (assessAll_tracked Sample.env
              [Sample.threatOfLevel None; Sample.threatOfLevel (Some 8)]
              Campaign.initial tracked_initial)
    as (ts & st' & Hrun & (_ & _ & Hassessed) & Hvalues & Hlevels).
  unfold twoThreats, Sample.after. rewrite Hrun.
  apply (calculateThreatLevel_range st' Hassessed).
  rewrite Hvalues. destruct ts; [discriminate Hlevels | discriminate].
Defined.

(** The average over agent A alone, at sanity 70. *)
Lemma calculateAverageSanity_between_witness :
  exists average,
    Campaign.calculateAverageSanity (campaignOf Sample.oneAgent) = Some average /\
    70 <= average <= 70.
Proof.
  destruct (registerAgent_stores Sample.env Sample.agentA Context.initial)
    as (a & st' & Hrun & _ & _ & Htrackers).
  cbv zeta in Htrackers.
  assert (Hone : Sample.oneAgent = st').
  { unfold Sample.oneAgent, Sample.after. rewrite Hrun. reflexivity. }
  destruct (calculateAverageSanity_between (campaignOf Sample.oneAgent) 70 70)
    as (average & Haverage & _ & Hbounds).
  - change (paired Sample.oneAgent).
    apply (paired_registerAgent Sample.env Sample.agentA Context.initial Sample.oneAgent).
    + split; [reflexivity|]. intros id t Ht. simpl in Ht. rewrite lookup_empty in Ht.
      discriminate Ht.
    + rewrite Hrun, Hone. reflexivity.
  - intros id t. change (Campaign.core (campaignOf Sample.oneAgent)) with Sample.oneAgent.
    rewrite Hone, Htrackers. rewrite lookup_insert_Some.
    intros [[_ <-]|[_ Hempty]]; [simpl; lia|].
    simpl in Hempty. rewrite lookup_empty in Hempty. discriminate Hempty.
  - exists average. split; [exact Haverage|]. apply Hbounds.
    change (Campaign.core (campaignOf Sample.oneAgent)) with Sample.oneAgent.
    intros Hempty. pose proof agentA_registered as Hreg.
    rewrite Hempty, lookup_empty in Hreg. discriminate Hreg.
Defined.

(** The first briefing of a new manager. *)
Lemma latest_briefing_is_current_witness :
  exists m st',
    Campaign.generateMissionBriefing Sample.env Z.of_nat noBriefing Campaign.initial
    = Returned m st' /\
    Campaign.getCurrentMission st' = Some m.
Proof.
  destruct (latest_briefing_is_current Sample.env Z.of_nat noBriefing Campaign.initial)
    as (Hinit & Hstep).
  destruct (Hstep Hinit) as (m & st' & Hrun & _ & Hcurrent & _).
  exists m, st'. split; [exact Hrun | exact Hcurrent].
Defined.
